(** * The upload scheduler of [src/App.tsx], embedded in Rocq

    [App] is a React function component.  Its behaviour is the behaviour of
    the React runtime driving it: state cells ([useState]), mutable
    references ([useRef]), a memoised callback ([useCallback]) and two
    effects ([useEffect]) that are re-run when one of their dependencies
    changes between two renders.

    The embedding keeps these as they are in the source:
    - every [useState] cell is a field of [AppState];
    - [useRef] cells, the browser's timer table and the promises the
      component awaits are fields of [World];
    - an [async] function suspended at an [await] is the pending timer or
      promise that will resume it, carrying the locals it still needs;
    - [performUpload] takes the values its [useCallback] closure captured
      as an explicit argument ([Closure]); a timer callback stores the
      closure it was created with, and a click calls the callback of the
      last render ([rendered]);
    - what the JavaScript runtime supplies to a task, the values of
      [Math.random()] and the upper-casing of characters outside ASCII,
      is an argument of that task ([Draws]); numbers are doubles, and
      products and sums are rounded as the runtime rounds them.

    The event loop comes at two grains.  A [Task] is one handler (a click,
    a timer callback, a promise settling) or one render with its effects;
    tasks may follow each other in any order the clock allows.  A [step]
    is a handler together with the renders that bring the component to
    rest ([flush]): the event loop in which every event is rendered before
    the next one arrives.  Every run of steps is a run of tasks
    ([run_as_tasks]); the converse does not hold, and a click that comes
    between two renders can meet a callback that is out of date.
    Time is the browser's clock in milliseconds; a timer fires at the
    instant it is due. *)

From Stdlib Require Import ZArith QArith Qround Lqa List String Ascii Bool Lia.
From Stdlib Require Import DecimalString.
Import ListNotations.
Local Open Scope Z_scope.
Local Open Scope list_scope.
Local Open Scope string_scope.

(** ** JavaScript strings and numbers *)

Module JS.

(** [n.toString()] of an integer. *)
Definition string_of_Z (n : Z) : string :=
  NilZero.string_of_int (Z.to_int n).

(** [email.split('@')[0]]: the text before the first ['@']. *)
Fixpoint split_at_first (sep : ascii) (s : string) : string :=
  match s with
  | EmptyString => EmptyString
  | String c rest =>
      if Ascii.eqb c sep then EmptyString else String c (split_at_first sep rest)
  end.

(** Strings are kept as their UTF-8 bytes, so a character below 128 is
    one byte and any other character is a lead byte followed by
    continuation bytes ([10xxxxxx]).

    [c.toUpperCase()] for a character below 128: the letters [a]..[z] go
    to [A]..[Z], every other such character is kept. *)
Definition upper (c : ascii) : ascii :=
  let n := nat_of_ascii c in
  if ((97 <=? n) && (n <=? 122))%nat then ascii_of_nat (n - 32) else c.

Definition isContinuation (c : ascii) : bool :=
  let n := nat_of_ascii c in ((128 <=? n) && (n <? 192))%nat.

(** The continuation bytes [s] starts with, and what follows them. *)
Fixpoint continuation (s : string) : string * string :=
  match s with
  | EmptyString => (EmptyString, EmptyString)
  | String c rest =>
      if isContinuation c then
        let (more, rest') := continuation rest in (String c more, rest')
      else (EmptyString, s)
  end.

(** [s.charAt(0).toUpperCase() + s.slice(1)].  For a first character
    outside ASCII the upper-casing is that of the runtime's Unicode
    tables: [up ch] is what the expression gives on the one-character
    string [ch]. *)
Definition capitalize (up : string -> string) (s : string) : string :=
  match s with
  | EmptyString => EmptyString
  | String c rest =>
      if (nat_of_ascii c <? 128)%nat then String (upper c) rest
      else let (more, rest') := continuation rest in up (String c more) ++ rest'
  end.

(** A number is an IEEE 754 double, kept as the rational it stands for.
    [*] and [+] give the double nearest to the exact result, the one with
    an even significand on a tie.  The numbers of [App.tsx] stay far below
    the overflow threshold, which is left out. *)
Definition pow2 (j : Z) : Q :=
  match j with
  | Zneg p => 1 # (Pos.pow 2 p)
  | _ => inject_Z (2 ^ j)
  end.

(** [floor (log2 x)] of a positive [x]. *)
Definition ilog2 (x : Q) : Z :=
  let e := Z.log2 (Qnum x) - Z.log2 (Zpos (Qden x)) in
  if Qle_bool (pow2 e) x then e else e - 1.

(** The integer nearest to [q], the even one on a tie. *)
Definition rne (q : Q) : Z :=
  let f := Qfloor q in
  match Qcompare (q - inject_Z f) (1 # 2) with
  | Lt => f
  | Gt => f + 1
  | Eq => if Z.even f then f else f + 1
  end.

(** Doubles near a positive [x] are the multiples of [2 ^ (e - 52)],
    where [e] is [floor (log2 x)], and not below [-1022] (subnormals). *)
Definition double_pos (x : Q) : Q :=
  let u := pow2 (Z.max (ilog2 x) (-1022) - 52) in
  (inject_Z (rne (x / u)) * u)%Q.

Definition double (x : Q) : Q :=
  match Qcompare x 0 with
  | Eq => 0
  | Gt => double_pos x
  | Lt => - double_pos (- x)
  end.

Definition mul (x y : Q) : Q := double (x * y).
Definition add (x y : Q) : Q := double (x + y).

(** [x.toFixed(0)] and [x.toFixed(1)] work on the exact value of the
    double: they scale by the power of ten and take the nearest integer,
    the larger one on a tie. *)
Definition round_half_up (x : Q) : Z := Qfloor (x + (1 # 2))%Q.

Definition toFixed0 (x : Q) : string := string_of_Z (round_half_up x).

Definition toFixed1 (x : Q) : string :=
  let n := round_half_up (x * (10 # 1))%Q in
  string_of_Z (n / 10) ++ "." ++ string_of_Z (n mod 10).

(** [Math.floor(x)], exact on a double. *)
Definition floor (x : Q) : Z := Qfloor x.

End JS.

(** ** Data model ([./types], as [App.tsx] builds and reads it) *)

Module Types.

Inductive UploadStatus := pending | processing | uploaded | failed.

Inductive ProcessingStage :=
| trend_scouting
| strategy_mapping
| script_generation
| neural_rendering
| voice_synthesis
| qc_validation
| publishing.

(** [VideoFormat] is a union of string literals; ['shorts'] is the one
    [App.tsx] names. *)
Definition VideoFormat := string.

Record Metrics := { ctr : string; retention : string }.

(** The result of [fetchTrendAndMetadata]; [App.tsx] copies its four
    fields and never looks inside [sources]. *)
Record GrowthData := {
  g_title : string;
  g_description : string;
  g_trendTopic : string;
  g_sources : list string
}.

Record UploadRecord := {
  id : string;
  timestamp : Z;
  title : string;
  description : string;
  status : UploadStatus;
  stage : ProcessingStage;
  thumbnail : string;
  format : VideoFormat;
  trendSource : option string;
  sources : option (list string);
  metrics : option Metrics
}.

Record ChannelInfo := {
  name : string;
  handle : string;
  subscribers : string;
  avatar : string
}.

End Types.
Import Types.

(** ** The component's state *)

(** The [useState] cells of [App], in the order of the source. *)
Record AppState := {
  isAutoActive : bool;
  uploads : list UploadRecord;
  isProcessing : bool;
  niche : string;
  tone : string;
  format : VideoFormat;
  timeLeft : Z;
  isConnected : bool;
  isConnecting : bool;
  showLoginModal : bool;
  channel : option ChannelInfo
}.

(** What [performUpload] closes over: the dependency list of its
    [useCallback], [[isProcessing, isConnected, niche, tone, format]].
    React hands out a new function exactly when one of them changed, so a
    [Closure] is also the identity of the callback. *)
Record Closure := {
  c_isProcessing : bool;
  c_isConnected : bool;
  c_niche : string;
  c_tone : string;
  c_format : VideoFormat
}.

(** What a pending timer runs when it fires. *)
Inductive Callback :=
| UploadTick (c : Closure)
    (* setInterval(() => { performUpload(); setTimeLeft(60); }, 60000) *)
| CountdownTick
    (* setInterval(() => setTimeLeft(prev => prev > 1 ? prev - 1 : 60), 1000) *)
| StageDelay (newId : string) (growthData : GrowthData) (rest : list ProcessingStage)
    (* await new Promise(r => setTimeout(r, 2000)) inside the for loop of
       performUpload; [rest] are the stages the loop has not reached *)
| ConnectDelay (email : string)
    (* await new Promise(r => setTimeout(r, 1500)) in handleConnect *)
| GoogleDelay.
    (* the same await in handleGoogleLogin *)

Record Timer := {
  tm_id : nat;
  tm_due : Z;
  tm_every : option Z;   (* [Some p] for setInterval, [None] for setTimeout *)
  tm_cb : Callback
}.

(** A promise of the outside world that an [async] function awaits. *)
Inductive Awaited :=
| Fetch (newId : string) (niche tone : string) (format : VideoFormat)
    (* await fetchTrendAndMetadata(niche, tone, format) in performUpload *)
| SelectKey.
    (* await window.aistudio.openSelectKey() in handleGoogleLogin *)

Record World := {
  state : AppState;            (* the state cells *)
  rendered : AppState;       (* their values at the last render *)
  timerRef : option nat;
  uploadTimerRef : option nat;
  now : Z;
  timers : list Timer;
  nextTimer : nat;
  awaiting : list (nat * Awaited);
  nextPromise : nat
}.

(** What the JavaScript runtime hands to one task: the values of
    [Math.random()], and its upper-casing of characters outside ASCII.
    - [d_id] is the id string [Math.random().toString(36).substring(7)];
    - the updater that ends a run calls [Math.random()] twice for every
      record it rewrites: [d_ctr k] and [d_ret k] are the two numbers drawn
      for the [k]-th of them, counted from the head of the store;
    - [d_subs] is the number behind the subscriber count;
    - [d_upper] is [JS.capitalize]'s upper-casing. *)
Record Draws := {
  d_id : string;
  d_ctr : nat -> Q;
  d_ret : nat -> Q;
  d_subs : Q;
  d_upper : string -> string
}.

(** *** State setters *)

Definition set_isAutoActive (v : bool) (a : AppState) : AppState :=
  {| isAutoActive := v; uploads := uploads a; isProcessing := isProcessing a;
     niche := niche a; tone := tone a; format := format a; timeLeft := timeLeft a;
     isConnected := isConnected a; isConnecting := isConnecting a;
     showLoginModal := showLoginModal a; channel := channel a |}.

Definition set_uploads (f : list UploadRecord -> list UploadRecord) (a : AppState) : AppState :=
  {| isAutoActive := isAutoActive a; uploads := f (uploads a); isProcessing := isProcessing a;
     niche := niche a; tone := tone a; format := format a; timeLeft := timeLeft a;
     isConnected := isConnected a; isConnecting := isConnecting a;
     showLoginModal := showLoginModal a; channel := channel a |}.

Definition set_isProcessing (v : bool) (a : AppState) : AppState :=
  {| isAutoActive := isAutoActive a; uploads := uploads a; isProcessing := v;
     niche := niche a; tone := tone a; format := format a; timeLeft := timeLeft a;
     isConnected := isConnected a; isConnecting := isConnecting a;
     showLoginModal := showLoginModal a; channel := channel a |}.

Definition set_niche (v : string) (a : AppState) : AppState :=
  {| isAutoActive := isAutoActive a; uploads := uploads a; isProcessing := isProcessing a;
     niche := v; tone := tone a; format := format a; timeLeft := timeLeft a;
     isConnected := isConnected a; isConnecting := isConnecting a;
     showLoginModal := showLoginModal a; channel := channel a |}.

Definition set_tone (v : string) (a : AppState) : AppState :=
  {| isAutoActive := isAutoActive a; uploads := uploads a; isProcessing := isProcessing a;
     niche := niche a; tone := v; format := format a; timeLeft := timeLeft a;
     isConnected := isConnected a; isConnecting := isConnecting a;
     showLoginModal := showLoginModal a; channel := channel a |}.

Definition set_format (v : VideoFormat) (a : AppState) : AppState :=
  {| isAutoActive := isAutoActive a; uploads := uploads a; isProcessing := isProcessing a;
     niche := niche a; tone := tone a; format := v; timeLeft := timeLeft a;
     isConnected := isConnected a; isConnecting := isConnecting a;
     showLoginModal := showLoginModal a; channel := channel a |}.

Definition set_timeLeft (f : Z -> Z) (a : AppState) : AppState :=
  {| isAutoActive := isAutoActive a; uploads := uploads a; isProcessing := isProcessing a;
     niche := niche a; tone := tone a; format := format a; timeLeft := f (timeLeft a);
     isConnected := isConnected a; isConnecting := isConnecting a;
     showLoginModal := showLoginModal a; channel := channel a |}.

Definition set_isConnected (v : bool) (a : AppState) : AppState :=
  {| isAutoActive := isAutoActive a; uploads := uploads a; isProcessing := isProcessing a;
     niche := niche a; tone := tone a; format := format a; timeLeft := timeLeft a;
     isConnected := v; isConnecting := isConnecting a;
     showLoginModal := showLoginModal a; channel := channel a |}.

Definition set_isConnecting (v : bool) (a : AppState) : AppState :=
  {| isAutoActive := isAutoActive a; uploads := uploads a; isProcessing := isProcessing a;
     niche := niche a; tone := tone a; format := format a; timeLeft := timeLeft a;
     isConnected := isConnected a; isConnecting := v;
     showLoginModal := showLoginModal a; channel := channel a |}.

Definition set_showLoginModal (v : bool) (a : AppState) : AppState :=
  {| isAutoActive := isAutoActive a; uploads := uploads a; isProcessing := isProcessing a;
     niche := niche a; tone := tone a; format := format a; timeLeft := timeLeft a;
     isConnected := isConnected a; isConnecting := isConnecting a;
     showLoginModal := v; channel := channel a |}.

Definition set_channel (v : option ChannelInfo) (a : AppState) : AppState :=
  {| isAutoActive := isAutoActive a; uploads := uploads a; isProcessing := isProcessing a;
     niche := niche a; tone := tone a; format := format a; timeLeft := timeLeft a;
     isConnected := isConnected a; isConnecting := isConnecting a;
     showLoginModal := showLoginModal a; channel := v |}.

(** A state update queued by a setter: it acts on the cell's current
    value, whatever render the caller belongs to. *)
Definition update (f : AppState -> AppState) (w : World) : World :=
  {| state := f (state w); rendered := rendered w;
     timerRef := timerRef w; uploadTimerRef := uploadTimerRef w;
     now := now w; timers := timers w; nextTimer := nextTimer w;
     awaiting := awaiting w; nextPromise := nextPromise w |}.

Definition setIsAutoActive v := update (set_isAutoActive v).
Definition setUploads f := update (set_uploads f).
Definition setIsProcessing v := update (set_isProcessing v).
Definition setNiche v := update (set_niche v).
Definition setTone v := update (set_tone v).
Definition setFormat v := update (set_format v).
Definition setTimeLeft v := update (set_timeLeft (fun _ => v)).
Definition setTimeLeftWith f := update (set_timeLeft f).
Definition setIsConnected v := update (set_isConnected v).
Definition setIsConnecting v := update (set_isConnecting v).
Definition setShowLoginModal v := update (set_showLoginModal v).
Definition setChannel v := update (set_channel v).

(** *** Timers and promises *)

Definition with_timers (f : list Timer -> list Timer) (w : World) : World :=
  {| state := state w; rendered := rendered w;
     timerRef := timerRef w; uploadTimerRef := uploadTimerRef w;
     now := now w; timers := f (timers w); nextTimer := nextTimer w;
     awaiting := awaiting w; nextPromise := nextPromise w |}.

(** [setTimeout]/[setInterval]: the new timer gets the next id and is due
    [delay] ms from now; the id is returned. *)
Definition schedule (cb : Callback) (delay : Z) (every : option Z) (w : World) : nat * World :=
  (nextTimer w,
   {| state := state w; rendered := rendered w;
      timerRef := timerRef w; uploadTimerRef := uploadTimerRef w;
      now := now w;
      timers := (timers w ++ [{| tm_id := nextTimer w; tm_due := now w + delay;
                                tm_every := every; tm_cb := cb |}])%list;
      nextTimer := S (nextTimer w);
      awaiting := awaiting w; nextPromise := nextPromise w |}).

Definition setTimeout (cb : Callback) (delay : Z) (w : World) : World :=
  snd (schedule cb delay None w).

Definition setInterval (cb : Callback) (delay : Z) (w : World) : nat * World :=
  schedule cb delay (Some delay) w.

Definition clearInterval (i : nat) (w : World) : World :=
  with_timers (filter (fun tm => negb (Nat.eqb (tm_id tm) i))) w.

(** [if (ref.current) clearInterval(ref.current)]: [null] and [0] are
    falsy. *)
Definition clearIfSet (ref : option nat) (w : World) : World :=
  match ref with
  | Some (S i) => clearInterval (S i) w
  | _ => w
  end.

Definition set_timerRef (r : option nat) (w : World) : World :=
  {| state := state w; rendered := rendered w;
     timerRef := r; uploadTimerRef := uploadTimerRef w;
     now := now w; timers := timers w; nextTimer := nextTimer w;
     awaiting := awaiting w; nextPromise := nextPromise w |}.

Definition set_uploadTimerRef (r : option nat) (w : World) : World :=
  {| state := state w; rendered := rendered w;
     timerRef := timerRef w; uploadTimerRef := r;
     now := now w; timers := timers w; nextTimer := nextTimer w;
     awaiting := awaiting w; nextPromise := nextPromise w |}.

Definition set_rendered (a : AppState) (w : World) : World :=
  {| state := state w; rendered := a;
     timerRef := timerRef w; uploadTimerRef := uploadTimerRef w;
     now := now w; timers := timers w; nextTimer := nextTimer w;
     awaiting := awaiting w; nextPromise := nextPromise w |}.

Definition set_now (t : Z) (w : World) : World :=
  {| state := state w; rendered := rendered w;
     timerRef := timerRef w; uploadTimerRef := uploadTimerRef w;
     now := t; timers := timers w; nextTimer := nextTimer w;
     awaiting := awaiting w; nextPromise := nextPromise w |}.

(** The caller suspends on a promise of the outside world. *)
Definition await (p : Awaited) (w : World) : World :=
  {| state := state w; rendered := rendered w;
     timerRef := timerRef w; uploadTimerRef := uploadTimerRef w;
     now := now w; timers := timers w; nextTimer := nextTimer w;
     awaiting := (awaiting w ++ [(nextPromise w, p)])%list;
     nextPromise := S (nextPromise w) |}.

Definition settle (pid : nat) (w : World) : World :=
  {| state := state w; rendered := rendered w;
     timerRef := timerRef w; uploadTimerRef := uploadTimerRef w;
     now := now w; timers := timers w; nextTimer := nextTimer w;
     awaiting := filter (fun p => negb (Nat.eqb (fst p) pid)) (awaiting w);
     nextPromise := nextPromise w |}.

(** ** The Record Store: [uploads] *)

(** [setUploads(prev => [initialRecord, ...prev])]. *)
Definition insert (r : UploadRecord) (prev : list UploadRecord) : list UploadRecord :=
  r :: prev.

(** [prev.map(u => u.id === newId ? f(u) : u)]. *)
Definition updateById (newId : string) (f : UploadRecord -> UploadRecord)
    (prev : list UploadRecord) : list UploadRecord :=
  map (fun u => if String.eqb (id u) newId then f u else u) prev.

(** ** The pipeline: [performUpload] *)

(** The six stages the [for] loop walks through. *)
Definition stages : list ProcessingStage :=
  [strategy_mapping; script_generation; neural_rendering;
   voice_synthesis; qc_validation; publishing].

Definition closure_of (a : AppState) : Closure :=
  {| c_isProcessing := isProcessing a; c_isConnected := isConnected a;
     c_niche := niche a; c_tone := tone a; c_format := format a |}.

(** The two thumbnail URLs, [`...&seed=${newId}`]. *)
Definition initialThumbnail (newId : string) : string :=
  "https://images.unsplash.com/photo-1618005182384-a83a8bd57fbe?w=800&auto=format&fit=crop&q=60&seed=" ++ newId.

Definition finalThumbnail (newId : string) : string :=
  "https://images.unsplash.com/photo-1620641788421-7a1c342ea42e?w=800&auto=format&fit=crop&q=60&seed=" ++ newId.

Definition initialRecord (newId : string) (c : Closure) (t : Z) : UploadRecord :=
  {| id := newId;
     timestamp := t;
     title := "Detecting High-Velocity Signals...";
     description := "ViralGrowth Engine is currently scanning global trends for peak virality...";
     status := pending;
     stage := trend_scouting;
     thumbnail := initialThumbnail newId;
     Types.format := c_format c;
     trendSource := None;
     sources := None;
     metrics := None |}.

(** The object the loop body spreads over [u]. *)
Definition stageUpdate (growthData : GrowthData) (st : ProcessingStage)
    (u : UploadRecord) : UploadRecord :=
  {| id := id u;
     timestamp := timestamp u;
     title := g_title growthData;
     description := g_description growthData;
     status := processing;
     stage := st;
     thumbnail := thumbnail u;
     Types.format := Types.format u;
     trendSource := Some (g_trendTopic growthData);
     sources := Some (g_sources growthData);
     metrics := metrics u |}.

(** [(Math.random() * 8 + 4).toFixed(1) + '%'] and
    [(Math.random() * 20 + 70).toFixed(0) + '%']. *)
Definition ctr_of (r : Q) : string :=
  JS.toFixed1 (JS.add (JS.mul r (8 # 1)) (4 # 1)) ++ "%".
Definition retention_of (r : Q) : string :=
  JS.toFixed0 (JS.add (JS.mul r (20 # 1)) (70 # 1)) ++ "%".

(** The object the last updater spreads over [u], the [k]-th record it
    rewrites. *)
Definition finalUpdate (newId : string) (d : Draws) (k : nat) (u : UploadRecord) : UploadRecord :=
  {| id := id u;
     timestamp := timestamp u;
     title := title u;
     description := description u;
     status := uploaded;
     stage := publishing;
     thumbnail := finalThumbnail newId;
     Types.format := Types.format u;
     trendSource := trendSource u;
     sources := sources u;
     metrics := Some {| ctr := ctr_of (d_ctr d k); retention := retention_of (d_ret d k) |} |}.

(** The last updater,
    [prev.map(u => u.id === newId ? { ...u, ..., metrics: ... } : u)]: the
    metrics are drawn anew for every record with the id.  [k] counts the
    records rewritten so far. *)
Fixpoint finalUpdatesFrom (k : nat) (newId : string) (d : Draws)
    (prev : list UploadRecord) : list UploadRecord :=
  match prev with
  | [] => []
  | u :: rest =>
      if String.eqb (id u) newId
      then finalUpdate newId d k u :: finalUpdatesFrom (S k) newId d rest
      else u :: finalUpdatesFrom k newId d rest
  end.

Definition finalUpdates (newId : string) (d : Draws)
    (prev : list UploadRecord) : list UploadRecord :=
  finalUpdatesFrom 0 newId d prev.

Definition failUpdate (u : UploadRecord) : UploadRecord :=
  {| id := id u;
     timestamp := timestamp u;
     title := title u;
     description := description u;
     status := failed;
     stage := stage u;
     thumbnail := thumbnail u;
     Types.format := Types.format u;
     trendSource := trendSource u;
     sources := sources u;
     metrics := metrics u |}.

(** [performUpload], from its first line to [await fetchTrendAndMetadata].
    [c] holds the values the callback closed over. *)
Definition performUpload (c : Closure) (d : Draws) (w : World) : World :=
  if c_isProcessing c || negb (c_isConnected c) then w
  else
    let w := setIsProcessing true w in
    let newId := d_id d in
    let w := setUploads (insert (initialRecord newId c (now w))) w in
    await (Fetch newId (c_niche c) (c_tone c) (c_format c)) w.

(** The [for] loop with [rest] still to visit, up to its next [await];
    after the last stage, the final update and the [finally] block. *)
Definition performUpload_loop (newId : string) (growthData : GrowthData)
    (rest : list ProcessingStage) (d : Draws) (w : World) : World :=
  match rest with
  | st :: rest' =>
      let w := setUploads (updateById newId (stageUpdate growthData st)) w in
      setTimeout (StageDelay newId growthData rest') 2000 w
  | [] =>
      let w := setUploads (finalUpdates newId d) w in
      setIsProcessing false w
  end.

(** [performUpload] resumed when the fetch settles: the loop on success,
    the [catch] block on rejection, [finally] after either. *)
Definition performUpload_fetched (newId : string) (result : option GrowthData)
    (d : Draws) (w : World) : World :=
  match result with
  | Some growthData => performUpload_loop newId growthData stages d w
  | None =>
      let w := setUploads (updateById newId failUpdate) w in
      setIsProcessing false w
  end.

(** ** The Connection Gate *)

Definition mockChannel (email : string) (d : Draws) : ChannelInfo :=
  let namePart := JS.split_at_first "@" email in
  let channelName := JS.capitalize (d_upper d) namePart ++ " Studio" in
  {| name := channelName;
     handle := "@" ++ namePart;
     subscribers := JS.string_of_Z (JS.floor (JS.mul (d_subs d) (500 # 1)) + 1) ++ "K";
     avatar := "https://api.dicebear.com/7.x/avataaars/svg?seed=" ++ namePart |}.

Definition setupMockChannel (email : string) (d : Draws) (w : World) : World :=
  let w := setChannel (Some (mockChannel email d)) w in
  setIsConnected true w.

(** [handleConnect] up to its [await], and from there on. *)
Definition handleConnect (email : string) (w : World) : World :=
  let w := setIsConnecting true w in
  setTimeout (ConnectDelay email) 1500 w.

Definition handleConnect_resumed (email : string) (d : Draws) (w : World) : World :=
  let w := setupMockChannel email d w in
  let w := setIsConnecting false w in
  setShowLoginModal false w.

(** [handleGoogleLogin]: up to [await openSelectKey()] (or the fallback
    when [window.aistudio] is not there), from there to the second
    [await] (or the [catch] block), and from there on. *)
Definition handleGoogleLogin (aistudio : bool) (w : World) : World :=
  if aistudio then await SelectKey w
  else handleConnect "google.user@gmail.com" w.

Definition handleGoogleLogin_selected (ok : bool) (w : World) : World :=
  if ok then
    let w := setIsConnecting true w in
    setTimeout GoogleDelay 1500 w
  else setIsConnecting false w.

Definition handleGoogleLogin_resumed (d : Draws) (w : World) : World :=
  let w := setupMockChannel "google.user@gmail.com" d w in
  let w := setIsConnecting false w in
  setShowLoginModal false w.

Definition handleDisconnect (w : World) : World :=
  let w := setIsAutoActive false w in
  let w := setIsConnected false w in
  setChannel None w.

(** ** Effects and rendering *)

Definition period : Z := 60.

(** The body of the upload-timer effect, run by the render whose state is
    [cur]. *)
Definition uploadEffect (cur : AppState) (d : Draws) (w : World) : World :=
  if isAutoActive cur && isConnected cur then
    let w := performUpload (closure_of cur) d w in
    let w := setTimeLeft 60 w in
    let (interval, w) := setInterval (UploadTick (closure_of cur)) 60000 w in
    set_uploadTimerRef (Some interval) w
  else clearIfSet (uploadTimerRef w) w.

Definition uploadCleanup (w : World) : World := clearIfSet (uploadTimerRef w) w.

(** The body of the countdown effect. *)
Definition countdownEffect (cur : AppState) (w : World) : World :=
  if isAutoActive cur && isConnected cur then
    let (interval, w) := setInterval CountdownTick 1000 w in
    set_timerRef (Some interval) w
  else
    let w := clearIfSet (timerRef w) w in
    setTimeLeft 60 w.

Definition countdownCleanup (w : World) : World := clearIfSet (timerRef w) w.

Definition closure_eqb (c1 c2 : Closure) : bool :=
  Bool.eqb (c_isProcessing c1) (c_isProcessing c2)
  && Bool.eqb (c_isConnected c1) (c_isConnected c2)
  && String.eqb (c_niche c1) (c_niche c2)
  && String.eqb (c_tone c1) (c_tone c2)
  && String.eqb (c_format c1) (c_format c2).

(** Did a dependency of the effect change between two renders?
    [[isAutoActive, isConnected, performUpload]] and
    [[isAutoActive, isConnected]]. *)
Definition uploadDepsChanged (prev cur : AppState) : bool :=
  negb (Bool.eqb (isAutoActive prev) (isAutoActive cur)
        && Bool.eqb (isConnected prev) (isConnected cur)
        && closure_eqb (closure_of prev) (closure_of cur)).

Definition countdownDepsChanged (prev cur : AppState) : bool :=
  negb (Bool.eqb (isAutoActive prev) (isAutoActive cur)
        && Bool.eqb (isConnected prev) (isConnected cur)).

(** React runs the cleanups of the effects that are about to re-run, then
    their bodies, in the order of the source. *)
Definition runEffects (up cd : bool) (cur : AppState) (d : Draws) (w : World) : World :=
  let w := if up then uploadCleanup w else w in
  let w := if cd then countdownCleanup w else w in
  let w := if up then uploadEffect cur d w else w in
  if cd then countdownEffect cur w else w.

(** One render of the current state followed by its effects. *)
Definition commit (d : Draws) (w : World) : World :=
  let prev := rendered w in
  let cur := state w in
  let w := set_rendered cur w in
  runEffects (uploadDepsChanged prev cur) (countdownDepsChanged prev cur) cur d w.

(** Render until the effects queue no further update.  Two renders always
    reach that point ([flush_settled]); the third shows it. *)
Fixpoint rerender (fuel : nat) (d : Draws) (w : World) : World :=
  match fuel with
  | O => w
  | S fuel' => rerender fuel' d (commit d w)
  end.

Definition flush (d : Draws) (w : World) : World := rerender 3 d w.

(** ** The event loop *)

Definition initialState : AppState :=
  {| isAutoActive := false; uploads := []; isProcessing := false;
     niche := "AI Technology"; tone := "energetic"; format := "shorts";
     timeLeft := 60;
     isConnected := false; isConnecting := false; showLoginModal := false;
     channel := None |}.

(** The first render runs both effects. *)
Definition mount (d : Draws) : World :=
  let w := {| state := initialState; rendered := initialState;
              timerRef := None; uploadTimerRef := None;
              now := 0; timers := []; nextTimer := 1;
              awaiting := []; nextPromise := 0 |} in
  runEffects true true initialState d w.

Definition noDraws : Draws :=
  {| d_id := ""; d_ctr := fun _ => 0%Q; d_ret := fun _ => 0%Q; d_subs := 0;
     d_upper := fun ch => ch |}.

Definition init : World := mount noDraws.

(** What can happen: the callbacks [App] passes to [Dashboard] and
    [LoginModal], a timer coming due, a promise settling. *)
Inductive Event :=
| OpenLogin                          (* onConnect = handleOpenLogin *)
| CloseLogin                         (* onClose = handleCloseLogin *)
| Login (email : string)             (* onLogin = handleConnect *)
| GoogleLogin (aistudio : bool)      (* onGoogleLogin; is window.aistudio set? *)
| Disconnect                         (* onDisconnect = handleDisconnect *)
| ToggleAuto                         (* onToggleAuto *)
| SetNiche (v : string)
| SetTone (v : string)
| SetFormat (v : VideoFormat)
| ManualTrigger                      (* onManualTrigger = performUpload *)
| TimerFires (i : nat)
| FetchSettles (p : nat) (result : option GrowthData)   (* [None]: rejected *)
| SelectKeySettles (p : nat) (ok : bool).

Record Input := { at_time : Z; draws : Draws; event : Event }.

Definition find_timer (i : nat) (w : World) : option Timer :=
  find (fun tm => Nat.eqb (tm_id tm) i) (timers w).

Definition find_awaited (p : nat) (w : World) : option Awaited :=
  option_map snd (find (fun q => Nat.eqb (fst q) p) (awaiting w)).

(** An interval stays in the table, due one period later; a timeout
    leaves it. *)
Definition rearm (tm : Timer) (w : World) : World :=
  match tm_every tm with
  | Some p =>
      with_timers (map (fun x => if Nat.eqb (tm_id x) (tm_id tm)
                                 then {| tm_id := tm_id x; tm_due := tm_due x + p;
                                         tm_every := tm_every x; tm_cb := tm_cb x |}
                                 else x)) w
  | None => clearInterval (tm_id tm) w
  end.

(** The countdown's callback: [prev => (prev > 1 ? prev - 1 : 60)]. *)
Definition tick (prev : Z) : Z := if (1 <? prev)%Z then prev - 1 else 60.

Definition fire (tm : Timer) (d : Draws) (w : World) : World :=
  let w := rearm tm w in
  match tm_cb tm with
  | UploadTick c =>
      let w := performUpload c d w in
      setTimeLeft 60 w
  | CountdownTick =>
      setTimeLeftWith tick w
  | StageDelay newId growthData rest => performUpload_loop newId growthData rest d w
  | ConnectDelay email => handleConnect_resumed email d w
  | GoogleDelay => handleGoogleLogin_resumed d w
  end.

(** The handler of an event, before React renders.  Callbacks handed to
    the child components are those of the last render. *)
Definition handle (e : Event) (d : Draws) (w : World) : option World :=
  match e with
  | OpenLogin => Some (setShowLoginModal true w)
  | CloseLogin => Some (setShowLoginModal false w)
  | Login email => Some (handleConnect email w)
  | GoogleLogin aistudio => Some (handleGoogleLogin aistudio w)
  | Disconnect => Some (handleDisconnect w)
  | ToggleAuto => Some (setIsAutoActive (negb (isAutoActive (rendered w))) w)
  | SetNiche v => Some (setNiche v w)
  | SetTone v => Some (setTone v w)
  | SetFormat v => Some (setFormat v w)
  | ManualTrigger => Some (performUpload (closure_of (rendered w)) d w)
  | TimerFires i =>
      match find_timer i w with
      | Some tm => if (tm_due tm =? now w)%Z then Some (fire tm d w) else None
      | None => None
      end
  | FetchSettles p result =>
      match find_awaited p w with
      | Some (Fetch newId _ _ _) => Some (performUpload_fetched newId result d (settle p w))
      | _ => None
      end
  | SelectKeySettles p ok =>
      match find_awaited p w with
      | Some SelectKey => Some (handleGoogleLogin_selected ok (settle p w))
      | _ => None
      end
  end.

(** Time does not run backwards, and no timer is passed over: an event at
    time [t] needs every pending timer to be due at [t] or later. *)
Definition on_time (t : Z) (w : World) : bool :=
  (now w <=? t)%Z && forallb (fun tm => (t <=? tm_due tm)%Z) (timers w).

Definition step (i : Input) (w : World) : option World :=
  if on_time (at_time i) w then
    option_map (flush (draws i)) (handle (event i) (draws i) (set_now (at_time i) w))
  else None.

Fixpoint run (tr : list Input) (w : World) : option World :=
  match tr with
  | [] => Some w
  | i :: tr' =>
      match step i w with
      | Some w' => run tr' w'
      | None => None
      end
  end.

(** *** Renders as tasks of their own

    [step] lets React render an event to rest before the next event
    arrives.  The browser does not promise that.  The render that follows
    a handler and the render that follows the state updates of an effect
    are tasks of their own, and a click, or a timer that is due, may run
    before them; it then meets the callbacks of the last render that did
    happen, those of [rendered].  A [Task] is a handler alone, or one
    render with its effects. *)
Inductive Task :=
| Handler (i : Input)
| Render (d : Draws).

Definition task (k : Task) (w : World) : option World :=
  match k with
  | Handler i =>
      if on_time (at_time i) w
      then handle (event i) (draws i) (set_now (at_time i) w)
      else None
  | Render d => Some (commit d w)
  end.

Fixpoint run_tasks (ks : list Task) (w : World) : option World :=
  match ks with
  | [] => Some w
  | k :: ks' =>
      match task k w with
      | Some w' => run_tasks ks' w'
      | None => None
      end
  end.

(** The tasks of one [step]: the handler and the renders that follow it. *)
Definition settled (i : Input) : list Task :=
  [Handler i; Render (draws i); Render (draws i); Render (draws i)].

(** ** Observations used by the statements *)

(** The condition both effects test: [isAutoActive && isConnected]. *)
Definition autoOn (a : AppState) : bool := isAutoActive a && isConnected a.

Definition in_progress (u : UploadRecord) : bool :=
  match status u with
  | pending | processing => true
  | uploaded | failed => false
  end.

(** How many records are pending or processing. *)
Definition in_flight (l : list UploadRecord) : nat := List.length (filter in_progress l).

Definition record_of (newId : string) (w : World) : option UploadRecord :=
  find (fun u => String.eqb (id u) newId) (uploads (state w)).

Definition isUploadTick (tm : Timer) : bool :=
  match tm_cb tm with UploadTick _ => true | _ => false end.

Definition isCountdownTick (tm : Timer) : bool :=
  match tm_cb tm with CountdownTick => true | _ => false end.

(** The runs that are suspended at an [await]: their record ids. *)
Definition run_of_timer (tm : Timer) : list string :=
  match tm_cb tm with StageDelay newId _ _ => [newId] | _ => [] end.

Definition run_of_awaited (p : nat * Awaited) : list string :=
  match snd p with Fetch newId _ _ _ => [newId] | SelectKey => [] end.

Definition runs (w : World) : list string :=
  (flat_map run_of_awaited (awaiting w) ++ flat_map run_of_timer (timers w))%list.

(** [Math.random()] did not return an id that is already in the store. *)
Definition fresh (d : Draws) (w : World) : Prop :=
  ~ In (d_id d) (map id (uploads (state w))).

(** The worlds the mounted component can be in. *)
Inductive reachable : World -> Prop :=
| reach_init : reachable init
| reach_step (i : Input) (w w' : World) :
    reachable w -> step i w = Some w' -> reachable w'.

(** The same, along runs in which every id drawn is new to the store. *)
Inductive reachable_fresh : World -> Prop :=
| fresh_init : reachable_fresh init
| fresh_step (i : Input) (w w' : World) :
    reachable_fresh w -> fresh (draws i) w -> step i w = Some w' -> reachable_fresh w'.

(** The worlds the component can be in when renders are tasks of their
    own. *)
Inductive reachable_tasks : World -> Prop :=
| tasks_init : reachable_tasks init
| tasks_next (k : Task) (w w' : World) :
    reachable_tasks w -> task k w = Some w' -> reachable_tasks w'.

(** The run of record [newId] has set the [k]-th of the six stages at
    time [t] and sleeps on timer [i] until [t + 2000]. *)
Definition at_stage (k : nat) (newId : string) (growthData : GrowthData)
    (t : Z) (i : nat) (w : World) : Prop :=
  (exists u, record_of newId w = Some u
             /\ status u = processing
             /\ nth_error stages k = Some (stage u)
             /\ title u = g_title growthData
             /\ description u = g_description growthData
             /\ trendSource u = Some (g_trendTopic growthData)
             /\ sources u = Some (g_sources growthData))
  /\ find_timer i w = Some {| tm_id := i; tm_due := t + 2000; tm_every := None;
                              tm_cb := StageDelay newId growthData (skipn (S k) stages) |}.


(** ** Sample runs *)

Definition sampleDraws (newId : string) : Draws :=
  {| d_id := newId; d_ctr := fun _ => 1 # 2; d_ret := fun _ => 1 # 4; d_subs := 1 # 3;
     d_upper := fun ch => ch |}.


Definition sampleData : GrowthData :=
  {| g_title := "Five prompts that ship";
     g_description := "What changed in prompting this week";
     g_trendTopic := "prompting";
     g_sources := ["https://example.org/trends"] |}.

Definition input (t : Z) (newId : string) (e : Event) : Input :=
  {| at_time := t; draws := sampleDraws newId; event := e |}.

Definition fresh_b (d : Draws) (w : World) : bool :=
  negb (existsb (String.eqb (d_id d)) (map id (uploads (state w)))).

(** [run], refusing an id that is already in the store. *)
Fixpoint run_fresh (tr : list Input) (w : World) : option World :=
  match tr with
  | [] => Some w
  | i :: tr' =>
      if fresh_b (draws i) w then
        match step i w with
        | Some w' => run_fresh tr' w'
        | None => None
        end
      else None
  end.

Definition world_after (tr : list Input) : World :=
  match run tr init with
  | Some w => w
  | None => init
  end.

(** Log in at 0; the gate is connected at 1500 (timer 1). *)
Definition login_trace : list Input := [input 0 "a" (Login "ada@example.org")].

Definition connect_trace : list Input :=
  (login_trace ++ [input 1500 "b" (TimerFires 1)])%list.

(** A manual trigger at 2000: run [r1] awaits its fetch (promise 0). *)
Definition manual_trace : list Input :=
  (connect_trace ++ [input 2000 "r1" ManualTrigger])%list.

(** The fetch succeeds at 2100: [strategy_mapping], timer 2 due at 4100. *)
Definition fetched_trace : list Input :=
  (manual_trace ++ [input 2100 "c" (FetchSettles 0 (Some sampleData))])%list.

(** Five timeouts later the record is at [publishing], timer 7 due at
    14100. *)
Definition publishing_trace : list Input :=
  (fetched_trace ++
   [input 4100 "d" (TimerFires 2); input 6100 "e" (TimerFires 3);
    input 8100 "f" (TimerFires 4); input 10100 "g" (TimerFires 5);
    input 12100 "h" (TimerFires 6)])%list.

(** Auto-mode switched on at 2000 with the gate connected. *)
Definition auto_on_trace : list Input :=
  (connect_trace ++ [input 2000 "r1" ToggleAuto])%list.

(** Auto-mode instead, switched on at 2000 with the gate connected: run
    [r1] starts at once; 3 is the countdown interval, 4 the upload
    interval (due at 62000); the fetch succeeds at 2100 and the six stage
    timeouts 5..10 fire at 4100, ..., 14100, between the countdown's
    ticks. *)
Definition auto_trace : list Input :=
  (connect_trace ++
   [input 2000 "r1" ToggleAuto;
    input 2100 "c" (FetchSettles 0 (Some sampleData));
    input 3000 "t" (TimerFires 3); input 4000 "t" (TimerFires 3);
    input 4100 "t" (TimerFires 5);
    input 5000 "t" (TimerFires 3); input 6000 "t" (TimerFires 3);
    input 6100 "t" (TimerFires 6);
    input 7000 "t" (TimerFires 3); input 8000 "t" (TimerFires 3);
    input 8100 "t" (TimerFires 7);
    input 9000 "t" (TimerFires 3); input 10000 "t" (TimerFires 3);
    input 10100 "t" (TimerFires 8);
    input 11000 "t" (TimerFires 3); input 12000 "t" (TimerFires 3);
    input 12100 "t" (TimerFires 9);
    input 13000 "t" (TimerFires 3); input 14000 "t" (TimerFires 3);
    input 14100 "r2" (TimerFires 10)])%list.

(** What the store and the timer table show. *)
Definition store_view (w : World) : list (string * Z * UploadStatus * ProcessingStage) :=
  map (fun u => (id u, timestamp u, status u, stage u)) (uploads (state w)).

Definition timers_view (w : World) : list (nat * Z * option Z) :=
  map (fun tm => (tm_id tm, tm_due tm, tm_every tm)) (timers w).

Local Open Scope list_scope.

(** ** Invariants of the running component *)

(** *** Rendering *)

(** Does the render of the current state start a run from its upload
    effect? *)
Definition fires (w : World) : bool :=
  uploadDepsChanged (rendered w) (state w) && autoOn (state w)
  && negb (isProcessing (state w)).

(** The state such a render leaves. *)
Definition started (d : Draws) (w : World) : AppState :=
  set_timeLeft (fun _ => 60)
    (set_uploads (insert (initialRecord (d_id d) (closure_of (state w)) (now w)))
       (set_isProcessing true (state w))).

(** *** The timer table *)

Definition isInterval (tm : Timer) : bool := isUploadTick tm || isCountdownTick tm.

Definition isStage (tm : Timer) : bool :=
  match tm_cb tm with StageDelay _ _ _ => true | _ => false end.

Definition isFetch (p : nat * Awaited) : bool :=
  match snd p with Fetch _ _ _ _ => true | SelectKey => false end.

(** A callback that is set by [setTimeout]. *)
Definition plain (cb : Callback) : Prop :=
  match cb with UploadTick _ | CountdownTick => False | _ => True end.

(** Timer ids are handed out once, the two refs hold the ids of the two
    intervals, and every interval in the table is the one its ref names. *)
Record timers_ok (w : World) : Prop := {
  tk_next : (1 <= nextTimer w)%nat;
  tk_ids : forall tm, In tm (timers w) -> (1 <= tm_id tm < nextTimer w)%nat;
  tk_nodup : NoDup (map tm_id (timers w));
  tk_uref : forall r, uploadTimerRef w = Some r -> (r < nextTimer w)%nat;
  tk_cref : forall r, timerRef w = Some r -> (r < nextTimer w)%nat;
  tk_upload : forall tm, In tm (timers w) ->
      (isUploadTick tm = true <-> uploadTimerRef w = Some (tm_id tm));
  tk_countdown : forall tm, In tm (timers w) ->
      (isCountdownTick tm = true <-> timerRef w = Some (tm_id tm))
}.

Definition no_uploadTick (w : World) : Prop :=
  forall tm, In tm (timers w) -> isUploadTick tm = false.

Definition no_countdownTick (w : World) : Prop :=
  forall tm, In tm (timers w) -> isCountdownTick tm = false.

(** The intervals in the table belong to the last render: the upload
    interval calls the [performUpload] of that render, and both intervals
    are there exactly when that render saw [isAutoActive && isConnected]. *)
Record intervals_ok (w : World) : Prop := {
  iv_upload : forall tm c, In tm (timers w) -> tm_cb tm = UploadTick c ->
      c = closure_of (rendered w) /\ tm_every tm = Some 60000;
  iv_countdown : forall tm, In tm (timers w) -> tm_cb tm = CountdownTick ->
      tm_every tm = Some 1000;
  iv_on : forall tm, In tm (timers w) ->
      isUploadTick tm || isCountdownTick tm = true -> autoOn (rendered w) = true;
  iv_armed : autoOn (rendered w) = true ->
      (exists tm, In tm (timers w) /\ isUploadTick tm = true)
      /\ (exists tm, In tm (timers w) /\ isCountdownTick tm = true)
}.

Definition sched_ok (w : World) : Prop := timers_ok w /\ intervals_ok w.

(** The timers the effects and handlers set. *)
Definition uploadInterval (cur : AppState) (w : World) : Timer :=
  {| tm_id := nextTimer w; tm_due := now w + 60000; tm_every := Some 60000;
     tm_cb := UploadTick (closure_of cur) |}.

Definition countdownInterval (w : World) : Timer :=
  {| tm_id := nextTimer w; tm_due := now w + 1000; tm_every := Some 1000;
     tm_cb := CountdownTick |}.

Definition connectTimeout (email : string) (t : Z) (w : World) : Timer :=
  {| tm_id := nextTimer w; tm_due := t + 1500; tm_every := None;
     tm_cb := ConnectDelay email |}.

Definition stageTimeout (newId : string) (gd : GrowthData) (k : nat) (t : Z) (i : nat) : Timer :=
  {| tm_id := i; tm_due := t + 2000; tm_every := None;
     tm_cb := StageDelay newId gd (skipn (S k) stages) |}.

(** An interval after it fired. *)
Definition later (p : Z) (x : Timer) : Timer :=
  {| tm_id := tm_id x; tm_due := tm_due x + p; tm_every := tm_every x; tm_cb := tm_cb x |}.

(** No pending timer is overdue, and an interval is due within one period. *)
Definition due_ok (w : World) : Prop :=
  forall tm, In tm (timers w) ->
    now w <= tm_due tm
    /\ forall p, tm_every tm = Some p -> 0 < p /\ tm_due tm <= now w + p.

(** *** Auto-mode and the countdown *)

(** Whenever a render sees [isAutoActive && isConnected] with a changed
    [performUpload], its effect calls it; so in auto-mode the guard is
    taken as soon as it is released. *)
Definition busy_when_on (w : World) : Prop :=
  autoOn (state w) = true -> isProcessing (state w) = true.

Definition countdown_ok (w : World) : Prop :=
  1 <= timeLeft (state w) <= period
  /\ (autoOn (rendered w) = false -> timeLeft (state w) = period).

(** *** Runs and records *)

(** The store and the suspended runs agree: ids are distinct; at most one
    record is in progress; a run is suspended at its fetch or at a stage
    delay, never two; its record is pending at [trend_scouting] before
    the fetch settles and processing afterwards; and when the guard is
    free nothing is in progress and no run is suspended. *)
Record run_ok (w : World) : Prop := {
  ro_ids : NoDup (map id (uploads (state w)));
  ro_flight : (in_flight (uploads (state w)) <= 1)%nat;
  ro_idle : isProcessing (state w) = false ->
      in_flight (uploads (state w)) = 0%nat
      /\ (forall tm, In tm (timers w) -> isStage tm = false)
      /\ (forall p, In p (awaiting w) -> isFetch p = false);
  ro_timers : forall tm1 tm2, In tm1 (timers w) -> In tm2 (timers w) ->
      isStage tm1 = true -> isStage tm2 = true -> tm1 = tm2;
  ro_fetches : forall p1 p2, In p1 (awaiting w) -> In p2 (awaiting w) ->
      isFetch p1 = true -> isFetch p2 = true -> p1 = p2;
  ro_excl : forall tm p, In tm (timers w) -> In p (awaiting w) ->
      isStage tm = true -> isFetch p = true -> False;
  ro_fetch : forall p newId n t f, In (p, Fetch newId n t f) (awaiting w) ->
      exists u, In u (uploads (state w)) /\ id u = newId
                /\ status u = pending /\ stage u = trend_scouting;
  ro_stage : forall tm newId gd rest, In tm (timers w) ->
      tm_cb tm = StageDelay newId gd rest ->
      tm_every tm = None
      /\ exists u, In u (uploads (state w)) /\ id u = newId /\ status u = processing
}.

(** The update a resumed run applies to the records already stored.  Ids
    being distinct, the updater that ends a run rewrites one record, the
    first it meets ([finalUpdates_unique]). *)
Inductive updated (w : World) (d : Draws) (e : Event) : list UploadRecord -> Prop :=
| up_same : updated w d e (uploads (state w))
| up_fetched p newId n to f result u :
    e = FetchSettles p result ->
    find_awaited p w = Some (Fetch newId n to f) ->
    In u (uploads (state w)) -> id u = newId ->
    status u = pending -> stage u = trend_scouting ->
    updated w d e
      (updateById newId
         (match result with
          | Some gd => stageUpdate gd strategy_mapping
          | None => failUpdate
          end) (uploads (state w)))
| up_staged i tm newId gd rest u :
    e = TimerFires i ->
    find_timer i w = Some tm -> tm_cb tm = StageDelay newId gd rest ->
    In u (uploads (state w)) -> id u = newId -> status u = processing ->
    updated w d e
      (updateById newId
         (match rest with
          | st :: _ => stageUpdate gd st
          | [] => finalUpdate newId d 0
          end) (uploads (state w))).

(** The record a trigger that passed the guard puts in front. *)
Definition inserted (d : Draws) (t : Z) (news : list UploadRecord) : Prop :=
  news = [] \/ exists c, news = [initialRecord (d_id d) c t].


(** ** Further observations *)

(** Timestamps read from the head of the store: none is later than [t],
    and none is later than the one before it. *)
Fixpoint descending (t : Z) (l : list Z) : Prop :=
  match l with
  | [] => True
  | x :: l' => x <= t /\ descending x l'
  end.

(** What a record holds at each status. *)
Definition shaped (u : UploadRecord) : Prop :=
  match status u with
  | pending | failed =>
      stage u = trend_scouting
      /\ title u = "Detecting High-Velocity Signals..."%string
      /\ trendSource u = None /\ sources u = None /\ metrics u = None
      /\ thumbnail u = initialThumbnail (id u)
  | processing =>
      In (stage u) stages
      /\ trendSource u <> None /\ sources u <> None /\ metrics u = None
      /\ thumbnail u = initialThumbnail (id u)
  | uploaded =>
      stage u = publishing
      /\ trendSource u <> None /\ sources u <> None /\ metrics u <> None
      /\ thumbnail u = finalThumbnail (id u)
  end.

(** The status a record can have one step after it had status [s]. *)
Definition may_follow (s s' : UploadStatus) : bool :=
  match s, s' with
  | pending, (pending | processing | failed) => true
  | processing, (processing | uploaded) => true
  | uploaded, uploaded => true
  | failed, failed => true
  | _, _ => false
  end.

(** What the three settings controls of [Dashboard] do to the state:
    [setNiche], [setTone] and [setFormat] are passed on as they are. *)
Definition setting (e : Event) (a : AppState) : option AppState :=
  match e with
  | SetNiche v => Some (set_niche v a)
  | SetTone v => Some (set_tone v a)
  | SetFormat v => Some (set_format v a)
  | _ => None
  end.

(** An interval that a render at time [t] has set: due one period later. *)
Definition armed_at (t : Z) (tm : Timer) : Prop :=
  isInterval tm = true /\ exists p, tm_every tm = Some p /\ tm_due tm = t + p.

(** A timer that ends the 1500 ms of a login. *)
Definition isConnect (tm : Timer) : bool :=
  match tm_cb tm with ConnectDelay _ | GoogleDelay => true | _ => false end.

(** *** Further invariants *)

(** A stage delay carries the stages its loop has not reached: a tail of
    [stages]. *)
Definition stage_tails (w : World) : Prop :=
  forall tm newId gd rest, In tm (timers w) -> tm_cb tm = StageDelay newId gd rest ->
    exists done, stages = done ++ rest.

(** Promise handles are handed out once: a handle names one pending
    promise, and is older than the next handle. *)
Definition promises_ok (w : World) : Prop :=
  (forall q1 q2, In q1 (awaiting w) -> In q2 (awaiting w) -> fst q1 = fst q2 -> q1 = q2)
  /\ forall q, In q (awaiting w) -> (fst q < nextPromise w)%nat.

(** While the guard is taken a run is suspended at one of its [await]s. *)
Definition busy_suspended (w : World) : Prop :=
  isProcessing (state w) = true ->
  (exists p, In p (awaiting w) /\ isFetch p = true)
  \/ (exists tm, In tm (timers w) /\ isStage tm = true).

(** The cells of the connection agree: a channel is set exactly while
    connected, and [isConnecting] is true only while a login sleeps. *)
Definition gate_ok (w : World) : Prop :=
  (isConnected (state w) = true <-> channel (state w) <> None)
  /\ (isConnecting (state w) = true ->
      exists tm, In tm (timers w) /\ isConnect tm = true).

(** *** A manual run from start to end *)

(** A manual trigger at [t0]; its fetch (promise [p]) resolves at [t1];
    then the six stage timeouts, which get the ids [n], ..., [5 + n],
    fire one after the other, each 2000 ms after the one before. *)
Definition manual_run (p n : nat) (t0 t1 : Z) (d0 d : Draws) (gd : GrowthData) : list Input :=
  [ {| at_time := t0; draws := d0; event := ManualTrigger |};
    {| at_time := t1; draws := d; event := FetchSettles p (Some gd) |};
    {| at_time := t1 + 2000; draws := d; event := TimerFires n |};
    {| at_time := t1 + 4000; draws := d; event := TimerFires (1 + n) |};
    {| at_time := t1 + 6000; draws := d; event := TimerFires (2 + n) |};
    {| at_time := t1 + 8000; draws := d; event := TimerFires (3 + n) |};
    {| at_time := t1 + 10000; draws := d; event := TimerFires (4 + n) |};
    {| at_time := t1 + 12000; draws := d; event := TimerFires (5 + n) |} ].

(** The record such a run leaves: the initial record with the metadata of
    the fetch, the last stage, the metrics and the second thumbnail. *)
Definition uploadedRecord (newId : string) (c : Closure) (t0 : Z) (gd : GrowthData)
    (d : Draws) : UploadRecord :=
  finalUpdate newId d 0 (stageUpdate gd publishing (initialRecord newId c t0)).

(** The world in which that run, started from [w], sleeps after its
    [k]-th stage, set at time [t]: auto-mode is off and its timeout is the
    only timer. *)
Definition mid_run (w : World) (newId : string) (c : Closure) (t0 : Z) (gd : GrowthData)
    (k : nat) (t : Z) (wk : World) : Prop :=
  sched_ok wk /\ rendered wk = state wk
  /\ autoOn (state wk) = false
  /\ isProcessing (state wk) = true
  /\ now wk = t
  /\ nextTimer wk = S (k + nextTimer w)
  /\ timers wk = [stageTimeout newId gd k t (k + nextTimer w)]
  /\ uploads (state wk) =
     stageUpdate gd (nth k stages publishing) (initialRecord newId c t0)
     :: uploads (state w).

(** *** Further sample runs *)

(** Interval [i] ticking [n] times, 1000 ms apart, the first time at [t]. *)
Fixpoint countdown_ticks (i : nat) (t : Z) (n : nat) : list Input :=
  match n with
  | O => []
  | S n' => input t "t" (TimerFires i) :: countdown_ticks i (t + 1000) n'
  end.



(** [auto_trace] up to the last stage timeout of run [r1] (timer 10, due
    at 14100), which has not fired yet. *)
Definition auto_publishing_trace : list Input := removelast auto_trace.

(** The last stage timeout of run [r1] fires at 14100 and React renders:
    the upload effect starts run [r2].  Before React renders again the
    user clicks the trigger button, which still holds the [performUpload]
    of the render that saw [isProcessing] false. *)
Definition stale_click_trace : list Task :=
  flat_map settled auto_publishing_trace ++
  [Handler (input 14100 "r2" (TimerFires 10)); Render (sampleDraws "r2");
   Handler (input 14100 "z" ManualTrigger);
   Render (sampleDraws "z"); Render (sampleDraws "z")].

(** [stale_click_trace] up to the render before the click. *)
Definition stale_guard_trace : list Task :=
  flat_map settled auto_publishing_trace ++
  [Handler (input 14100 "r2" (TimerFires 10)); Render (sampleDraws "r2")].

(** The same, with the fetch resolving at 3000, so that the last stage
    timeout (timer 10) and a tick of the countdown (timer 3) are both due
    at 15000.  The timeout fires and React renders; then the countdown
    ticks, before React renders again. *)
Definition ticked_trace : list Task :=
  flat_map settled
    (connect_trace ++
     [input 2000 "r1" ToggleAuto;
      input 3000 "t" (TimerFires 3);
      input 3000 "c" (FetchSettles 0 (Some sampleData));
      input 4000 "t" (TimerFires 3); input 5000 "t" (TimerFires 3);
      input 5000 "t" (TimerFires 5);
      input 6000 "t" (TimerFires 3); input 7000 "t" (TimerFires 3);
      input 7000 "t" (TimerFires 6);
      input 8000 "t" (TimerFires 3); input 9000 "t" (TimerFires 3);
      input 9000 "t" (TimerFires 7);
      input 10000 "t" (TimerFires 3); input 11000 "t" (TimerFires 3);
      input 11000 "t" (TimerFires 8);
      input 12000 "t" (TimerFires 3); input 13000 "t" (TimerFires 3);
      input 13000 "t" (TimerFires 9);
      input 14000 "t" (TimerFires 3)]) ++
  [Handler (input 15000 "r2" (TimerFires 10)); Render (sampleDraws "r2");
   Handler (input 15000 "t" (TimerFires 3))].

Definition world_after_tasks (ks : list Task) : World :=
  match run_tasks ks init with
  | Some w => w
  | None => init
  end.



(** Auto-mode on at 2000; the fetch of run [r1] is rejected at 2100. *)
Definition rejected_trace : list Input :=
  auto_on_trace ++ [input 2100 "r2" (FetchSettles 0 None)].

(** What a world shows of its runs: the store, the guard, the countdown. *)
Definition runs_view (w : World) :=
  (store_view w, in_flight (uploads (state w)), isProcessing (state w),
   timeLeft (state w)).

(** * Proofs *)

(** ** Strings and numbers *)

Lemma append_assoc (a b c : string) : ((a ++ b) ++ c = a ++ (b ++ c))%string.
Proof. induction a as [|x a IH]; cbn; [reflexivity|]. rewrite IH. reflexivity. Qed.













(** ** The updater that ends a run *)

Lemma finalUpdatesFrom_length k newId d l :
  List.length (finalUpdatesFrom k newId d l) = List.length l.
Proof.
  revert k. induction l as [|u l IH]; intros k; cbn; [reflexivity|].
  destruct (String.eqb (id u) newId); cbn; rewrite IH; reflexivity.
Qed.

Lemma finalUpdates_length newId d l :
  List.length (finalUpdates newId d l) = List.length l.
Proof. apply finalUpdatesFrom_length. Qed.


Lemma finalUpdatesFrom_map {B} (g : UploadRecord -> B) k newId d l :
  (forall j u, g (finalUpdate newId d j u) = g u) ->
  map g (finalUpdatesFrom k newId d l) = map g l.
Proof.
  intros Hg. revert k. induction l as [|u l IH]; intros k; cbn; [reflexivity|].
  destruct (String.eqb (id u) newId); cbn; rewrite IH, ?Hg; reflexivity.
Qed.

Lemma finalUpdates_ids newId d l : map id (finalUpdates newId d l) = map id l.
Proof. apply finalUpdatesFrom_map. reflexivity. Qed.

Lemma finalUpdatesFrom_none k newId d l :
  ~ In newId (map id l) -> finalUpdatesFrom k newId d l = l.
Proof.
  revert k. induction l as [|u l IH]; intros k Hn; cbn; [reflexivity|].
  destruct (String.eqb (id u) newId) eqn:E.
  - apply String.eqb_eq in E. exfalso. apply Hn. left. exact E.
  - rewrite IH; [reflexivity|]. intros H. apply Hn. right. exact H.
Qed.

Lemma updateById_none newId f l :
  ~ In newId (map id l) -> updateById newId f l = l.
Proof.
  unfold updateById. induction l as [|u l IH]; intros Hn; cbn; [reflexivity|].
  destruct (String.eqb (id u) newId) eqn:E.
  - apply String.eqb_eq in E. exfalso. apply Hn. left. exact E.
  - rewrite IH; [reflexivity|]. intros H. apply Hn. right. exact H.
Qed.

(** With distinct ids the updater rewrites one record, the first it meets. *)
Lemma finalUpdatesFrom_unique k newId d l :
  NoDup (map id l) ->
  finalUpdatesFrom k newId d l = updateById newId (finalUpdate newId d k) l.
Proof.
  induction l as [|u l IH]; intros Hd; cbn; [reflexivity|].
  inversion Hd as [|? ? Hn Hd']; subst.
  destruct (String.eqb (id u) newId) eqn:E.
  - apply String.eqb_eq in E. subst newId.
    rewrite finalUpdatesFrom_none by exact Hn.
    change (map _ l) with (updateById (id u) (finalUpdate (id u) d k) l).
    rewrite updateById_none by exact Hn. reflexivity.
  - f_equal. apply IH. exact Hd'.
Qed.

Lemma finalUpdates_unique newId d l :
  NoDup (map id l) ->
  finalUpdates newId d l = updateById newId (finalUpdate newId d 0) l.
Proof. apply finalUpdatesFrom_unique. Qed.

Lemma setUploads_final newId d w :
  NoDup (map id (uploads (state w))) ->
  setUploads (finalUpdates newId d) w =
  setUploads (updateById newId (finalUpdate newId d 0)) w.
Proof.
  intros Hd. unfold setUploads, update, set_uploads.
  rewrite (finalUpdates_unique _ _ _ Hd). reflexivity.
Qed.


(** ** What each operation does to each part of the world *)

Arguments performUpload : simpl never.
Arguments performUpload_loop : simpl never.
Arguments performUpload_fetched : simpl never.
Arguments uploadEffect : simpl never.
Arguments countdownEffect : simpl never.
Arguments commit : simpl never.
Arguments flush : simpl never.
Arguments clearIfSet : simpl never.
Arguments fire : simpl never.
Arguments handle : simpl never.

Ltac wsimpl :=
  cbn [state rendered timerRef uploadTimerRef now timers nextTimer awaiting nextPromise
       update with_timers schedule setTimeout setInterval clearInterval
       set_timerRef set_uploadTimerRef set_rendered set_now await settle
       setIsAutoActive setUploads setIsProcessing setNiche setTone setFormat
       setTimeLeft setTimeLeftWith setIsConnected setIsConnecting
       setShowLoginModal setChannel snd fst
       isAutoActive uploads isProcessing niche tone format timeLeft isConnected
       isConnecting showLoginModal channel
       set_isAutoActive set_uploads set_isProcessing set_niche set_tone set_format
       set_timeLeft set_isConnected set_isConnecting set_showLoginModal set_channel
       closure_of c_isProcessing c_isConnected c_niche c_tone c_format autoOn] in *.

Lemma clearIfSet_cases r w :
  clearIfSet r w = w \/ exists i, r = Some (S i) /\ clearIfSet r w = clearInterval (S i) w.
Proof.
  unfold clearIfSet. destruct r as [[|i]|]; auto. right. exists i. auto.
Qed.

Lemma state_clearIfSet r w : state (clearIfSet r w) = state w.
Proof. unfold clearIfSet. destruct r as [[|i]|]; reflexivity. Qed.

Lemma rendered_clearIfSet r w : rendered (clearIfSet r w) = rendered w.
Proof. unfold clearIfSet. destruct r as [[|i]|]; reflexivity. Qed.

Lemma now_clearIfSet r w : now (clearIfSet r w) = now w.
Proof. unfold clearIfSet. destruct r as [[|i]|]; reflexivity. Qed.

Lemma awaiting_clearIfSet r w : awaiting (clearIfSet r w) = awaiting w.
Proof. unfold clearIfSet. destruct r as [[|i]|]; reflexivity. Qed.

Lemma nextTimer_clearIfSet r w : nextTimer (clearIfSet r w) = nextTimer w.
Proof. unfold clearIfSet. destruct r as [[|i]|]; reflexivity. Qed.

Lemma nextPromise_clearIfSet r w : nextPromise (clearIfSet r w) = nextPromise w.
Proof. unfold clearIfSet. destruct r as [[|i]|]; reflexivity. Qed.

Lemma timerRef_clearIfSet r w : timerRef (clearIfSet r w) = timerRef w.
Proof. unfold clearIfSet. destruct r as [[|i]|]; reflexivity. Qed.

Lemma uploadTimerRef_clearIfSet r w : uploadTimerRef (clearIfSet r w) = uploadTimerRef w.
Proof. unfold clearIfSet. destruct r as [[|i]|]; reflexivity. Qed.

Lemma timers_clearIfSet r w :
  timers (clearIfSet r w) =
  match r with
  | Some (S i) => filter (fun tm => negb (Nat.eqb (tm_id tm) (S i))) (timers w)
  | _ => timers w
  end.
Proof. unfold clearIfSet. destruct r as [[|i]|]; reflexivity. Qed.

Create Rewrite HintDb world.
#[local] Hint Rewrite state_clearIfSet rendered_clearIfSet now_clearIfSet
  awaiting_clearIfSet nextTimer_clearIfSet nextPromise_clearIfSet
  timerRef_clearIfSet uploadTimerRef_clearIfSet : world.

(** *** [performUpload] *)

Lemma performUpload_dropped c d w :
  c_isProcessing c || negb (c_isConnected c) = true -> performUpload c d w = w.
Proof. intros H. unfold performUpload. rewrite H. reflexivity. Qed.

Lemma performUpload_started c d w :
  c_isProcessing c || negb (c_isConnected c) = false ->
  performUpload c d w =
  await (Fetch (d_id d) (c_niche c) (c_tone c) (c_format c))
    (setUploads (insert (initialRecord (d_id d) c (now w))) (setIsProcessing true w)).
Proof. intros H. unfold performUpload. rewrite H. reflexivity. Qed.

Lemma rendered_performUpload c d w : rendered (performUpload c d w) = rendered w.
Proof. unfold performUpload. destruct (_ || _); reflexivity. Qed.

Lemma now_performUpload c d w : now (performUpload c d w) = now w.
Proof. unfold performUpload. destruct (_ || _); reflexivity. Qed.

Lemma timers_performUpload c d w : timers (performUpload c d w) = timers w.
Proof. unfold performUpload. destruct (_ || _); reflexivity. Qed.

Lemma nextTimer_performUpload c d w : nextTimer (performUpload c d w) = nextTimer w.
Proof. unfold performUpload. destruct (_ || _); reflexivity. Qed.

Lemma timerRef_performUpload c d w : timerRef (performUpload c d w) = timerRef w.
Proof. unfold performUpload. destruct (_ || _); reflexivity. Qed.

Lemma uploadTimerRef_performUpload c d w :
  uploadTimerRef (performUpload c d w) = uploadTimerRef w.
Proof. unfold performUpload. destruct (_ || _); reflexivity. Qed.

Lemma state_performUpload c d w :
  state (performUpload c d w) =
  if c_isProcessing c || negb (c_isConnected c) then state w
  else set_uploads (insert (initialRecord (d_id d) c (now w)))
         (set_isProcessing true (state w)).
Proof. unfold performUpload. destruct (_ || _); reflexivity. Qed.

Lemma awaiting_performUpload c d w :
  awaiting (performUpload c d w) =
  if c_isProcessing c || negb (c_isConnected c) then awaiting w
  else (awaiting w ++ [(nextPromise w, Fetch (d_id d) (c_niche c) (c_tone c) (c_format c))])%list.
Proof. unfold performUpload. destruct (_ || _); reflexivity. Qed.

#[local] Hint Rewrite rendered_performUpload now_performUpload timers_performUpload
  nextTimer_performUpload timerRef_performUpload uploadTimerRef_performUpload : world.

(** *** The effects *)

Lemma state_uploadEffect cur d w :
  state (uploadEffect cur d w) =
  if autoOn cur
  then set_timeLeft (fun _ => 60) (state (performUpload (closure_of cur) d w))
  else state w.
Proof.
  unfold uploadEffect, autoOn. destruct (_ && _).
  - reflexivity.
  - apply state_clearIfSet.
Qed.

Lemma rendered_uploadEffect cur d w : rendered (uploadEffect cur d w) = rendered w.
Proof.
  unfold uploadEffect. destruct (_ && _); wsimpl.
  - apply rendered_performUpload.
  - apply rendered_clearIfSet.
Qed.

Lemma now_uploadEffect cur d w : now (uploadEffect cur d w) = now w.
Proof.
  unfold uploadEffect. destruct (_ && _); wsimpl.
  - apply now_performUpload.
  - apply now_clearIfSet.
Qed.

Lemma awaiting_uploadEffect cur d w :
  awaiting (uploadEffect cur d w) =
  if autoOn cur then awaiting (performUpload (closure_of cur) d w) else awaiting w.
Proof.
  unfold uploadEffect, autoOn. destruct (_ && _); wsimpl.
  - reflexivity.
  - apply awaiting_clearIfSet.
Qed.

Lemma state_countdownEffect cur w :
  state (countdownEffect cur w) =
  if autoOn cur then state w else set_timeLeft (fun _ => 60) (state w).
Proof.
  unfold countdownEffect, autoOn. destruct (_ && _); wsimpl.
  - reflexivity.
  - now rewrite state_clearIfSet.
Qed.

Lemma rendered_countdownEffect cur w : rendered (countdownEffect cur w) = rendered w.
Proof.
  unfold countdownEffect. destruct (_ && _); wsimpl.
  - reflexivity.
  - apply rendered_clearIfSet.
Qed.

Lemma now_countdownEffect cur w : now (countdownEffect cur w) = now w.
Proof.
  unfold countdownEffect. destruct (_ && _); wsimpl.
  - reflexivity.
  - apply now_clearIfSet.
Qed.

Lemma awaiting_countdownEffect cur w : awaiting (countdownEffect cur w) = awaiting w.
Proof.
  unfold countdownEffect. destruct (_ && _); wsimpl.
  - reflexivity.
  - apply awaiting_clearIfSet.
Qed.

#[local] Hint Rewrite rendered_uploadEffect now_uploadEffect rendered_countdownEffect
  now_countdownEffect awaiting_countdownEffect : world.

(** *** Dependencies *)

Lemma closure_eqb_eq c1 c2 : closure_eqb c1 c2 = true <-> c1 = c2.
Proof.
  unfold closure_eqb. destruct c1, c2; cbn.
  rewrite !andb_true_iff, !Bool.eqb_true_iff, !String.eqb_eq.
  split.
  - intros [[[[-> ->] ->] ->] ->]. reflexivity.
  - intros H. injection H as -> -> -> -> ->. auto.
Qed.

Lemma uploadDeps_same prev cur :
  uploadDepsChanged prev cur = false <->
  isAutoActive prev = isAutoActive cur /\ isConnected prev = isConnected cur
  /\ closure_of prev = closure_of cur.
Proof.
  unfold uploadDepsChanged. rewrite negb_false_iff, !andb_true_iff,
    !Bool.eqb_true_iff, closure_eqb_eq. tauto.
Qed.

Lemma countdownDeps_same prev cur :
  countdownDepsChanged prev cur = false <->
  isAutoActive prev = isAutoActive cur /\ isConnected prev = isConnected cur.
Proof.
  unfold countdownDepsChanged. rewrite negb_false_iff, !andb_true_iff,
    !Bool.eqb_true_iff. tauto.
Qed.

Lemma countdownDeps_of_upload prev cur :
  uploadDepsChanged prev cur = false -> countdownDepsChanged prev cur = false.
Proof.
  rewrite uploadDeps_same, countdownDeps_same. tauto.
Qed.

Lemma uploadDeps_refl a : uploadDepsChanged a a = false.
Proof. apply uploadDeps_same. auto. Qed.

Lemma autoOn_same prev cur :
  countdownDepsChanged prev cur = false -> autoOn prev = autoOn cur.
Proof.
  rewrite countdownDeps_same. unfold autoOn. intros [-> ->]. reflexivity.
Qed.

(** *** One render *)

Lemma commit_idle d w :
  uploadDepsChanged (rendered w) (state w) = false ->
  commit d w = set_rendered (state w) w.
Proof.
  intros H. unfold commit, runEffects.
  rewrite H, (countdownDeps_of_upload _ _ H). reflexivity.
Qed.

Lemma rendered_commit d w : rendered (commit d w) = state w.
Proof.
  unfold commit, runEffects, uploadCleanup, countdownCleanup.
  destruct (uploadDepsChanged _ _), (countdownDepsChanged _ _);
    autorewrite with world; reflexivity.
Qed.

Lemma now_commit d w : now (commit d w) = now w.
Proof.
  unfold commit, runEffects, uploadCleanup, countdownCleanup.
  destruct (uploadDepsChanged _ _), (countdownDepsChanged _ _);
    autorewrite with world; reflexivity.
Qed.

(** The state a render's effects leave behind. *)
Lemma state_commit d w :
  state (commit d w) =
  let a := state w in
  if uploadDepsChanged (rendered w) a then
    if autoOn a then
      set_timeLeft (fun _ => 60)
        (if isProcessing a then a
         else set_uploads (insert (initialRecord (d_id d) (closure_of a) (now w)))
                (set_isProcessing true a))
    else if countdownDepsChanged (rendered w) a then set_timeLeft (fun _ => 60) a else a
  else a.
Proof.
  unfold commit, runEffects, uploadCleanup, countdownCleanup. cbv zeta.
  destruct (uploadDepsChanged _ _) eqn:Hu.
  - destruct (countdownDepsChanged _ _) eqn:Hc.
    + rewrite state_countdownEffect, state_uploadEffect, state_performUpload.
      autorewrite with world. wsimpl.
      unfold autoOn. destruct (isAutoActive (state w)); cbn [andb]; [|reflexivity].
      destruct (isConnected (state w)); cbn [andb negb orb]; [|reflexivity].
      rewrite orb_false_r. destruct (isProcessing (state w)); reflexivity.
    + rewrite state_uploadEffect, state_performUpload.
      autorewrite with world. wsimpl.
      unfold autoOn. destruct (isAutoActive (state w)); cbn [andb]; [|reflexivity].
      destruct (isConnected (state w)); cbn [andb negb orb]; [|reflexivity].
      rewrite orb_false_r. destruct (isProcessing (state w)); reflexivity.
  - rewrite (countdownDeps_of_upload _ _ Hu). reflexivity.
Qed.

Lemma state_commit_fires d w :
  fires w = true -> state (commit d w) = started d w.
Proof.
  unfold fires. rewrite !andb_true_iff, negb_true_iff. intros [[Hu Ha] Hp].
  rewrite state_commit. cbv zeta. rewrite Hu, Ha, Hp. reflexivity.
Qed.

Lemma state_commit_quiet d w :
  fires w = false ->
  state (commit d w) = state w \/ state (commit d w) = set_timeLeft (fun _ => 60) (state w).
Proof.
  unfold fires. rewrite state_commit. cbv zeta.
  destruct (uploadDepsChanged _ _); [|auto].
  destruct (autoOn _).
  - destruct (isProcessing _); [auto|discriminate].
  - destruct (countdownDepsChanged _ _); auto.
Qed.

Lemma uploadDeps_timeLeft prev a f :
  uploadDepsChanged prev (set_timeLeft f a) = uploadDepsChanged prev a.
Proof. reflexivity. Qed.

Lemma fires_commit d w : fires (commit d w) = false.
Proof.
  unfold fires. rewrite rendered_commit.
  destruct (fires w) eqn:Hf.
  - rewrite (state_commit_fires d w Hf). unfold started. wsimpl.
    apply andb_false_r.
  - destruct (state_commit_quiet d w Hf) as [-> | ->].
    + rewrite uploadDeps_refl. reflexivity.
    + rewrite uploadDeps_timeLeft, uploadDeps_refl. reflexivity.
Qed.

Lemma uploadDeps_commit d w :
  uploadDepsChanged (state w) (state (commit d w)) = fires w.
Proof.
  destruct (fires w) eqn:Hf.
  - rewrite (state_commit_fires d w Hf). unfold started, uploadDepsChanged.
    wsimpl. unfold closure_eqb. wsimpl.
    unfold fires in Hf. rewrite !andb_true_iff, negb_true_iff in Hf.
    destruct Hf as [_ ->]. cbn. rewrite !andb_false_r. reflexivity.
  - destruct (state_commit_quiet d w Hf) as [-> | ->].
    + apply uploadDeps_refl.
    + rewrite uploadDeps_timeLeft. apply uploadDeps_refl.
Qed.

(** A second render changes no state cell. *)
Lemma state_commit_commit d w : state (commit d (commit d w)) = state (commit d w).
Proof.
  rewrite (state_commit d (commit d w)). cbv zeta.
  rewrite rendered_commit, uploadDeps_commit.
  destruct (fires w) eqn:Hf; [|reflexivity].
  rewrite (state_commit_fires d w Hf). unfold started, autoOn. wsimpl.
  unfold fires in Hf. rewrite !andb_true_iff in Hf. destruct Hf as [[_ Ha] _].
  unfold autoOn in Ha. rewrite Ha. reflexivity.
Qed.

Lemma flush_eq d w : flush d w = commit d (commit d (commit d w)).
Proof. reflexivity. Qed.

Lemma state_flush d w : state (flush d w) = state (commit d w).
Proof. rewrite flush_eq, !state_commit_commit. reflexivity. Qed.

(** After [flush] the screen shows the state: nothing is left to render. *)
Lemma flush_settled d w : rendered (flush d w) = state (flush d w).
Proof.
  rewrite state_flush, flush_eq, rendered_commit, state_commit_commit. reflexivity.
Qed.

Lemma now_flush d w : now (flush d w) = now w.
Proof. rewrite flush_eq, !now_commit. reflexivity. Qed.

Lemma set_rendered_same w : rendered w = state w -> set_rendered (state w) w = w.
Proof. destruct w; cbn. intros ->. reflexivity. Qed.

(** The third render of [flush] does nothing at all. *)
Lemma flush_two d w : flush d w = commit d (commit d w).
Proof.
  rewrite flush_eq. set (w2 := commit d (commit d w)).
  assert (Hr : rendered w2 = state w2).
  { unfold w2. rewrite rendered_commit, state_commit_commit. reflexivity. }
  rewrite commit_idle.
  - apply set_rendered_same, Hr.
  - rewrite Hr. apply uploadDeps_refl.
Qed.

Lemma commit_settled d w :
  rendered w = state w -> commit d w = w.
Proof.
  intros H. rewrite commit_idle.
  - apply set_rendered_same, H.
  - rewrite H. apply uploadDeps_refl.
Qed.

Lemma flush_unchanged d w : rendered w = state w -> flush d w = w.
Proof. intros H. rewrite flush_eq, !(commit_settled d w H). reflexivity. Qed.

(** *** The promises a render adds *)

Lemma awaiting_commit d w :
  awaiting (commit d w) =
  if fires w
  then awaiting w ++ [(nextPromise w,
                       Fetch (d_id d) (niche (state w)) (tone (state w)) (format (state w)))]
  else awaiting w.
Proof.
  unfold commit, runEffects, uploadCleanup, countdownCleanup, fires. cbv zeta.
  destruct (uploadDepsChanged _ _) eqn:Hu; cbn [andb].
  - assert (E : forall w', awaiting (if countdownDepsChanged (rendered w) (state w)
                                      then countdownEffect (state w) w' else w') = awaiting w').
    { intros w'. destruct (countdownDepsChanged _ _); autorewrite with world; reflexivity. }
    rewrite E, awaiting_uploadEffect, awaiting_performUpload.
    assert (E2 : forall w', awaiting (if countdownDepsChanged (rendered w) (state w)
                                      then clearIfSet (timerRef w') w' else w') = awaiting w').
    { intros w'. destruct (countdownDepsChanged _ _); autorewrite with world; reflexivity. }
    assert (E3 : forall w', nextPromise (if countdownDepsChanged (rendered w) (state w)
                                      then clearIfSet (timerRef w') w' else w') = nextPromise w').
    { intros w'. destruct (countdownDepsChanged _ _); autorewrite with world; reflexivity. }
    rewrite E2, E3. autorewrite with world. wsimpl.
    unfold autoOn. destruct (isAutoActive (state w)); cbn [andb]; [|reflexivity].
    destruct (isConnected (state w)); cbn [andb negb orb]; [|reflexivity].
    rewrite orb_false_r. destruct (isProcessing (state w)); reflexivity.
  - rewrite (countdownDeps_of_upload _ _ Hu). reflexivity.
Qed.

Lemma awaiting_flush d w : awaiting (flush d w) = awaiting (commit d w).
Proof.
  rewrite flush_two, (awaiting_commit d (commit d w)), fires_commit. reflexivity.
Qed.

(** ** The timer table *)

Lemma timers_ok_ext w w' :
  timers w' = timers w -> nextTimer w' = nextTimer w ->
  uploadTimerRef w' = uploadTimerRef w -> timerRef w' = timerRef w ->
  timers_ok w -> timers_ok w'.
Proof.
  intros Ht Hn Hu Hc [Knext Kids Kdup Kuref Kcref Kup Kcd].
  constructor; rewrite ?Ht, ?Hn, ?Hu, ?Hc; assumption.
Qed.

Lemma in_clearInterval tm i w :
  In tm (timers (clearInterval i w)) <-> In tm (timers w) /\ tm_id tm <> i.
Proof.
  cbn. rewrite filter_In, negb_true_iff, Nat.eqb_neq. tauto.
Qed.

Lemma in_clearIfSet tm r w :
  In tm (timers (clearIfSet r w)) ->
  In tm (timers w) /\ (forall i, r = Some (S i) -> tm_id tm <> S i).
Proof.
  rewrite timers_clearIfSet. destruct r as [[|i]|].
  - split; [assumption|discriminate].
  - rewrite filter_In, negb_true_iff, Nat.eqb_neq. intros [H1 H2].
    split; [assumption|]. intros j [= <-]. assumption.
  - split; [assumption|discriminate].
Qed.

Lemma in_clearIfSet_keep tm r w :
  In tm (timers w) -> r <> Some (tm_id tm) -> In tm (timers (clearIfSet r w)).
Proof.
  intros Hin Hr. rewrite timers_clearIfSet. destruct r as [[|i]|]; try assumption.
  rewrite filter_In, negb_true_iff, Nat.eqb_neq. split; [assumption|].
  intros E. apply Hr. rewrite E. reflexivity.
Qed.

Lemma timer_ids_filter (keep : Timer -> bool) (tms : list Timer) :
  NoDup (map tm_id tms) -> NoDup (map tm_id (filter keep tms)).
Proof.
  induction tms as [|tm tms IH]; cbn; intros H.
  - constructor.
  - apply NoDup_cons_iff in H. destruct H as [Hn Hd].
    destruct (keep tm); cbn; [constructor|]; auto.
    intros Hin. apply Hn. apply in_map_iff in Hin.
    destruct Hin as [x [Hx Hin]]. apply in_map_iff. exists x. split; [exact Hx|].
    apply filter_In in Hin. apply Hin.
Qed.

Lemma clearIfSet_ok r w : timers_ok w -> timers_ok (clearIfSet r w).
Proof.
  intros [Knext Kids Kdup Kuref Kcref Kup Kcd].
  constructor; autorewrite with world; try assumption.
  - intros tm Hin. apply in_clearIfSet in Hin. apply Kids, Hin.
  - rewrite timers_clearIfSet. destruct r as [[|i]|]; try assumption.
    apply timer_ids_filter. assumption.
  - intros tm Hin. apply in_clearIfSet in Hin. apply Kup, Hin.
  - intros tm Hin. apply in_clearIfSet in Hin. apply Kcd, Hin.
Qed.

Lemma uploadCleanup_none w : timers_ok w -> no_uploadTick (uploadCleanup w).
Proof.
  intros Hok tm Hin. unfold uploadCleanup in Hin.
  apply in_clearIfSet in Hin. destruct Hin as [Hin Hne].
  destruct (isUploadTick tm) eqn:E; [|reflexivity]. exfalso.
  apply (tk_upload _ Hok tm Hin) in E.
  pose proof (tk_ids _ Hok tm Hin) as Hid.
  destruct (tm_id tm) as [|i] eqn:Ei; [lia|].
  apply (Hne i E). reflexivity.
Qed.

Lemma countdownCleanup_none w : timers_ok w -> no_countdownTick (countdownCleanup w).
Proof.
  intros Hok tm Hin. unfold countdownCleanup in Hin.
  apply in_clearIfSet in Hin. destruct Hin as [Hin Hne].
  destruct (isCountdownTick tm) eqn:E; [|reflexivity]. exfalso.
  apply (tk_countdown _ Hok tm Hin) in E.
  pose proof (tk_ids _ Hok tm Hin) as Hid.
  destruct (tm_id tm) as [|i] eqn:Ei; [lia|].
  apply (Hne i E). reflexivity.
Qed.

Lemma clearIfSet_no_uploadTick r w : no_uploadTick w -> no_uploadTick (clearIfSet r w).
Proof. intros H tm Hin. apply in_clearIfSet in Hin. apply H, Hin. Qed.

Lemma clearIfSet_no_countdownTick r w :
  no_countdownTick w -> no_countdownTick (clearIfSet r w).
Proof. intros H tm Hin. apply in_clearIfSet in Hin. apply H, Hin. Qed.

(** A cleanup only removes the interval of its own effect. *)
Lemma uploadCleanup_keeps tm w :
  timers_ok w -> In tm (timers w) -> isUploadTick tm = false ->
  In tm (timers (uploadCleanup w)).
Proof.
  intros Hok Hin Hk. apply in_clearIfSet_keep; [assumption|].
  intros E. apply (tk_upload _ Hok tm Hin) in E. congruence.
Qed.

Lemma countdownCleanup_keeps tm w :
  timers_ok w -> In tm (timers w) -> isCountdownTick tm = false ->
  In tm (timers (countdownCleanup w)).
Proof.
  intros Hok Hin Hk. apply in_clearIfSet_keep; [assumption|].
  intros E. apply (tk_countdown _ Hok tm Hin) in E. congruence.
Qed.

Lemma in_schedule tm cb delay every w :
  In tm (timers (snd (schedule cb delay every w))) <->
  In tm (timers w) \/
  tm = {| tm_id := nextTimer w; tm_due := now w + delay; tm_every := every; tm_cb := cb |}.
Proof.
  cbn. rewrite in_app_iff. cbn. intuition congruence.
Qed.

Lemma NoDup_map_snoc {A B} (f : A -> B) (l : list A) (x : A) :
  NoDup (map f l) -> ~ In (f x) (map f l) -> NoDup (map f (l ++ [x])).
Proof.
  intros Hd Hn. rewrite map_app. cbn.
  apply NoDup_app.
  - assumption.
  - constructor; [intros []|constructor].
  - intros y Hy [<-|[]]. contradiction.
Qed.

Lemma fresh_timer_id w : timers_ok w -> ~ In (nextTimer w) (map tm_id (timers w)).
Proof.
  intros Hok Hin. apply in_map_iff in Hin. destruct Hin as [tm [E Hin]].
  pose proof (tk_ids _ Hok tm Hin). lia.
Qed.

(** [setTimeout] of a callback that is none of the two intervals. *)
Lemma schedule_ok cb delay every w :
  timers_ok w ->
  (match cb with UploadTick _ | CountdownTick => False | _ => True end) ->
  timers_ok (snd (schedule cb delay every w)).
Proof.
  intros Hok Hcb. pose proof (fresh_timer_id w Hok) as Hfr. destruct Hok as [Knext Kids Kdup Kuref Kcref Kup Kcd].
  constructor.
  - cbn. lia.
  - intros tm Hin. apply in_schedule in Hin. cbn [nextTimer schedule snd].
    destruct Hin as [Hin| ->]; [apply Kids in Hin; lia|cbn; lia].
  - cbn [timers schedule snd]. apply NoDup_map_snoc; assumption.
  - cbn. intros r Hr. apply Kuref in Hr. lia.
  - cbn. intros r Hr. apply Kcref in Hr. lia.
  - intros tm Hin. apply in_schedule in Hin. cbn [uploadTimerRef schedule snd].
    destruct Hin as [Hin| ->]; [apply Kup, Hin|].
    unfold isUploadTick. cbn. split.
    + destruct cb; try discriminate. contradiction.
    + intros E. apply Kuref in E. lia.
  - intros tm Hin. apply in_schedule in Hin. cbn [timerRef schedule snd].
    destruct Hin as [Hin| ->]; [apply Kcd, Hin|].
    unfold isCountdownTick. cbn. split.
    + destruct cb; try discriminate. contradiction.
    + intros E. apply Kcref in E. lia.
Qed.

(** Arming the upload interval when none is in the table. *)
Lemma arm_upload_ok c w :
  timers_ok w -> no_uploadTick w ->
  timers_ok (set_uploadTimerRef (Some (nextTimer w))
               (snd (schedule (UploadTick c) 60000 (Some 60000) w))).
Proof.
  intros Hok Hno. pose proof (fresh_timer_id w Hok) as Hfr. destruct Hok as [Knext Kids Kdup Kuref Kcref Kup Kcd].
  constructor.
  - cbn. lia.
  - intros tm Hin. cbn in Hin. apply in_app_iff in Hin. cbn.
    destruct Hin as [Hin|[<-|[]]]; [apply Kids in Hin; lia|cbn; lia].
  - cbn [timers schedule snd set_uploadTimerRef]. apply NoDup_map_snoc; assumption.
  - cbn. intros r [= <-]. lia.
  - cbn. intros r Hr. apply Kcref in Hr. lia.
  - intros tm Hin. cbn in Hin. apply in_app_iff in Hin. cbn [uploadTimerRef set_uploadTimerRef].
    destruct Hin as [Hin|[<-|[]]].
    + rewrite (Hno tm Hin). split; [discriminate|].
      intros [= E]. apply Kids in Hin. lia.
    + cbn. tauto.
  - intros tm Hin. cbn in Hin. apply in_app_iff in Hin. cbn [timerRef set_uploadTimerRef schedule snd].
    destruct Hin as [Hin|[<-|[]]]; [apply Kcd, Hin|].
    unfold isCountdownTick. cbn. split; [discriminate|].
    intros E. apply Kcref in E. lia.
Qed.

Lemma arm_countdown_ok w :
  timers_ok w -> no_countdownTick w ->
  timers_ok (set_timerRef (Some (nextTimer w))
               (snd (schedule CountdownTick 1000 (Some 1000) w))).
Proof.
  intros Hok Hno. pose proof (fresh_timer_id w Hok) as Hfr. destruct Hok as [Knext Kids Kdup Kuref Kcref Kup Kcd].
  constructor.
  - cbn. lia.
  - intros tm Hin. cbn in Hin. apply in_app_iff in Hin. cbn.
    destruct Hin as [Hin|[<-|[]]]; [apply Kids in Hin; lia|cbn; lia].
  - cbn [timers schedule snd set_timerRef]. apply NoDup_map_snoc; assumption.
  - cbn. intros r Hr. apply Kuref in Hr. lia.
  - cbn. intros r [= <-]. lia.
  - intros tm Hin. cbn in Hin. apply in_app_iff in Hin. cbn [uploadTimerRef set_timerRef schedule snd].
    destruct Hin as [Hin|[<-|[]]]; [apply Kup, Hin|].
    unfold isUploadTick. cbn. split; [discriminate|].
    intros E. apply Kuref in E. lia.
  - intros tm Hin. cbn in Hin. apply in_app_iff in Hin. cbn [timerRef set_timerRef].
    destruct Hin as [Hin|[<-|[]]].
    + rewrite (Hno tm Hin). split; [discriminate|].
      intros [= E]. apply Kids in Hin. lia.
    + cbn. tauto.
Qed.

Lemma uploadEffect_on cur d w :
  autoOn cur = true ->
  uploadEffect cur d w =
  set_uploadTimerRef (Some (nextTimer w))
    (snd (schedule (UploadTick (closure_of cur)) 60000 (Some 60000)
            (setTimeLeft 60 (performUpload (closure_of cur) d w)))).
Proof.
  unfold uploadEffect, autoOn. intros ->. cbn [setInterval schedule snd nextTimer setTimeLeft update].
  rewrite nextTimer_performUpload. reflexivity.
Qed.

Lemma uploadEffect_off cur d w :
  autoOn cur = false -> uploadEffect cur d w = clearIfSet (uploadTimerRef w) w.
Proof. unfold uploadEffect, autoOn. intros ->. reflexivity. Qed.

Lemma countdownEffect_on cur w :
  autoOn cur = true ->
  countdownEffect cur w =
  set_timerRef (Some (nextTimer w)) (snd (schedule CountdownTick 1000 (Some 1000) w)).
Proof. unfold countdownEffect, autoOn. intros ->. reflexivity. Qed.

Lemma countdownEffect_off cur w :
  autoOn cur = false ->
  countdownEffect cur w = setTimeLeft 60 (clearIfSet (timerRef w) w).
Proof. unfold countdownEffect, autoOn. intros ->. reflexivity. Qed.

Lemma in_uploadEffect_on tm cur d w :
  autoOn cur = true ->
  (In tm (timers (uploadEffect cur d w)) <-> In tm (timers w) \/ tm = uploadInterval cur w).
Proof.
  intros H. rewrite (uploadEffect_on _ _ _ H). wsimpl.
  rewrite in_app_iff, timers_performUpload, now_performUpload, nextTimer_performUpload.
  unfold uploadInterval. cbn. intuition congruence.
Qed.

Lemma in_countdownEffect_on tm cur w :
  autoOn cur = true ->
  (In tm (timers (countdownEffect cur w)) <-> In tm (timers w) \/ tm = countdownInterval w).
Proof.
  intros H. rewrite (countdownEffect_on _ _ H). cbn [timers set_timerRef schedule snd].
  rewrite in_app_iff. unfold countdownInterval. cbn. intuition congruence.
Qed.

Lemma uploadEffect_ok cur d w :
  timers_ok w -> no_uploadTick w -> timers_ok (uploadEffect cur d w).
Proof.
  intros Hok Hno. destruct (autoOn cur) eqn:Ha.
  - rewrite (uploadEffect_on _ _ _ Ha).
    set (w' := setTimeLeft 60 (performUpload (closure_of cur) d w)).
    assert (Hn : nextTimer w' = nextTimer w) by (unfold w'; cbn; apply nextTimer_performUpload).
    assert (Ht : timers w' = timers w) by (unfold w'; cbn; apply timers_performUpload).
    rewrite <- Hn. apply arm_upload_ok.
    + apply (timers_ok_ext w); auto; unfold w'; cbn; autorewrite with world; reflexivity.
    + unfold no_uploadTick. rewrite Ht. assumption.
  - rewrite (uploadEffect_off _ _ _ Ha). apply clearIfSet_ok, Hok.
Qed.

Lemma countdownEffect_ok cur w :
  timers_ok w -> no_countdownTick w -> timers_ok (countdownEffect cur w).
Proof.
  intros Hok Hno. destruct (autoOn cur) eqn:Ha.
  - rewrite (countdownEffect_on _ _ Ha). apply arm_countdown_ok; assumption.
  - rewrite (countdownEffect_off _ _ Ha).
    apply (timers_ok_ext (clearIfSet (timerRef w) w)); try reflexivity.
    apply clearIfSet_ok, Hok.
Qed.

Lemma set_rendered_ok a w : timers_ok w -> timers_ok (set_rendered a w).
Proof. apply timers_ok_ext; reflexivity. Qed.

Lemma commit_timers_ok d w : timers_ok w -> timers_ok (commit d w).
Proof.
  intros Hok. unfold commit, runEffects. cbv zeta.
  pose proof (set_rendered_ok (state w) w Hok) as H0.
  destruct (uploadDepsChanged _ _) eqn:Hu.
  - pose proof (uploadCleanup_none _ H0) as Hn1.
    pose proof (clearIfSet_ok (uploadTimerRef (set_rendered (state w) w)) _ H0) as H1.
    fold (uploadCleanup (set_rendered (state w) w)) in H1.
    destruct (countdownDepsChanged _ _) eqn:Hc.
    + pose proof (countdownCleanup_none _ H1) as Hn2.
      pose proof (clearIfSet_ok (timerRef (uploadCleanup (set_rendered (state w) w))) _ H1) as H2.
      fold (countdownCleanup (uploadCleanup (set_rendered (state w) w))) in H2.
      apply countdownEffect_ok.
      * apply uploadEffect_ok; [assumption|].
        apply clearIfSet_no_uploadTick. assumption.
      * intros tm Hin.
        destruct (autoOn (state w)) eqn:Ha.
        -- apply (in_uploadEffect_on _ _ _ _ Ha) in Hin. destruct Hin as [Hin| ->].
           ++ apply Hn2, Hin.
           ++ reflexivity.
        -- rewrite (uploadEffect_off _ _ _ Ha) in Hin.
           apply in_clearIfSet in Hin. apply Hn2, Hin.
    + apply uploadEffect_ok; assumption.
  - rewrite (countdownDeps_of_upload _ _ Hu). assumption.
Qed.

Lemma isUploadTick_cb tm : isUploadTick tm = true <-> exists c, tm_cb tm = UploadTick c.
Proof.
  unfold isUploadTick. destruct (tm_cb tm); split; try discriminate; eauto;
    intros [c' [=]].
Qed.

Lemma isCountdownTick_cb tm : isCountdownTick tm = true <-> tm_cb tm = CountdownTick.
Proof.
  unfold isCountdownTick. destruct (tm_cb tm); split; try discriminate; auto.
Qed.

Lemma kinds_exclusive tm : isUploadTick tm = true -> isCountdownTick tm = false.
Proof. unfold isUploadTick, isCountdownTick. destruct (tm_cb tm); auto; discriminate. Qed.

Lemma commit_intervals_ok d w :
  timers_ok w -> intervals_ok w -> intervals_ok (commit d w).
Proof.
  intros Hok Hiv.
  destruct (uploadDepsChanged (rendered w) (state w)) eqn:Hu.
  2:{ rewrite (commit_idle d w Hu).
      apply uploadDeps_same in Hu. destruct Hu as (Ea & Ec & Ecl).
      assert (Eon : autoOn (rendered w) = autoOn (state w))
        by (unfold autoOn; rewrite Ea, Ec; reflexivity).
      destruct Hiv as [Vup Vcd Von Varm]. constructor; cbn [timers rendered set_rendered];
        rewrite <- ?Ecl, <- ?Eon; assumption. }
  assert (Hr : rendered (commit d w) = state w) by apply rendered_commit.
  unfold commit, runEffects in *. cbv zeta in *. rewrite Hu in *.
  pose proof (set_rendered_ok (state w) w Hok) as H0.
  set (w0 := set_rendered (state w) w) in *.
  pose proof (uploadCleanup_none _ H0) as Hn1.
  assert (H1 : timers_ok (uploadCleanup w0)) by (apply clearIfSet_ok, H0).
  set (w1 := uploadCleanup w0) in *.
  set (cd := countdownDepsChanged (rendered w) (state w)) in *.
  set (w2 := if cd then countdownCleanup w1 else w1) in *.
  assert (F1 : no_uploadTick w2).
  { unfold w2. destruct cd; [apply clearIfSet_no_uploadTick|]; assumption. }
  assert (F2 : cd = true -> no_countdownTick w2).
  { unfold w2. intros ->. apply countdownCleanup_none, H1. }
  assert (F3 : forall tm, In tm (timers w2) -> In tm (timers w)).
  { unfold w2. intros tm Hin.
    assert (In tm (timers w1)) as Hin1.
    { destruct cd; [apply in_clearIfSet in Hin; apply Hin|assumption]. }
    apply in_clearIfSet in Hin1. apply Hin1. }
  assert (F4 : cd = false -> forall tm, In tm (timers w) -> isUploadTick tm = false ->
               In tm (timers w2)).
  { unfold w2. intros -> tm Hin Hk. apply uploadCleanup_keeps; assumption. }
  assert (H2 : timers_ok w2).
  { unfold w2. destruct cd; [apply clearIfSet_ok|]; assumption. }
  set (w3 := uploadEffect (state w) d w2) in *.
  destruct (autoOn (state w)) eqn:Ha.
  - assert (M : forall tm, In tm (timers (if cd then countdownEffect (state w) w3 else w3)) ->
                 In tm (timers w2) \/ tm = uploadInterval (state w) w2
                 \/ (cd = true /\ tm = countdownInterval w3)).
    { intros tm Hin. destruct cd.
      - apply (in_countdownEffect_on _ _ _ Ha) in Hin. destruct Hin as [Hin|Hin]; [|auto].
        apply (in_uploadEffect_on _ _ _ _ Ha) in Hin. tauto.
      - apply (in_uploadEffect_on _ _ _ _ Ha) in Hin. tauto. }
    assert (Mu : In (uploadInterval (state w) w2)
                   (timers (if cd then countdownEffect (state w) w3 else w3))).
    { destruct cd.
      - apply (in_countdownEffect_on _ _ _ Ha). left.
        apply (in_uploadEffect_on _ _ _ _ Ha). auto.
      - apply (in_uploadEffect_on _ _ _ _ Ha). auto. }
    constructor; rewrite ?Hr.
    + intros tm c Hin Hc. apply M in Hin. destruct Hin as [Hin|[->|[_ ->]]].
      * apply F1 in Hin. unfold isUploadTick in Hin. rewrite Hc in Hin. discriminate.
      * cbn in Hc. injection Hc as <-. auto.
      * discriminate.
    + intros tm Hin Hc. apply M in Hin. destruct Hin as [Hin|[->|[_ ->]]].
      * apply F3 in Hin. apply (iv_countdown _ Hiv tm Hin Hc).
      * discriminate.
      * reflexivity.
    + intros. assumption.
    + intros _. split.
      * exists (uploadInterval (state w) w2). split; [assumption|reflexivity].
      * destruct cd eqn:Hcd.
        -- exists (countdownInterval w3). split; [|reflexivity].
           apply (in_countdownEffect_on _ _ _ Ha). auto.
        -- assert (Eon : autoOn (rendered w) = true).
           { rewrite (autoOn_same _ _ Hcd). assumption. }
           destruct (iv_armed _ Hiv Eon) as [_ [tm [Hin Hk]]].
           exists tm. split; [|assumption].
           apply (in_uploadEffect_on _ _ _ _ Ha). left. apply F4; auto.
           destruct (isUploadTick tm) eqn:E; [|reflexivity].
           apply kinds_exclusive in E. congruence.
  - assert (M : forall tm, In tm (timers (if cd then countdownEffect (state w) w3 else w3)) ->
                 In tm (timers w2)).
    { intros tm Hin.
      assert (In tm (timers w3)) as Hin3.
      { destruct cd; [|assumption].
        rewrite (countdownEffect_off _ _ Ha) in Hin. cbn in Hin.
        apply in_clearIfSet in Hin. apply Hin. }
      unfold w3 in Hin3. rewrite (uploadEffect_off _ _ _ Ha) in Hin3.
      apply in_clearIfSet in Hin3. apply Hin3. }
    constructor; rewrite ?Hr.
    + intros tm c Hin Hc. apply M, F1 in Hin.
      unfold isUploadTick in Hin. rewrite Hc in Hin. discriminate.
    + intros tm Hin Hc. apply M, F3 in Hin. apply (iv_countdown _ Hiv tm Hin Hc).
    + intros tm Hin Hk. apply M in Hin. exfalso.
      apply orb_true_iff in Hk. destruct Hk as [Hk|Hk].
      * rewrite (F1 tm Hin) in Hk. discriminate.
      * destruct cd eqn:Hcd.
        -- rewrite (F2 eq_refl tm Hin) in Hk. discriminate.
        -- apply F3 in Hin.
           assert (Eon : autoOn (rendered w) = true).
           { apply (iv_on _ Hiv tm Hin). rewrite Hk. apply orb_true_r. }
           rewrite (autoOn_same _ _ Hcd) in Eon. congruence.
    + rewrite Ha. discriminate.
Qed.

Lemma commit_sched_ok d w : sched_ok w -> sched_ok (commit d w).
Proof.
  intros [H1 H2]. split.
  - apply commit_timers_ok, H1.
  - apply commit_intervals_ok; assumption.
Qed.

Lemma flush_sched_ok d w : sched_ok w -> sched_ok (flush d w).
Proof.
  intros H. rewrite flush_eq. do 3 apply commit_sched_ok. assumption.
Qed.

(** ** Handlers keep the timer table in order *)

Lemma sched_ok_frame w w' :
  sched_ok w ->
  rendered w' = rendered w -> timers w' = timers w -> nextTimer w' = nextTimer w ->
  uploadTimerRef w' = uploadTimerRef w -> timerRef w' = timerRef w ->
  sched_ok w'.
Proof.
  intros [Hok Hiv] Hr Ht Hn Hu Hc. split.
  - apply (timers_ok_ext w); assumption.
  - destruct Hiv as [Vup Vcd Von Varm]. constructor; rewrite ?Hr, ?Ht; assumption.
Qed.

Ltac frame w :=
  apply (sched_ok_frame w); [assumption | try reflexivity ..].

Lemma update_sched_ok f w : sched_ok w -> sched_ok (update f w).
Proof. intros H. frame w. Qed.

Lemma set_now_sched_ok t w : sched_ok w -> sched_ok (set_now t w).
Proof. intros H. frame w. Qed.

Lemma await_sched_ok p w : sched_ok w -> sched_ok (await p w).
Proof. intros H. frame w. Qed.

Lemma settle_sched_ok p w : sched_ok w -> sched_ok (settle p w).
Proof. intros H. frame w. Qed.

Lemma performUpload_sched_ok c d w : sched_ok w -> sched_ok (performUpload c d w).
Proof. intros H. frame w; autorewrite with world; reflexivity. Qed.


Lemma setTimeout_sched_ok cb delay w :
  sched_ok w -> plain cb -> sched_ok (setTimeout cb delay w).
Proof.
  intros [Hok Hiv] Hcb. split.
  - apply schedule_ok; assumption.
  - unfold setTimeout. destruct Hiv as [Vup Vcd Von Varm]. constructor.
    + intros tm c Hin Hc. apply in_schedule in Hin. destruct Hin as [Hin| ->].
      * apply Vup; assumption.
      * cbn in Hc. subst cb. contradiction.
    + intros tm Hin Hc. apply in_schedule in Hin. destruct Hin as [Hin| ->].
      * apply Vcd; assumption.
      * cbn in Hc. subst cb. contradiction.
    + intros tm Hin Hk. apply in_schedule in Hin. destruct Hin as [Hin| ->].
      * apply (Von tm); assumption.
      * unfold isUploadTick, isCountdownTick in Hk. cbn in Hk.
        destruct cb; try discriminate; contradiction.
    + intros Hon. destruct (Varm Hon) as [[t1 [H1 K1]] [t2 [H2 K2]]].
      split; [exists t1|exists t2]; (split; [apply in_schedule; auto|assumption]).
Qed.


Lemma rearm_interval tm p w :
  tm_every tm = Some p ->
  timers (rearm tm w) =
  map (fun x => if Nat.eqb (tm_id x) (tm_id tm) then later p x else x) (timers w).
Proof. unfold rearm. intros ->. reflexivity. Qed.

Lemma rearm_timeout tm w :
  tm_every tm = None -> rearm tm w = clearInterval (tm_id tm) w.
Proof. unfold rearm. intros ->. reflexivity. Qed.

Lemma rendered_rearm tm w : rendered (rearm tm w) = rendered w.
Proof. unfold rearm. destruct (tm_every tm); reflexivity. Qed.

Lemma state_rearm tm w : state (rearm tm w) = state w.
Proof. unfold rearm. destruct (tm_every tm); reflexivity. Qed.

Lemma now_rearm tm w : now (rearm tm w) = now w.
Proof. unfold rearm. destruct (tm_every tm); reflexivity. Qed.

Lemma awaiting_rearm tm w : awaiting (rearm tm w) = awaiting w.
Proof. unfold rearm. destruct (tm_every tm); reflexivity. Qed.

Lemma nextTimer_rearm tm w : nextTimer (rearm tm w) = nextTimer w.
Proof. unfold rearm. destruct (tm_every tm); reflexivity. Qed.

Lemma nextPromise_rearm tm w : nextPromise (rearm tm w) = nextPromise w.
Proof. unfold rearm. destruct (tm_every tm); reflexivity. Qed.

Lemma uploadTimerRef_rearm tm w : uploadTimerRef (rearm tm w) = uploadTimerRef w.
Proof. unfold rearm. destruct (tm_every tm); reflexivity. Qed.

Lemma timerRef_rearm tm w : timerRef (rearm tm w) = timerRef w.
Proof. unfold rearm. destruct (tm_every tm); reflexivity. Qed.

#[local] Hint Rewrite rendered_rearm state_rearm now_rearm awaiting_rearm nextTimer_rearm
  nextPromise_rearm uploadTimerRef_rearm timerRef_rearm : world.

(** Every timer of the re-armed table comes from one of the old table
    with the same id, period and callback. *)
Lemma in_rearm x tm w :
  In x (timers (rearm tm w)) ->
  exists y, In y (timers w) /\ tm_id x = tm_id y /\ tm_every x = tm_every y
            /\ tm_cb x = tm_cb y.
Proof.
  unfold rearm. destruct (tm_every tm) as [p|].
  - cbn. rewrite in_map_iff. intros [y [E Hin]]. exists y. split; [assumption|].
    destruct (Nat.eqb _ _); subst x; auto.
  - intros Hin. apply in_clearInterval in Hin. exists x. tauto.
Qed.

(** A timer with another id than the one fired stays as it is. *)
Lemma in_rearm_other x tm w :
  In x (timers w) -> tm_id x <> tm_id tm -> In x (timers (rearm tm w)).
Proof.
  intros Hin Hne. unfold rearm. destruct (tm_every tm) as [p|].
  - cbn. apply in_map_iff. exists x. split; [|assumption].
    apply Nat.eqb_neq in Hne. rewrite Hne. reflexivity.
  - apply in_clearInterval. auto.
Qed.

(** An interval that fires stays in the table. *)
Lemma in_rearm_interval tm p w :
  In tm (timers w) -> tm_every tm = Some p -> In (later p tm) (timers (rearm tm w)).
Proof.
  intros Hin Hp. rewrite (rearm_interval _ _ _ Hp). apply in_map_iff.
  exists tm. rewrite Nat.eqb_refl. auto.
Qed.

Lemma map_id_rearm tm p w :
  tm_every tm = Some p -> map tm_id (timers (rearm tm w)) = map tm_id (timers w).
Proof.
  intros Hp. rewrite (rearm_interval _ _ _ Hp), map_map.
  apply map_ext. intros x. destruct (Nat.eqb _ _); reflexivity.
Qed.

Lemma same_id_same_timer w x y :
  NoDup (map tm_id (timers w)) -> In x (timers w) -> In y (timers w) ->
  tm_id x = tm_id y -> x = y.
Proof.
  generalize (timers w) as l. induction l as [|z l IH]; cbn; intros Hd Hx Hy E.
  - contradiction.
  - inversion Hd as [|? ? Hn Hd']; subst.
    destruct Hx as [->|Hx], Hy as [->|Hy]; auto.
    + exfalso. apply Hn. rewrite E. apply in_map. assumption.
    + exfalso. apply Hn. rewrite <- E. apply in_map. assumption.
Qed.

Lemma rearm_sched_ok tm w :
  sched_ok w -> In tm (timers w) -> sched_ok (rearm tm w).
Proof.
  intros [Hok Hiv] Hin. split.
  - destruct (tm_every tm) as [p|] eqn:Hp.
    + destruct Hok as [Knext Kids Kdup Kuref Kcref Kup Kcd]. constructor; autorewrite with world; try assumption.
      * intros x Hx. apply in_rearm in Hx. destruct Hx as [y [Hy [-> _]]]. auto.
      * rewrite (map_id_rearm _ _ _ Hp). assumption.
      * intros x Hx. apply in_rearm in Hx. destruct Hx as [y [Hy [Ei [_ Ec]]]].
        unfold isUploadTick. rewrite Ei, Ec. apply (Kup y Hy).
      * intros x Hx. apply in_rearm in Hx. destruct Hx as [y [Hy [Ei [_ Ec]]]].
        unfold isCountdownTick. rewrite Ei, Ec. apply (Kcd y Hy).
    + rewrite (rearm_timeout _ _ Hp).
      apply (clearIfSet_ok (Some (tm_id tm))) in Hok as Hok'.
      pose proof (tk_ids _ Hok tm Hin) as Hid.
      destruct (tm_id tm) as [|j]; [lia|]. exact Hok'.
  - destruct Hiv as [Vup Vcd Von Varm]. constructor; autorewrite with world.
    + intros x c Hx Hc. apply in_rearm in Hx. destruct Hx as [y [Hy [_ [-> Ec]]]].
      rewrite Ec in Hc. apply (Vup y c Hy Hc).
    + intros x Hx Hc. apply in_rearm in Hx. destruct Hx as [y [Hy [_ [-> Ec]]]].
      rewrite Ec in Hc. apply (Vcd y Hy Hc).
    + intros x Hx Hk. apply in_rearm in Hx. destruct Hx as [y [Hy [_ [_ Ec]]]].
      apply (Von y Hy). unfold isUploadTick, isCountdownTick in *.
      rewrite <- Ec. assumption.
    + intros Hon. destruct (Varm Hon) as [[t1 [H1 K1]] [t2 [H2 K2]]].
      assert (K : forall x, In x (timers w) -> isUploadTick x || isCountdownTick x = true ->
                  exists x', In x' (timers (rearm tm w)) /\ tm_cb x' = tm_cb x).
      { intros x Hx Hk.
        destruct (Nat.eq_dec (tm_id x) (tm_id tm)) as [E|E].
        - assert (x = tm) as -> by (apply (same_id_same_timer w); auto; apply Hok).
          assert (exists p, tm_every tm = Some p) as [p Hp].
          { apply orb_true_iff in Hk. destruct Hk as [Hk|Hk].
            - apply isUploadTick_cb in Hk. destruct Hk as [c Hc].
              destruct (Vup tm c Hin Hc). eauto.
            - apply isCountdownTick_cb in Hk. eauto. }
          exists (later p tm). split; [apply in_rearm_interval; assumption|reflexivity].
        - exists x. split; [apply in_rearm_other; assumption|reflexivity]. }
      split.
      * destruct (K t1 H1) as [x' [Hx' Ec]]; [rewrite K1; reflexivity|].
        exists x'. split; [assumption|]. unfold isUploadTick in *. rewrite Ec. assumption.
      * destruct (K t2 H2) as [x' [Hx' Ec]]; [rewrite K2; apply orb_true_r|].
        exists x'. split; [assumption|]. unfold isCountdownTick in *. rewrite Ec. assumption.
Qed.

Lemma performUpload_loop_sched_ok newId gd rest d w :
  sched_ok w -> sched_ok (performUpload_loop newId gd rest d w).
Proof.
  intros H. unfold performUpload_loop. destruct rest as [|st rest].
  - frame w.
  - apply setTimeout_sched_ok; [|exact I]. apply update_sched_ok, H.
Qed.

Lemma performUpload_fetched_sched_ok newId r d w :
  sched_ok w -> sched_ok (performUpload_fetched newId r d w).
Proof.
  intros H. unfold performUpload_fetched. destruct r as [gd|].
  - apply performUpload_loop_sched_ok, H.
  - frame w.
Qed.

Lemma handleConnect_sched_ok email w : sched_ok w -> sched_ok (handleConnect email w).
Proof.
  intros H. unfold handleConnect. apply setTimeout_sched_ok; [|exact I].
  apply update_sched_ok, H.
Qed.

Lemma find_timer_in i w tm : find_timer i w = Some tm -> In tm (timers w) /\ tm_id tm = i.
Proof.
  unfold find_timer. intros H. apply find_some in H.
  rewrite Nat.eqb_eq in H. assumption.
Qed.

Lemma fire_sched_ok tm d w :
  sched_ok w -> In tm (timers w) -> sched_ok (fire tm d w).
Proof.
  intros H Hin. unfold fire. apply (rearm_sched_ok tm) in H; [|assumption].
  destruct (tm_cb tm).
  - apply update_sched_ok, performUpload_sched_ok, H.
  - apply update_sched_ok, H.
  - apply performUpload_loop_sched_ok, H.
  - frame (rearm tm w).
  - frame (rearm tm w).
Qed.

Lemma handle_sched_ok e d w w' :
  sched_ok w -> handle e d w = Some w' -> sched_ok w'.
Proof.
  intros H. unfold handle. destruct e; try (intros [= <-]).
  - apply update_sched_ok, H.
  - apply update_sched_ok, H.
  - apply handleConnect_sched_ok, H.
  - unfold handleGoogleLogin. destruct aistudio.
    + apply await_sched_ok, H.
    + apply handleConnect_sched_ok, H.
  - frame w.
  - apply update_sched_ok, H.
  - apply update_sched_ok, H.
  - apply update_sched_ok, H.
  - apply update_sched_ok, H.
  - apply performUpload_sched_ok, H.
  - destruct (find_timer i w) as [tm|] eqn:Hf; [|discriminate].
    destruct (_ =? _)%Z; [|discriminate]. intros [= <-].
    apply fire_sched_ok; [assumption|]. apply find_timer_in in Hf. apply Hf.
  - destruct (find_awaited p w) as [[newId n t f|]|]; try discriminate.
    intros [= <-]. apply performUpload_fetched_sched_ok, settle_sched_ok, H.
  - destruct (find_awaited p w) as [[newId n t f|]|]; try discriminate.
    intros [= <-]. unfold handleGoogleLogin_selected. destruct ok.
    + apply setTimeout_sched_ok; [|exact I]. apply update_sched_ok, settle_sched_ok, H.
    + apply update_sched_ok, settle_sched_ok, H.
Qed.

Lemma rendered_handle e d w w' : handle e d w = Some w' -> rendered w' = rendered w.
Proof.
  unfold handle. destruct e; try (intros [= <-]; try reflexivity).
  - unfold handleGoogleLogin. destruct aistudio; reflexivity.
  - apply rendered_performUpload.
  - destruct (find_timer i w) as [tm|] eqn:Hf; [|discriminate].
    destruct (_ =? _)%Z; [|discriminate]. intros [= <-].
    unfold fire, performUpload_loop, handleConnect_resumed, handleGoogleLogin_resumed,
      setupMockChannel.
    destruct (tm_cb tm) as [c| |newId gd [|st rest]|email|]; wsimpl;
      autorewrite with world; reflexivity.
  - destruct (find_awaited p w) as [[newId n t f|]|]; try discriminate.
    intros [= <-]. unfold performUpload_fetched, performUpload_loop, stages.
    destruct result; reflexivity.
  - destruct (find_awaited p w) as [[newId n t f|]|]; try discriminate.
    intros [= <-]. unfold handleGoogleLogin_selected. destruct ok; reflexivity.
Qed.

Lemma step_inv i w w' :
  step i w = Some w' ->
  on_time (at_time i) w = true /\
  exists w1, handle (event i) (draws i) (set_now (at_time i) w) = Some w1
             /\ w' = flush (draws i) w1.
Proof.
  unfold step. destruct (on_time _ _); [|discriminate].
  destruct (handle _ _ _) as [w1|]; [|discriminate].
  intros [= <-]. eauto.
Qed.

Lemma step_sched_ok i w w' : sched_ok w -> step i w = Some w' -> sched_ok w'.
Proof.
  intros H Hs. apply step_inv in Hs. destruct Hs as [_ [w1 [Hh ->]]].
  apply flush_sched_ok. apply (handle_sched_ok _ _ _ _ (set_now_sched_ok _ _ H) Hh).
Qed.

Lemma step_settled i w w' : step i w = Some w' -> rendered w' = state w'.
Proof.
  intros Hs. apply step_inv in Hs. destruct Hs as [_ [w1 [_ ->]]]. apply flush_settled.
Qed.

Lemma init_eq :
  init = {| state := initialState; rendered := initialState;
            timerRef := None; uploadTimerRef := None;
            now := 0; timers := []; nextTimer := 1;
            awaiting := []; nextPromise := 0 |}.
Proof. reflexivity. Qed.

Lemma init_sched_ok : sched_ok init.
Proof.
  rewrite init_eq. split; constructor; cbn; try (intros; contradiction); try discriminate.
  - lia.
  - constructor.
Qed.

Lemma reachable_sched_ok w : reachable w -> sched_ok w.
Proof.
  induction 1 as [|i w w' _ IH Hs].
  - apply init_sched_ok.
  - apply (step_sched_ok i w); assumption.
Qed.

Lemma reachable_settled w : reachable w -> rendered w = state w.
Proof.
  destruct 1 as [|i w w' _ Hs].
  - reflexivity.
  - apply (step_settled i w), Hs.
Qed.

(** ** Auto-mode keeps a run in flight *)

Lemma flush_busy_when_on d w0 w :
  busy_when_on w0 -> rendered w = state w0 -> busy_when_on (flush d w).
Proof.
  unfold busy_when_on. intros H0 Hr. rewrite state_flush, state_commit. cbv zeta.
  rewrite Hr.
  destruct (uploadDepsChanged (state w0) (state w)) eqn:Hu.
  - destruct (autoOn (state w)) eqn:Ha.
    + intros _. destruct (isProcessing (state w)) eqn:Hp; wsimpl; auto.
    + destruct (countdownDepsChanged _ _); intros Hon; exfalso; revert Hon;
        unfold autoOn in *; cbn; rewrite Ha; discriminate.
  - apply uploadDeps_same in Hu. destruct Hu as (Ea & Ec & Ecl).
    unfold autoOn in *. rewrite <- Ea, <- Ec. intros Hon.
    apply (f_equal c_isProcessing) in Ecl. cbn in Ecl. rewrite <- Ecl. auto.
Qed.

Lemma reachable_busy_when_on w : reachable w -> busy_when_on w.
Proof.
  induction 1 as [|i w w' Hw IH Hs].
  - rewrite init_eq. unfold busy_when_on. cbn. discriminate.
  - apply step_inv in Hs. destruct Hs as [_ [w1 [Hh ->]]].
    apply (flush_busy_when_on _ w _ IH).
    rewrite (rendered_handle _ _ _ _ Hh). cbn. apply reachable_settled, Hw.
Qed.

(** ** The countdown *)

Lemma commit_countdown_ok d w : countdown_ok w -> countdown_ok (commit d w).
Proof.
  unfold countdown_ok, period. intros [Hb Hoff].
  rewrite rendered_commit, state_commit. cbv zeta.
  destruct (uploadDepsChanged _ _) eqn:Hu.
  - destruct (autoOn (state w)) eqn:Ha.
    + destruct (isProcessing (state w)); wsimpl; split; try lia; reflexivity.
    + destruct (countdownDepsChanged _ _) eqn:Hc; wsimpl.
      * split; [lia|reflexivity].
      * split; [assumption|]. intros _. apply Hoff.
        rewrite (autoOn_same _ _ Hc). assumption.
  - split; [assumption|]. intros Ha. apply Hoff.
    rewrite (autoOn_same _ _ (countdownDeps_of_upload _ _ Hu)). assumption.
Qed.

Lemma flush_countdown_ok d w : countdown_ok w -> countdown_ok (flush d w).
Proof. intros H. rewrite flush_eq. do 3 apply commit_countdown_ok. assumption. Qed.

(** What a handler does to the countdown. *)
Lemma timeLeft_handle e d w w' :
  handle e d w = Some w' ->
  timeLeft (state w') = timeLeft (state w)
  \/ timeLeft (state w') = 60
  \/ (exists tm, In tm (timers w) /\ tm_cb tm = CountdownTick
                 /\ timeLeft (state w') = tick (timeLeft (state w))).
Proof.
  unfold handle. destruct e; try (intros [= <-]; auto).
  - unfold handleGoogleLogin. destruct aistudio; auto.
  - rewrite state_performUpload. destruct (_ || _); auto.
  - destruct (find_timer i w) as [tm|] eqn:Hf; [|discriminate].
    destruct (_ =? _)%Z; [|discriminate]. intros [= <-].
    apply find_timer_in in Hf. destruct Hf as [Hin _].
    unfold fire, performUpload_loop, handleConnect_resumed, handleGoogleLogin_resumed,
      setupMockChannel.
    destruct (tm_cb tm) as [c| |newId gd [|st rest]|email|] eqn:Hcb; wsimpl;
      autorewrite with world; auto.
    right. right. exists tm. auto.
  - destruct (find_awaited p w) as [[newId n t f|]|]; try discriminate.
    intros [= <-]. unfold performUpload_fetched, performUpload_loop, stages.
    destruct result; auto.
  - destruct (find_awaited p w) as [[newId n t f|]|]; try discriminate.
    intros [= <-]. unfold handleGoogleLogin_selected. destruct ok; auto.
Qed.

Lemma tick_bounds prev : 1 <= prev <= 60 -> 1 <= tick prev <= 60.
Proof. unfold tick. destruct (1 <? prev)%Z eqn:E; [apply Z.ltb_lt in E|]; lia. Qed.

Lemma handle_countdown_ok e d w w' :
  intervals_ok w -> countdown_ok w -> handle e d w = Some w' -> countdown_ok w'.
Proof.
  unfold countdown_ok, period. intros Hiv [Hb Hoff] Hh.
  rewrite (rendered_handle _ _ _ _ Hh).
  destruct (timeLeft_handle _ _ _ _ Hh) as [-> | [-> | [tm [Hin [Hcb ->]]]]].
  - auto.
  - split; [lia|reflexivity].
  - split; [apply tick_bounds, Hb|]. intros Hoff'. exfalso.
    assert (autoOn (rendered w) = true); [|congruence].
    apply (iv_on _ Hiv tm Hin). apply isCountdownTick_cb in Hcb. rewrite Hcb.
    apply orb_true_r.
Qed.

Lemma reachable_countdown_ok w : reachable w -> countdown_ok w.
Proof.
  induction 1 as [|i w w' Hw IH Hs].
  - rewrite init_eq. unfold countdown_ok, period. cbn. split; [lia|reflexivity].
  - apply step_inv in Hs. destruct Hs as [_ [w1 [Hh ->]]].
    apply flush_countdown_ok.
    refine (handle_countdown_ok _ _ (set_now (at_time i) w) _ _ _ Hh).
    + apply set_now_sched_ok, reachable_sched_ok, Hw.
    + exact IH.
Qed.

(** ** Timeouts are left alone by rendering *)

Lemma find_timer_iff i w tm :
  timers_ok w -> (find_timer i w = Some tm <-> In tm (timers w) /\ tm_id tm = i).
Proof.
  intros Hok. split; [apply find_timer_in|].
  intros [Hin <-]. unfold find_timer.
  destruct (find _ _) as [tm'|] eqn:Hf.
  - apply find_some in Hf. rewrite Nat.eqb_eq in Hf. destruct Hf as [Hin' E].
    f_equal. apply (same_id_same_timer w); auto. apply Hok.
  - apply (find_none _ _ Hf) in Hin. rewrite Nat.eqb_refl in Hin. discriminate.
Qed.

Lemma uploadEffect_keeps tm cur d w :
  timers_ok w -> In tm (timers w) -> isUploadTick tm = false ->
  In tm (timers (uploadEffect cur d w)).
Proof.
  intros Hok Hin Hk. destruct (autoOn cur) eqn:Ha.
  - apply (in_uploadEffect_on _ _ _ _ Ha). auto.
  - rewrite (uploadEffect_off _ _ _ Ha). apply uploadCleanup_keeps; assumption.
Qed.

Lemma countdownEffect_keeps tm cur w :
  timers_ok w -> In tm (timers w) -> isCountdownTick tm = false ->
  In tm (timers (countdownEffect cur w)).
Proof.
  intros Hok Hin Hk. destruct (autoOn cur) eqn:Ha.
  - apply (in_countdownEffect_on _ _ _ Ha). auto.
  - rewrite (countdownEffect_off _ _ Ha). cbn. apply countdownCleanup_keeps; assumption.
Qed.

Lemma uploadCleanup_ok w : timers_ok w -> timers_ok (uploadCleanup w).
Proof. apply clearIfSet_ok. Qed.

Lemma countdownCleanup_ok w : timers_ok w -> timers_ok (countdownCleanup w).
Proof. apply clearIfSet_ok. Qed.

Lemma commit_keeps tm d w :
  timers_ok w -> In tm (timers w) -> isInterval tm = false ->
  In tm (timers (commit d w)).
Proof.
  unfold isInterval. intros Hok Hin Hk. apply orb_false_iff in Hk. destruct Hk as [Hu Hc].
  unfold commit, runEffects. cbv zeta.
  pose proof (set_rendered_ok (state w) w Hok) as H0.
  set (w0 := set_rendered (state w) w) in *.
  assert (Hin0 : In tm (timers w0)) by exact Hin.
  destruct (uploadDepsChanged _ _) eqn:Eu.
  - pose proof (uploadCleanup_ok _ H0) as H1.
    pose proof (uploadCleanup_none _ H0) as N1.
    pose proof (uploadCleanup_keeps tm _ H0 Hin0 Hu) as Hin1.
    destruct (countdownDepsChanged _ _) eqn:Ec.
    + pose proof (countdownCleanup_ok _ H1) as H2.
      pose proof (countdownCleanup_keeps tm _ H1 Hin1 Hc) as Hin2.
      apply countdownEffect_keeps; [| |assumption].
      * apply uploadEffect_ok; [assumption|].
        apply clearIfSet_no_uploadTick. assumption.
      * apply uploadEffect_keeps; assumption.
    + apply uploadEffect_keeps; assumption.
  - rewrite (countdownDeps_of_upload _ _ Eu). assumption.
Qed.

Lemma in_uploadEffect tm cur d w :
  In tm (timers (uploadEffect cur d w)) -> In tm (timers w) \/ isUploadTick tm = true.
Proof.
  destruct (autoOn cur) eqn:Ha.
  - intros H. apply (in_uploadEffect_on _ _ _ _ Ha) in H. destruct H as [H| ->]; auto.
  - rewrite (uploadEffect_off _ _ _ Ha). intros H. apply in_clearIfSet in H. tauto.
Qed.

Lemma in_countdownEffect tm cur w :
  In tm (timers (countdownEffect cur w)) -> In tm (timers w) \/ isCountdownTick tm = true.
Proof.
  destruct (autoOn cur) eqn:Ha.
  - intros H. apply (in_countdownEffect_on _ _ _ Ha) in H. destruct H as [H| ->]; auto.
  - rewrite (countdownEffect_off _ _ Ha). cbn. intros H. apply in_clearIfSet in H. tauto.
Qed.

(** A render adds nothing but its two intervals. *)
Lemma in_commit tm d w :
  In tm (timers (commit d w)) -> In tm (timers w) \/ isInterval tm = true.
Proof.
  unfold commit, runEffects, isInterval, uploadCleanup, countdownCleanup. cbv zeta.
  destruct (uploadDepsChanged _ _) eqn:Eu.
  - destruct (countdownDepsChanged _ _) eqn:Ec; intros H.
    + apply in_countdownEffect in H. destruct H as [H|H]; [|rewrite H, orb_true_r; auto].
      apply in_uploadEffect in H. destruct H as [H|H]; [|rewrite H; auto].
      apply in_clearIfSet in H. destruct H as [H _].
      apply in_clearIfSet in H. destruct H as [H _]. auto.
    + apply in_uploadEffect in H. destruct H as [H|H]; [|rewrite H; auto].
      apply in_clearIfSet in H. destruct H as [H _]. auto.
  - rewrite (countdownDeps_of_upload _ _ Eu). auto.
Qed.

Lemma flush_keeps tm d w :
  timers_ok w -> In tm (timers w) -> isInterval tm = false ->
  In tm (timers (flush d w)).
Proof.
  intros Hok Hin Hk. rewrite flush_eq.
  apply commit_keeps; [do 2 apply commit_timers_ok; assumption| |assumption].
  apply commit_keeps; [apply commit_timers_ok; assumption| |assumption].
  apply commit_keeps; assumption.
Qed.

Lemma in_flush tm d w :
  In tm (timers (flush d w)) -> In tm (timers w) \/ isInterval tm = true.
Proof.
  rewrite flush_eq. intros H.
  apply in_commit in H. destruct H as [H|H]; [|auto].
  apply in_commit in H. destruct H as [H|H]; [|auto].
  apply in_commit in H. assumption.
Qed.

(** *** What a handler does to the timer table *)

Lemma timers_performUpload_loop newId gd rest d w :
  timers (performUpload_loop newId gd rest d w) =
  match rest with
  | st :: rest' =>
      timers w ++ [{| tm_id := nextTimer w; tm_due := now w + 2000; tm_every := None;
                      tm_cb := StageDelay newId gd rest' |}]
  | [] => timers w
  end.
Proof. unfold performUpload_loop. destruct rest; reflexivity. Qed.

(** A handler leaves every timer other than the one that fires. *)
Lemma handle_keeps tm e d w w' :
  handle e d w = Some w' -> In tm (timers w) ->
  (forall i, e = TimerFires i -> tm_id tm <> i) -> In tm (timers w').
Proof.
  unfold handle. intros Hh Hin Hne.
  destruct e; try (injection Hh as <-; try exact Hin).
  - cbn. apply in_app_iff. auto.
  - unfold handleGoogleLogin. destruct aistudio; cbn; [|apply in_app_iff]; auto.
  - rewrite timers_performUpload. assumption.
  - destruct (find_timer i w) as [tm0|] eqn:Hf; [|discriminate].
    destruct (_ =? _)%Z; [|discriminate]. injection Hh as <-.
    apply find_timer_in in Hf. destruct Hf as [Hin0 E0].
    assert (Hr : In tm (timers (rearm tm0 w))).
    { apply in_rearm_other; [assumption|]. rewrite E0. apply Hne. reflexivity. }
    unfold fire, handleConnect_resumed, handleGoogleLogin_resumed, setupMockChannel.
    destruct (tm_cb tm0) as [c| |newId gd rest|email|]; wsimpl;
      autorewrite with world; try assumption.
    rewrite timers_performUpload_loop. destruct rest; [|apply in_app_iff]; auto.
  - destruct (find_awaited p w) as [[newId n t f|]|]; try discriminate.
    injection Hh as <-. unfold performUpload_fetched.
    destruct result; [|assumption].
    rewrite timers_performUpload_loop. unfold stages. apply in_app_iff. auto.
  - destruct (find_awaited p w) as [[newId n t f|]|]; try discriminate.
    injection Hh as <-. unfold handleGoogleLogin_selected.
    destruct ok; cbn; [apply in_app_iff|]; auto.
Qed.

Lemma step_keeps tm i w w' :
  sched_ok w -> step i w = Some w' -> In tm (timers w) -> isInterval tm = false ->
  event i <> TimerFires (tm_id tm) -> In tm (timers w').
Proof.
  intros Hw Hs Hin Hk Hne. apply step_inv in Hs. destruct Hs as [_ [w1 [Hh ->]]].
  apply flush_keeps; [| |assumption].
  - apply (handle_sched_ok _ _ _ _ (set_now_sched_ok _ _ Hw) Hh).
  - apply (handle_keeps _ _ _ _ _ Hh); [exact Hin|].
    intros j E <-. apply Hne. assumption.
Qed.

(** A pending timeout stays pending, under the same id, until it fires. *)
Lemma step_keeps_timer j tm i w w' :
  sched_ok w -> step i w = Some w' -> find_timer j w = Some tm ->
  isInterval tm = false -> event i <> TimerFires j -> find_timer j w' = Some tm.
Proof.
  intros Hw Hs Hf Hk Hne.
  apply (find_timer_iff _ _ _ (proj1 Hw)) in Hf. destruct Hf as [Hin <-].
  apply (find_timer_iff _ _ _ (proj1 (step_sched_ok _ _ _ Hw Hs))).
  split; [|reflexivity]. apply (step_keeps tm i w); assumption.
Qed.

Lemma reachable_fresh_reachable w : reachable_fresh w -> reachable w.
Proof.
  induction 1 as [|i w w' _ IH _ Hs]; [constructor|].
  apply (reach_step i w); assumption.
Qed.

(** ** Due times *)

Lemma due_ok_frame w w' :
  due_ok w -> now w' = now w -> (forall tm, In tm (timers w') -> In tm (timers w)) ->
  due_ok w'.
Proof. intros H En Ht tm Hin. rewrite En. apply H, Ht, Hin. Qed.

Lemma due_ok_schedule cb delay every w :
  due_ok w -> 0 < delay -> (every = None \/ every = Some delay) ->
  due_ok (snd (schedule cb delay every w)).
Proof.
  intros H Hd He tm Hin. apply in_schedule in Hin. cbn [now schedule snd].
  destruct Hin as [Hin| ->]; [apply H, Hin|]. cbn. split; [lia|].
  intros p Hp. destruct He as [-> | ->]; [discriminate|]. injection Hp as <-. lia.
Qed.

Lemma clearIfSet_due_ok r w : due_ok w -> due_ok (clearIfSet r w).
Proof.
  intros H. apply (due_ok_frame w); [exact H|apply now_clearIfSet|].
  intros tm Hin. apply in_clearIfSet in Hin. apply Hin.
Qed.

Lemma uploadEffect_due_ok cur d w : due_ok w -> due_ok (uploadEffect cur d w).
Proof.
  intros H. destruct (autoOn cur) eqn:Ha.
  - intros tm Hin. rewrite now_uploadEffect.
    apply (in_uploadEffect_on _ _ _ _ Ha) in Hin. destruct Hin as [Hin| ->].
    + apply H, Hin.
    + cbn. split; [lia|]. intros p [= <-]. lia.
  - rewrite (uploadEffect_off _ _ _ Ha). apply clearIfSet_due_ok, H.
Qed.

Lemma countdownEffect_due_ok cur w : due_ok w -> due_ok (countdownEffect cur w).
Proof.
  intros H. destruct (autoOn cur) eqn:Ha.
  - intros tm Hin. rewrite now_countdownEffect.
    apply (in_countdownEffect_on _ _ _ Ha) in Hin. destruct Hin as [Hin| ->].
    + apply H, Hin.
    + cbn. split; [lia|]. intros p [= <-]. lia.
  - rewrite (countdownEffect_off _ _ Ha).
    apply (due_ok_frame (clearIfSet (timerRef w) w)); auto.
    apply clearIfSet_due_ok, H.
Qed.

Lemma commit_due_ok d w : due_ok w -> due_ok (commit d w).
Proof.
  intros H. unfold commit, runEffects, uploadCleanup, countdownCleanup. cbv zeta.
  assert (H0 : due_ok (set_rendered (state w) w)) by exact H.
  destruct (uploadDepsChanged _ _), (countdownDepsChanged _ _);
    repeat first [apply countdownEffect_due_ok | apply uploadEffect_due_ok
                 | apply clearIfSet_due_ok]; exact H0.
Qed.

Lemma flush_due_ok d w : due_ok w -> due_ok (flush d w).
Proof. intros H. rewrite flush_eq. do 3 apply commit_due_ok. exact H. Qed.

Lemma forallb_on_time t w tm :
  on_time t w = true -> In tm (timers w) -> now w <= t <= tm_due tm.
Proof.
  unfold on_time. rewrite andb_true_iff, forallb_forall. intros [H1 H2] Hin.
  apply Z.leb_le in H1. specialize (H2 tm Hin). apply Z.leb_le in H2. lia.
Qed.

Lemma set_now_due_ok t w : due_ok w -> on_time t w = true -> due_ok (set_now t w).
Proof.
  intros H Hon tm Hin. cbn in *. destruct (H tm Hin) as [H1 H2].
  pose proof (forallb_on_time t w tm Hon Hin). split; [lia|].
  intros p Hp. destruct (H2 p Hp). lia.
Qed.

Lemma rearm_due_ok tm w :
  timers_ok w -> due_ok w -> In tm (timers w) -> tm_due tm = now w ->
  due_ok (rearm tm w).
Proof.
  intros Hok H Htm Hdue x Hx. rewrite now_rearm. unfold rearm in Hx.
  destruct (tm_every tm) as [p|] eqn:Hp.
  - cbn in Hx. apply in_map_iff in Hx. destruct Hx as [y [E Hy]].
    destruct (Nat.eqb (tm_id y) (tm_id tm)) eqn:Ei.
    + apply Nat.eqb_eq in Ei.
      assert (y = tm) as -> by (apply (same_id_same_timer w); auto; apply Hok).
      subst x. cbn. destruct (H tm Htm) as [_ H2]. destruct (H2 p Hp) as [Hpos _].
      split; [lia|]. intros q Hq. rewrite Hp in Hq. injection Hq as <-. lia.
    + subst x. apply H, Hy.
  - apply in_clearInterval in Hx. apply H, Hx.
Qed.

Lemma performUpload_loop_due_ok newId gd rest d w :
  due_ok w -> due_ok (performUpload_loop newId gd rest d w).
Proof.
  intros H. unfold performUpload_loop. destruct rest as [|st rest].
  - exact H.
  - unfold setTimeout. apply due_ok_schedule; [exact H|lia|auto].
Qed.

Lemma handleConnect_due_ok email w : due_ok w -> due_ok (handleConnect email w).
Proof.
  intros H. unfold handleConnect, setTimeout. apply due_ok_schedule; [exact H|lia|auto].
Qed.

Lemma handle_due_ok e d w w1 :
  timers_ok w -> due_ok w -> handle e d w = Some w1 -> due_ok w1.
Proof.
  intros Hok H Hh. unfold handle in Hh.
  destruct e; try (injection Hh as <-; try exact H).
  - apply handleConnect_due_ok, H.
  - unfold handleGoogleLogin. destruct aistudio; [exact H|apply handleConnect_due_ok, H].
  - apply (due_ok_frame w); [exact H|apply now_performUpload|].
    rewrite timers_performUpload. auto.
  - destruct (find_timer i w) as [tm|] eqn:Hf; [|discriminate].
    destruct (tm_due tm =? now w)%Z eqn:Ed; [|discriminate]. injection Hh as <-.
    apply Z.eqb_eq in Ed. apply find_timer_in in Hf. destruct Hf as [Htm _].
    pose proof (rearm_due_ok tm w Hok H Htm Ed) as Hr.
    unfold fire, handleConnect_resumed, handleGoogleLogin_resumed, setupMockChannel.
    destruct (tm_cb tm) as [c| |newId gd rest|email|].
    + apply (due_ok_frame (rearm tm w)); [exact Hr|cbn; apply now_performUpload|].
      cbn. rewrite timers_performUpload. auto.
    + exact Hr.
    + apply performUpload_loop_due_ok, Hr.
    + exact Hr.
    + exact Hr.
  - destruct (find_awaited p w) as [[newId n t f|]|]; try discriminate.
    injection Hh as <-. unfold performUpload_fetched. destruct result; [|exact H].
    apply performUpload_loop_due_ok. exact H.
  - destruct (find_awaited p w) as [[newId n t f|]|]; try discriminate.
    injection Hh as <-. unfold handleGoogleLogin_selected. destruct ok; [|exact H].
    unfold setTimeout. apply due_ok_schedule; [exact H|lia|auto].
Qed.

Lemma reachable_due_ok w : reachable w -> due_ok w.
Proof.
  induction 1 as [|i w w' Hw IH Hs].
  - rewrite init_eq. intros tm [].
  - apply step_inv in Hs. destruct Hs as [Hon [w1 [Hh ->]]].
    apply flush_due_ok.
    refine (handle_due_ok _ _ (set_now (at_time i) w) _ _ _ Hh).
    + apply (timers_ok_ext w); try reflexivity. apply reachable_sched_ok, Hw.
    + apply set_now_due_ok; assumption.
Qed.

(** ** What rendering leaves untouched *)

Lemma commit_gate d w :
  isAutoActive (state (commit d w)) = isAutoActive (state w)
  /\ isConnected (state (commit d w)) = isConnected (state w)
  /\ isConnecting (state (commit d w)) = isConnecting (state w)
  /\ showLoginModal (state (commit d w)) = showLoginModal (state w)
  /\ channel (state (commit d w)) = channel (state w).
Proof.
  rewrite state_commit. cbv zeta.
  destruct (uploadDepsChanged _ _); [|auto 6].
  destruct (autoOn _).
  - destruct (isProcessing _); cbn; auto 6.
  - destruct (countdownDepsChanged _ _); cbn; auto 6.
Qed.

Lemma flush_gate d w :
  isAutoActive (state (flush d w)) = isAutoActive (state w)
  /\ isConnected (state (flush d w)) = isConnected (state w)
  /\ isConnecting (state (flush d w)) = isConnecting (state w)
  /\ showLoginModal (state (flush d w)) = showLoginModal (state w)
  /\ channel (state (flush d w)) = channel (state w).
Proof. rewrite state_flush. apply commit_gate. Qed.

Lemma timeLeft_commit d w :
  timeLeft (state (commit d w)) = timeLeft (state w)
  \/ timeLeft (state (commit d w)) = 60.
Proof.
  rewrite state_commit. cbv zeta.
  destruct (uploadDepsChanged _ _); [|auto].
  destruct (autoOn _).
  - destruct (isProcessing _); cbn; auto.
  - destruct (countdownDepsChanged _ _); cbn; auto.
Qed.

Lemma uploads_commit d w :
  uploads (state (commit d w)) =
  if fires w
  then initialRecord (d_id d) (closure_of (state w)) (now w) :: uploads (state w)
  else uploads (state w).
Proof.
  destruct (fires w) eqn:Hf.
  - rewrite (state_commit_fires _ _ Hf). reflexivity.
  - destruct (state_commit_quiet d _ Hf) as [-> | ->]; reflexivity.
Qed.

Lemma isProcessing_commit d w :
  isProcessing (state (commit d w)) = isProcessing (state w) || fires w.
Proof.
  destruct (fires w) eqn:Hf.
  - rewrite (state_commit_fires _ _ Hf). cbn. rewrite orb_true_r. reflexivity.
  - rewrite orb_false_r. destruct (state_commit_quiet d _ Hf) as [-> | ->]; reflexivity.
Qed.

Lemma reachable_intervals w tm :
  reachable w -> In tm (timers w) -> isInterval tm = true -> autoOn (state w) = true.
Proof.
  intros Hw Hin Hk. rewrite <- (reachable_settled _ Hw).
  apply (iv_on _ (proj2 (reachable_sched_ok _ Hw)) tm Hin Hk).
Qed.

Lemma autoOn_connected a : autoOn a = true -> isConnected a = true.
Proof. unfold autoOn. intros H. apply andb_true_iff in H. apply H. Qed.

Lemma reachable_no_interval w tm :
  reachable w -> autoOn (state w) = false -> In tm (timers w) -> isInterval tm = false.
Proof.
  intros Hw Hoff Hin. destruct (isInterval tm) eqn:E; [|reflexivity].
  rewrite (reachable_intervals w tm Hw Hin E) in Hoff. discriminate.
Qed.

(** C8.  While the gate is disconnected no interval is armed; turning
    auto-mode on there starts no run and arms no timer; disconnecting
    turns auto-mode off. *)
Theorem scheduler_inert_while_disconnected : forall w, reachable w ->
  (isConnected (state w) = false ->
     forall tm, In tm (timers w) -> isInterval tm = false)
  /\ (isConnected (state w) = false ->
      forall t d w',
        step {| at_time := t; draws := d; event := ToggleAuto |} w = Some w' ->
        isAutoActive (state w') = negb (isAutoActive (state w))
        /\ isConnected (state w') = false
        /\ uploads (state w') = uploads (state w)
        /\ isProcessing (state w') = isProcessing (state w)
        /\ awaiting w' = awaiting w
        /\ (forall tm, In tm (timers w') <-> In tm (timers w)))
  /\ (forall t d w',
        step {| at_time := t; draws := d; event := Disconnect |} w = Some w' ->
        isAutoActive (state w') = false
        /\ isConnected (state w') = false
        /\ channel (state w') = None
        /\ forall tm, In tm (timers w') -> isInterval tm = false).
Proof.
  intros w Hw.
  assert (P1 : forall w0, reachable w0 -> isConnected (state w0) = false ->
                 forall tm, In tm (timers w0) -> isInterval tm = false).
  { intros w0 Hw0 Hc tm Hin. apply (reachable_no_interval w0 tm Hw0); [|assumption].
    unfold autoOn. rewrite Hc. apply andb_false_r. }
  split; [apply (P1 w Hw)|]. split.
  - intros Hc t d w' Hs.
    assert (Hw' : reachable w') by exact (reach_step _ _ _ Hw Hs).
    pose proof Hs as Hs'. apply step_inv in Hs'. destruct Hs' as [_ [w1 [Hh ->]]].
    cbn [draws at_time event] in *. cbn in Hh. injection Hh as <-.
    set (w1 := setIsAutoActive _ _) in *.
    destruct (flush_gate d w1) as (Ea & Ecn & _).
    assert (Hoff : autoOn (state w1) = false).
    { unfold autoOn, w1. cbn. rewrite Hc. apply andb_false_r. }
    assert (Hf : fires w1 = false).
    { unfold fires. rewrite Hoff, andb_false_r. reflexivity. }
    split; [rewrite Ea; unfold w1; cbn; rewrite (reachable_settled _ Hw); reflexivity|].
    split; [rewrite Ecn; exact Hc|].
    rewrite state_flush, uploads_commit, isProcessing_commit, awaiting_flush,
      awaiting_commit, Hf, orb_false_r.
    split; [reflexivity|]. split; [reflexivity|]. split; [reflexivity|].
    intros tm. split.
    + intros Hin. destruct (in_flush _ _ _ Hin) as [H|H]; [exact H|].
      rewrite (P1 _ Hw' (eq_trans Ecn Hc) tm Hin) in H. discriminate.
    + intros Hin. apply flush_keeps.
      * apply update_sched_ok, set_now_sched_ok, reachable_sched_ok, Hw.
      * exact Hin.
      * apply (P1 w Hw Hc tm Hin).
  - intros t d w' Hs.
    assert (Hw' : reachable w') by exact (reach_step _ _ _ Hw Hs).
    pose proof Hs as Hs'. apply step_inv in Hs'. destruct Hs' as [_ [w1 [Hh ->]]].
    cbn [draws at_time event] in *. cbn in Hh. injection Hh as <-.
    destruct (flush_gate d (handleDisconnect (set_now t w))) as (Ea & Ecn & _ & _ & Ech).
    cbn in Ea, Ecn, Ech.
    split; [exact Ea|]. split; [exact Ecn|]. split; [exact Ech|].
    apply (P1 _ Hw' Ecn).
Qed.

Lemma timeLeft_flush d w :
  timeLeft (state (flush d w)) = timeLeft (state w)
  \/ timeLeft (state (flush d w)) = 60.
Proof. rewrite state_flush. apply timeLeft_commit. Qed.

Lemma step_fires j tm i w w' :
  step i w = Some w' -> event i = TimerFires j -> find_timer j w = Some tm ->
  at_time i = tm_due tm /\ w' = flush (draws i) (fire tm (draws i) (set_now (at_time i) w)).
Proof.
  intros Hs He Hf. apply step_inv in Hs. destruct Hs as [_ [w1 [Hh ->]]].
  rewrite He in Hh. unfold handle in Hh.
  change (find_timer j (set_now (at_time i) w)) with (find_timer j w) in Hh.
  rewrite Hf in Hh. cbn [now set_now] in Hh.
  destruct (tm_due tm =? at_time i)%Z eqn:E; [|discriminate].
  apply Z.eqb_eq in E. injection Hh as <-. auto.
Qed.


(** A handler that makes the store longer is a trigger that passed the
    guard: the manual one, which leaves the countdown alone, or the
    interval's, which resets it. *)
Lemma handle_grows e d w w1 :
  handle e d w = Some w1 ->
  List.length (uploads (state w1)) = List.length (uploads (state w))
  \/ (e = ManualTrigger
      /\ c_isProcessing (closure_of (rendered w))
         || negb (c_isConnected (closure_of (rendered w))) = false
      /\ timeLeft (state w1) = timeLeft (state w))
  \/ timeLeft (state w1) = 60.
Proof.
  unfold handle. destruct e; try (intros [= <-]; auto).
  - unfold handleGoogleLogin. destruct aistudio; auto.
  - rewrite state_performUpload. destruct (_ || _) eqn:E; auto.
  - destruct (find_timer i w) as [tm|] eqn:Hf; [|discriminate].
    destruct (_ =? _)%Z; [|discriminate]. intros [= <-].
    unfold fire, performUpload_loop, handleConnect_resumed, handleGoogleLogin_resumed,
      setupMockChannel, updateById.
    destruct (tm_cb tm) as [c| |newId gd [|st rest]|email|] eqn:Hcb; wsimpl;
      autorewrite with world; rewrite ?length_map, ?finalUpdates_length; auto.
  - destruct (find_awaited p w) as [[newId n t f|]|]; try discriminate.
    intros [= <-]. unfold performUpload_fetched, performUpload_loop, stages, updateById.
    destruct result; cbn; rewrite length_map; auto.
  - destruct (find_awaited p w) as [[newId n t f|]|]; try discriminate.
    intros [= <-]. unfold handleGoogleLogin_selected. destruct ok; auto.
Qed.

(** *** Renders as tasks of their own *)

Lemma task_sched_ok k w w' : sched_ok w -> task k w = Some w' -> sched_ok w'.
Proof.
  intros H. destruct k as [i|d]; cbn.
  - destruct (on_time _ _); [|discriminate]. intros Hh.
    apply (handle_sched_ok _ _ _ _ (set_now_sched_ok (at_time i) _ H) Hh).
  - intros [= <-]. apply commit_sched_ok, H.
Qed.

Lemma task_countdown_ok k w w' :
  sched_ok w -> countdown_ok w -> task k w = Some w' -> countdown_ok w'.
Proof.
  intros Hs H. destruct k as [i|d]; cbn.
  - destruct (on_time _ _); [|discriminate]. intros Hh.
    refine (handle_countdown_ok _ _ (set_now (at_time i) w) _ _ _ Hh).
    + apply set_now_sched_ok, Hs.
    + exact H.
  - intros [= <-]. apply commit_countdown_ok, H.
Qed.

Lemma reachable_tasks_ok w : reachable_tasks w -> sched_ok w /\ countdown_ok w.
Proof.
  induction 1 as [|k w w' Hw [IH1 IH2] Hk].
  - split; [apply init_sched_ok|].
    rewrite init_eq. unfold countdown_ok, period. cbn. split; [lia|reflexivity].
  - split; [apply (task_sched_ok k w w' IH1 Hk)|apply (task_countdown_ok k w w' IH1 IH2 Hk)].
Qed.

Lemma run_tasks_reachable ks : forall w w',
  reachable_tasks w -> run_tasks ks w = Some w' -> reachable_tasks w'.
Proof.
  induction ks as [|k ks IH]; cbn; intros w w' Hw H.
  - injection H as <-. exact Hw.
  - destruct (task k w) as [w1|] eqn:Hk; [|discriminate].
    apply (IH w1); [|exact H]. apply (tasks_next k w); assumption.
Qed.

(** A [step] is its handler followed by three renders. *)
Lemma step_as_tasks i w : run_tasks (settled i) w = step i w.
Proof.
  unfold settled, step. cbn [run_tasks task].
  destruct (on_time _ _); [|reflexivity].
  destruct (handle _ _ _); reflexivity.
Qed.

Lemma run_as_tasks tr : forall w, run_tasks (flat_map settled tr) w = run tr w.
Proof.
  induction tr as [|i tr IH]; intros w; [reflexivity|].
  change (flat_map settled (i :: tr)) with (settled i ++ flat_map settled tr).
  pose proof (step_as_tasks i w) as E. unfold settled in *. cbn [app run_tasks run] in *.
  destruct (task (Handler i) w) as [w1|]; [|rewrite <- E; reflexivity].
  cbn [task] in *. rewrite <- E. apply IH.
Qed.

Lemma reachable_as_tasks w : reachable w -> reachable_tasks w.
Proof.
  induction 1 as [|i w w' Hw IH Hs]; [constructor|].
  apply (run_tasks_reachable (settled i) w w' IH). rewrite step_as_tasks. exact Hs.
Qed.

(** C6.  Every fire leaves the countdown at [period].  When every event
    is rendered to rest before the next, that is so after the step of any
    fire, and after every tick of the upload interval, dropped or not.
    When renders are tasks of their own: the render whose upload effect
    runs in auto-mode sets the countdown to [period], whether its
    [performUpload] passes the guard or not; so does the handler of the
    upload interval; a manual trigger that passes the guard leaves the
    countdown as it is, and the render of that click sets it to [period]. *)
Theorem countdown_reset_on_fire :
  (forall w, reachable w ->
   forall i w', step i w = Some w' ->
     ((List.length (uploads (state w)) < List.length (uploads (state w')))%nat ->
        timeLeft (state w') = period)
     /\ (forall j tm c, event i = TimerFires j -> find_timer j w = Some tm ->
           tm_cb tm = UploadTick c -> timeLeft (state w') = period))
  /\ (forall w, reachable_tasks w ->
       (forall d, uploadDepsChanged (rendered w) (state w) = true ->
          autoOn (state w) = true ->
          timeLeft (state (commit d w)) = period)
       /\ (forall t d j tm c w',
             find_timer j w = Some tm -> tm_cb tm = UploadTick c ->
             task (Handler {| at_time := t; draws := d; event := TimerFires j |}) w = Some w' ->
             timeLeft (state w') = period)
       /\ (forall t d w',
             task (Handler {| at_time := t; draws := d; event := ManualTrigger |}) w = Some w' ->
             (List.length (uploads (state w)) < List.length (uploads (state w')))%nat ->
             timeLeft (state w') = timeLeft (state w)
             /\ forall d', timeLeft (state (commit d' w')) = period)).
Proof.
  split.
  { intros w Hw i w' Hs. unfold period. split.
    - intros Hlt. apply step_inv in Hs. destruct Hs as [_ [w1 [Hh ->]]].
      rewrite state_flush in *. rewrite uploads_commit in Hlt.
      destruct (fires w1) eqn:Hf.
      + rewrite (state_commit_fires _ _ Hf). reflexivity.
      + assert (H60 : timeLeft (state w1) = 60).
        { destruct (handle_grows _ _ _ _ Hh) as [E|[(_ & Hg & E)| E]].
          - cbn in E. lia.
          - rewrite E. cbn [state rendered set_now closure_of c_isProcessing c_isConnected] in *.
            rewrite (reachable_settled _ Hw) in Hg.
            apply orb_false_iff in Hg. destruct Hg as [Hp Hc].
            destruct (reachable_countdown_ok w Hw) as [_ Hoff]. apply Hoff.
            rewrite (reachable_settled _ Hw).
            destruct (autoOn (state w)) eqn:Hon; [|reflexivity].
            rewrite (reachable_busy_when_on w Hw Hon) in Hp. discriminate.
          - exact E. }
        destruct (timeLeft_commit (draws i) w1) as [-> | ->]; auto.
    - intros j tm c He Hf Hcb.
      destruct (step_fires j tm _ w w' Hs He Hf) as [_ ->].
      assert (E : timeLeft (state (fire tm (draws i) (set_now (at_time i) w))) = 60).
      { unfold fire. rewrite Hcb. reflexivity. }
      destruct (timeLeft_flush (draws i) (fire tm (draws i) (set_now (at_time i) w)))
        as [-> | ->]; auto.
  }
  intros w Hw. destruct (reachable_tasks_ok w Hw) as [Hsc Hcd]. unfold period.
  split; [|split].
  - intros d Hu Ha. rewrite state_commit. cbv zeta. rewrite Hu, Ha.
    destruct (isProcessing (state w)); reflexivity.
  - intros t d j tm c w' Hf Hcb. cbn [task at_time draws event].
    destruct (on_time t w); [|discriminate]. unfold handle.
    change (find_timer j (set_now t w)) with (find_timer j w). rewrite Hf.
    destruct (_ =? _)%Z; [|discriminate]. intros [= <-].
    unfold fire. rewrite Hcb. reflexivity.
  - intros t d w'. cbn [task at_time draws event].
    destruct (on_time t w); [|discriminate]. unfold handle. intros [= <-] Hlt.
    change (closure_of (rendered (set_now t w))) with (closure_of (rendered w)) in *.
    rewrite state_performUpload in *.
    destruct (c_isProcessing _ || negb (c_isConnected _)) eqn:Hg; [cbn in Hlt; lia|].
    split; [reflexivity|]. intros d'.
    set (h := performUpload (closure_of (rendered w)) d (set_now t w)).
    assert (Eh : state h = set_uploads
                   (insert (initialRecord (d_id d) (closure_of (rendered w)) t))
                   (set_isProcessing true (state w))).
    { unfold h. rewrite state_performUpload, Hg. reflexivity. }
    assert (Er : rendered h = rendered w).
    { unfold h. rewrite rendered_performUpload. reflexivity. }
    assert (Hch : countdown_ok h).
    { unfold countdown_ok. rewrite Er, Eh. exact Hcd. }
    destruct (commit_countdown_ok d' h Hch) as [_ Hoff].
    rewrite rendered_commit in Hoff.
    destruct (autoOn (state h)) eqn:Ha; [|apply Hoff; reflexivity].
    assert (Hu : uploadDepsChanged (rendered h) (state h) = true).
    { rewrite Er, Eh. apply orb_false_iff in Hg. destruct Hg as [Hp _].
      cbn in Hp. unfold uploadDepsChanged, closure_eqb. cbn. rewrite Hp. cbn.
      rewrite !andb_false_r. reflexivity. }
    rewrite state_commit. cbv zeta. rewrite Hu, Ha.
    destruct (isProcessing (state h)); reflexivity.
Qed.

(** ** Connecting *)

Lemma plain_not_interval tm : plain (tm_cb tm) -> isInterval tm = false.
Proof.
  unfold plain, isInterval, isUploadTick, isCountdownTick.
  destruct (tm_cb tm); auto; contradiction.
Qed.

Lemma split_at_first_spec sep s :
  (JS.split_at_first sep s = s
   \/ exists rest, s = (JS.split_at_first sep s ++ String sep rest)%string)
  /\ forall ch, In ch (list_ascii_of_string (JS.split_at_first sep s)) -> ch <> sep.
Proof.
  induction s as [|c s [IH1 IH2]]; cbn.
  - split; [auto|]. intros ch [].
  - destruct (Ascii.eqb c sep) eqn:E.
    + apply Ascii.eqb_eq in E. subst c. split; [|intros ch []].
      right. exists s. reflexivity.
    + apply Ascii.eqb_neq in E. split.
      * destruct IH1 as [-> | [rest Hrest]]; [auto|].
        right. exists rest. cbn. rewrite <- Hrest. reflexivity.
      * cbn. intros ch [<- | H]; auto.
Qed.

Lemma continuation_app s :
  s = (fst (JS.continuation s) ++ snd (JS.continuation s))%string.
Proof.
  induction s as [|c s IH]; cbn; [reflexivity|].
  destruct (JS.isContinuation c); [|reflexivity].
  destruct (JS.continuation s) as [more rest']. cbn in *. rewrite <- IH. reflexivity.
Qed.

Lemma upper_letter ch :
  if ((97 <=? nat_of_ascii ch) && (nat_of_ascii ch <=? 122))%nat
  then nat_of_ascii (JS.upper ch) = (nat_of_ascii ch - 32)%nat
  else JS.upper ch = ch.
Proof.
  unfold JS.upper. destruct (_ && _)%nat eqn:E; [|reflexivity].
  apply andb_true_iff in E. destruct E as [A B].
  apply Nat.leb_le in A, B. apply nat_ascii_embedding. lia.
Qed.

(** The channel [setupMockChannel] makes up from an email.  Handle and
    avatar seed are the text before the first ['@'] (the whole email when
    there is none).  The name is that text followed by [" Studio"], with
    its first character in upper case: a letter [a]..[z] is moved to
    [A]..[Z], any other character below 128 is kept, and a character
    outside ASCII is what the runtime makes of it. *)
Lemma mockChannel_derived email d :
  exists namePart,
    (email = namePart \/ exists rest, email = (namePart ++ "@" ++ rest)%string)
    /\ (forall ch, In ch (list_ascii_of_string namePart) -> ch <> "@"%char)
    /\ Types.handle (mockChannel email d) = ("@" ++ namePart)%string
    /\ avatar (mockChannel email d) =
       ("https://api.dicebear.com/7.x/avataaars/svg?seed=" ++ namePart)%string
    /\ subscribers (mockChannel email d) =
       (NilZero.string_of_int (Z.to_int (JS.floor (JS.mul (d_subs d) (500 # 1)) + 1))
        ++ "K")%string
    /\ (namePart = ""%string -> name (mockChannel email d) = " Studio"%string)
    /\ (forall ch rest, namePart = String ch rest -> (nat_of_ascii ch < 128)%nat ->
          name (mockChannel email d) = (String (JS.upper ch) rest ++ " Studio")%string
          /\ if ((97 <=? nat_of_ascii ch) && (nat_of_ascii ch <=? 122))%nat
             then nat_of_ascii (JS.upper ch) = (nat_of_ascii ch - 32)%nat
             else JS.upper ch = ch)
    /\ (forall ch rest, namePart = String ch rest -> (128 <= nat_of_ascii ch)%nat ->
          exists more rest',
            rest = (more ++ rest')%string
            /\ name (mockChannel email d) =
               (d_upper d (String ch more) ++ rest' ++ " Studio")%string).
Proof.
  exists (JS.split_at_first "@" email).
  destruct (split_at_first_spec "@"%char email) as [S1 S2].
  split; [destruct S1 as [S1|[rest S1]]; [left; congruence|right; exists rest; exact S1]|].
  split; [exact S2|]. do 3 (split; [reflexivity|]).
  unfold mockChannel. cbn [name]. split; [|split].
  - intros ->. reflexivity.
  - intros ch rest -> Hlt. unfold JS.capitalize.
    apply Nat.ltb_lt in Hlt. rewrite Hlt. split; [reflexivity|apply upper_letter].
  - intros ch rest -> Hge. unfold JS.capitalize.
    assert (Hn : (nat_of_ascii ch <? 128)%nat = false) by (apply Nat.ltb_ge; exact Hge).
    rewrite Hn. pose proof (continuation_app rest) as E.
    destruct (JS.continuation rest) as [more rest']. cbn [fst snd] in E.
    exists more, rest'. split; [exact E|]. apply append_assoc.
Qed.

(** C10.  [handleConnect] cannot fail.  It sets [isConnecting] and a
    timeout 1500 ms ahead; nothing removes that timeout before it fires;
    when it fires, at its due time, the gate is connected, the channel is
    the one made up from the email, [isConnecting] is false again and the
    login modal is closed; and it does fire once the clock reaches it.
    The channel takes its handle, avatar seed and name from the text of
    the email before the first ['@']: for [ada@example.org] they are
    [@ada], [...seed=ada] and [Ada Studio]. *)
Theorem connect_always_succeeds : forall w, reachable w -> forall email,
  (forall t d w1,
     step {| at_time := t; draws := d; event := Login email |} w = Some w1 ->
     isConnecting (state w1) = true
     /\ find_timer (nextTimer w) w1 = Some (connectTimeout email t w))
  /\ (forall j tm i w',
        find_timer j w = Some tm -> tm_cb tm = ConnectDelay email ->
        step i w = Some w' -> event i <> TimerFires j ->
        find_timer j w' = Some tm)
  /\ (forall j tm t d w',
        find_timer j w = Some tm -> tm_cb tm = ConnectDelay email ->
        step {| at_time := t; draws := d; event := TimerFires j |} w = Some w' ->
        t = tm_due tm
        /\ now w' = tm_due tm
        /\ isConnected (state w') = true
        /\ isConnecting (state w') = false
        /\ showLoginModal (state w') = false
        /\ exists c namePart,
             channel (state w') = Some c
             /\ (email = namePart \/ exists rest, email = (namePart ++ "@" ++ rest)%string)
             /\ (forall ch, In ch (list_ascii_of_string namePart) -> ch <> "@"%char)
             /\ Types.handle c = ("@" ++ namePart)%string
             /\ avatar c =
                ("https://api.dicebear.com/7.x/avataaars/svg?seed=" ++ namePart)%string
             /\ subscribers c =
                (NilZero.string_of_int
                   (Z.to_int (JS.floor (JS.mul (d_subs d) (500 # 1)) + 1)) ++ "K")%string
             /\ (namePart = ""%string -> name c = " Studio"%string)
             /\ (forall ch rest, namePart = String ch rest -> (nat_of_ascii ch < 128)%nat ->
                   name c = (String (JS.upper ch) rest ++ " Studio")%string
                   /\ if ((97 <=? nat_of_ascii ch) && (nat_of_ascii ch <=? 122))%nat
                      then nat_of_ascii (JS.upper ch) = (nat_of_ascii ch - 32)%nat
                      else JS.upper ch = ch)
             /\ (forall ch rest, namePart = String ch rest -> (128 <= nat_of_ascii ch)%nat ->
                   exists more rest',
                     rest = (more ++ rest')%string
                     /\ name c = (d_upper d (String ch more) ++ rest' ++ " Studio")%string))
  /\ (forall j tm d,
        find_timer j w = Some tm -> tm_cb tm = ConnectDelay email ->
        on_time (tm_due tm) w = true ->
        exists w',
          step {| at_time := tm_due tm; draws := d; event := TimerFires j |} w = Some w')
  /\ (forall d,
        name (mockChannel "ada@example.org" d) = "Ada Studio"%string
        /\ Types.handle (mockChannel "ada@example.org" d) = "@ada"%string
        /\ avatar (mockChannel "ada@example.org" d) =
           "https://api.dicebear.com/7.x/avataaars/svg?seed=ada"%string
        /\ name (mockChannel "7up" d) = "7up Studio"%string
        /\ Types.handle (mockChannel "7up" d) = "@7up"%string).
Proof.
  intros w Hw email. pose proof (reachable_sched_ok w Hw) as Hok.
  split; [|split; [|split; [|split]]]; [| | | |intros d; repeat split].
  - intros t d w1 Hs.
    pose proof (step_sched_ok _ _ _ Hok Hs) as Hok1.
    apply step_inv in Hs. destruct Hs as [_ [w0 [Hh ->]]].
    cbn [draws at_time event] in *. cbn in Hh. injection Hh as <-.
    destruct (flush_gate d (handleConnect email (set_now t w))) as (_ & _ & -> & _).
    split; [reflexivity|].
    apply find_timer_iff; [apply Hok1|]. split; [|reflexivity].
    apply flush_keeps.
    + apply handleConnect_sched_ok, set_now_sched_ok, Hok.
    + cbn. apply in_app_iff. right. left. reflexivity.
    + reflexivity.
  - intros j tm i w' Hf Hcb Hs Hne.
    apply (step_keeps_timer j tm i w); auto.
    apply plain_not_interval. rewrite Hcb. exact I.
  - intros j tm t d w' Hf Hcb Hs.
    destruct (step_fires j tm _ w w' Hs eq_refl Hf) as [Et ->].
    cbn [draws at_time] in *. subst t.
    set (w1 := fire tm d (set_now (tm_due tm) w)).
    assert (E : state w1 =
                set_showLoginModal false
                  (set_isConnecting false
                     (set_isConnected true
                        (set_channel (Some (mockChannel email d)) (state w))))).
    { unfold w1, fire. rewrite Hcb. unfold handleConnect_resumed, setupMockChannel.
      cbn. rewrite state_rearm. reflexivity. }
    destruct (flush_gate d w1) as (_ & -> & -> & -> & ->).
    rewrite now_flush, E. unfold w1, fire. rewrite Hcb.
    unfold handleConnect_resumed, setupMockChannel. cbn. rewrite now_rearm.
    cbn. do 5 (split; [reflexivity|]).
    destruct (mockChannel_derived email d) as [namePart H].
    exists (mockChannel email d), namePart. split; [reflexivity|exact H].
  - intros j tm d Hf Hcb Hon. unfold step. cbn [at_time draws event].
    rewrite Hon. unfold handle.
    change (find_timer j (set_now (tm_due tm) w)) with (find_timer j w).
    rewrite Hf. cbn [now set_now]. rewrite Z.eqb_refl. cbn. eauto.
Qed.

(** ** The Record Store *)

Lemma updateById_length newId f l :
  List.length (updateById newId f l) = List.length l.
Proof. apply length_map. Qed.

Lemma updateById_ids newId f l :
  (forall u, id (f u) = id u) -> map id (updateById newId f l) = map id l.
Proof.
  intros Hf. unfold updateById. rewrite map_map. apply map_ext.
  intros u. destruct (String.eqb _ _); auto.
Qed.

Lemma in_updateById newId f l y :
  In y (updateById newId f l) <->
  exists x, In x l /\ y = (if String.eqb (id x) newId then f x else x).
Proof.
  unfold updateById. rewrite in_map_iff. split; intros [x H]; exists x; intuition.
Qed.

Lemma id_stageUpdate gd st u : id (stageUpdate gd st u) = id u.
Proof. reflexivity. Qed.

Lemma id_finalUpdate newId d k u : id (finalUpdate newId d k u) = id u.
Proof. reflexivity. Qed.

Lemma id_failUpdate u : id (failUpdate u) = id u.
Proof. reflexivity. Qed.

Lemma unique_id l u x :
  NoDup (map id l) -> In u l -> In x l -> id x = id u -> x = u.
Proof.
  induction l as [|z l IH]; cbn; intros Hd Hu Hx E.
  - contradiction.
  - inversion Hd as [|? ? Hn Hd']; subst.
    destruct Hu as [->|Hu], Hx as [->|Hx]; auto.
    + exfalso. apply Hn. rewrite <- E. apply in_map. assumption.
    + exfalso. apply Hn. rewrite E. apply in_map. assumption.
Qed.

Lemma filter_map_length {A} (p : A -> bool) (g : A -> A) (l : list A) :
  (forall x, In x l -> p (g x) = p x) ->
  List.length (filter p (map g l)) = List.length (filter p l).
Proof.
  induction l as [|x l IH]; cbn; intros H; [reflexivity|].
  rewrite (H x (or_introl eq_refl)).
  destruct (p x); cbn; rewrite IH; auto.
Qed.

Lemma in_flight_update_same newId f l u :
  NoDup (map id l) -> In u l -> id u = newId -> in_progress u = true ->
  (forall x, in_progress (f x) = true) ->
  in_flight (updateById newId f l) = in_flight l.
Proof.
  intros Hd Hu Ei Hp Hf. unfold in_flight, updateById. apply filter_map_length.
  intros x Hx. destruct (String.eqb (id x) newId) eqn:E; [|reflexivity].
  apply String.eqb_eq in E. rewrite Hf.
  rewrite (unique_id l u x Hd Hu Hx) by congruence. auto.
Qed.

Lemma filter_two {A} (p : A -> bool) (l : list A) (u x : A) :
  In u l -> In x l -> x <> u -> p u = true -> p x = true ->
  (2 <= List.length (filter p l))%nat.
Proof.
  intros Hu Hx Hne Pu Px.
  apply in_split in Hu. destruct Hu as [l1 [l2 ->]].
  rewrite filter_app, length_app. cbn. rewrite Pu. cbn.
  apply in_app_iff in Hx. destruct Hx as [Hx|[Hx|Hx]].
  - assert (In x (filter p l1)) as H by (apply filter_In; auto).
    destruct (filter p l1); [contradiction|cbn; lia].
  - congruence.
  - assert (In x (filter p l2)) as H by (apply filter_In; auto).
    destruct (filter p l2); [contradiction|cbn; lia].
Qed.

Lemma filter_nil {A} (p : A -> bool) (l : list A) :
  (forall x, In x l -> p x = false) -> filter p l = [].
Proof.
  induction l as [|x l IH]; cbn; intros H; [reflexivity|].
  rewrite (H x (or_introl eq_refl)). apply IH. auto.
Qed.

Lemma in_flight_update_done newId f l u :
  (in_flight l <= 1)%nat -> In u l -> id u = newId -> in_progress u = true ->
  (forall x, in_progress (f x) = false) ->
  in_flight (updateById newId f l) = 0%nat.
Proof.
  intros H1 Hu Ei Hp Hf. unfold in_flight. rewrite filter_nil; [reflexivity|].
  intros y Hy. apply in_updateById in Hy. destruct Hy as [x [Hx ->]].
  destruct (String.eqb (id x) newId) eqn:E; [apply Hf|].
  destruct (in_progress x) eqn:Px; [|reflexivity]. exfalso.
  apply String.eqb_neq in E.
  assert (x <> u) as Hne by (intros ->; auto).
  pose proof (filter_two in_progress l u x Hu Hx Hne Hp Px). unfold in_flight in H1. lia.
Qed.

Lemma in_flight_zero l u : in_flight l = 0%nat -> In u l -> in_progress u = false.
Proof.
  unfold in_flight. intros H Hu. destruct (in_progress u) eqn:E; [|reflexivity].
  assert (In u (filter in_progress l)) as Hin by (apply filter_In; auto).
  destruct (filter in_progress l); [contradiction|discriminate].
Qed.

(** ** One run at a time *)

(** Nothing about the runs changed, or some suspended run is gone. *)
Lemma run_ok_frame w w' :
  run_ok w ->
  uploads (state w') = uploads (state w) ->
  isProcessing (state w') = isProcessing (state w) ->
  (forall tm, In tm (timers w') -> isStage tm = true -> In tm (timers w)) ->
  (forall p, In p (awaiting w') -> isFetch p = true -> In p (awaiting w)) ->
  run_ok w'.
Proof.
  intros [Rids Rfl Ridle Rtm Rfe Rex Rf Rs] Eu Ep Ht Ha.
  constructor; rewrite ?Eu, ?Ep.
  - exact Rids.
  - exact Rfl.
  - intros Hp. destruct (Ridle Hp) as (H0 & H1 & H2). split; [exact H0|]. split.
    + intros tm Hin. destruct (isStage tm) eqn:E; [|reflexivity].
      rewrite <- (H1 tm (Ht tm Hin E)). auto.
    + intros p Hin. destruct (isFetch p) eqn:E; [|reflexivity].
      rewrite <- (H2 p (Ha p Hin E)). auto.
  - intros tm1 tm2 Hin1 Hin2 E1 E2. apply Rtm; auto.
  - intros p1 p2 Hin1 Hin2 E1 E2. apply Rfe; auto.
  - intros tm p Hin1 Hin2 E1 E2. apply (Rex tm p); auto.
  - intros p newId n t f Hin. apply (Rf p newId n t f). apply Ha; auto.
  - intros tm newId gd rest Hin Hcb. apply (Rs tm newId gd rest); [|exact Hcb].
    apply Ht; [exact Hin|]. unfold isStage. rewrite Hcb. reflexivity.
Qed.

(** A trigger passed the guard while it was free. *)
Lemma run_ok_start w w' d c t k n to f :
  run_ok w -> isProcessing (state w) = false -> fresh d w ->
  uploads (state w') = initialRecord (d_id d) c t :: uploads (state w) ->
  isProcessing (state w') = true ->
  (forall tm, In tm (timers w') -> isStage tm = true -> In tm (timers w)) ->
  (forall p, In p (awaiting w') -> isFetch p = true ->
     In p (awaiting w) \/ p = (k, Fetch (d_id d) n to f)) ->
  run_ok w'.
Proof.
  intros [Rids Rfl Ridle Rtm Rfe Rex Rf Rs] Hp Hfr Eu Ep Ht Ha.
  destruct (Ridle Hp) as (H0 & H1 & H2).
  assert (Ht' : forall tm, In tm (timers w') -> isStage tm = false).
  { intros tm Hin. destruct (isStage tm) eqn:E; [|reflexivity].
    rewrite <- (H1 tm (Ht tm Hin E)). auto. }
  assert (Ha' : forall p, In p (awaiting w') -> isFetch p = true ->
                  p = (k, Fetch (d_id d) n to f)).
  { intros p Hin E. destruct (Ha p Hin E) as [H|H]; [|exact H].
    rewrite (H2 p H) in E. discriminate. }
  constructor; rewrite ?Eu, ?Ep.
  - cbn. constructor; assumption.
  - unfold in_flight in *. cbn. rewrite H0. lia.
  - discriminate.
  - intros tm1 tm2 Hin1 _ E1. rewrite (Ht' tm1 Hin1) in E1. discriminate.
  - intros p1 p2 Hin1 Hin2 E1 E2. rewrite (Ha' p1 Hin1 E1), (Ha' p2 Hin2 E2). reflexivity.
  - intros tm p Hin _ E. rewrite (Ht' tm Hin) in E. discriminate.
  - intros p newId n' t' f' Hin.
    specialize (Ha' _ Hin eq_refl). injection Ha' as _ -> _ _ _.
    exists (initialRecord (d_id d) c t).
    split; [left; reflexivity|]. split; [reflexivity|]. split; reflexivity.
  - intros tm newId gd rest Hin Hcb. specialize (Ht' tm Hin).
    unfold isStage in Ht'. rewrite Hcb in Ht'. discriminate.
Qed.

(** The suspended run resumed and set its next stage. *)
Lemma run_ok_advance w w' newId gd st rest u :
  run_ok w -> In u (uploads (state w)) -> id u = newId -> in_progress u = true ->
  uploads (state w') = updateById newId (stageUpdate gd st) (uploads (state w)) ->
  isProcessing (state w') = isProcessing (state w) ->
  (forall p, In p (awaiting w') -> isFetch p = false) ->
  (forall tm, In tm (timers w') -> isStage tm = true ->
     nextTimer w = tm_id tm /\ tm_cb tm = StageDelay newId gd rest /\ tm_every tm = None
     /\ tm_due tm = now w + 2000) ->
  run_ok w'.
Proof.
  intros [Rids Rfl Ridle Rtm Rfe Rex Rf Rs] Hu Ei Hp Eu Ep Ha Ht.
  assert (Hbusy : isProcessing (state w) = true).
  { destruct (isProcessing (state w)) eqn:E; [reflexivity|].
    destruct (Ridle eq_refl) as (H0 & _). rewrite (in_flight_zero _ u H0 Hu) in Hp.
    discriminate. }
  constructor; rewrite ?Eu, ?Ep.
  - rewrite updateById_ids; auto.
  - rewrite (in_flight_update_same newId _ _ u); auto.
  - rewrite Hbusy. discriminate.
  - intros tm1 tm2 Hin1 Hin2 E1 E2.
    destruct (Ht tm1 Hin1 E1) as (A1 & B1 & C1 & D1).
    destruct (Ht tm2 Hin2 E2) as (A2 & B2 & C2 & D2).
    destruct tm1, tm2; cbn in *; congruence.
  - intros p1 p2 Hin1 _ E1. rewrite (Ha p1 Hin1) in E1. discriminate.
  - intros tm p _ Hin _ E. rewrite (Ha p Hin) in E. discriminate.
  - intros p newId' n t f Hin. specialize (Ha _ Hin). discriminate.
  - intros tm newId' gd' rest' Hin Hcb.
    assert (E : isStage tm = true) by (unfold isStage; rewrite Hcb; reflexivity).
    destruct (Ht tm Hin E) as (_ & B & C & _). split; [exact C|].
    rewrite Hcb in B. injection B as -> _ _.
    exists (stageUpdate gd st u). split; [|split; reflexivity || assumption].
    apply in_updateById. exists u. split; [assumption|].
    rewrite Ei, String.eqb_refl. reflexivity.
Qed.

(** The suspended run ended, on success or on failure. *)
Lemma run_ok_finish w w' newId f u :
  run_ok w -> In u (uploads (state w)) -> id u = newId -> in_progress u = true ->
  (forall x, id (f x) = id x) -> (forall x, in_progress (f x) = false) ->
  uploads (state w') = updateById newId f (uploads (state w)) ->
  (forall p, In p (awaiting w') -> isFetch p = false) ->
  (forall tm, In tm (timers w') -> isStage tm = false) ->
  run_ok w'.
Proof.
  intros [Rids Rfl Ridle Rtm Rfe Rex Rf Rs] Hu Ei Hp Hid Hdone Eu Ha Ht.
  assert (H0 : in_flight (updateById newId f (uploads (state w))) = 0%nat).
  { apply (in_flight_update_done newId f _ u); auto. }
  constructor; rewrite ?Eu.
  - rewrite updateById_ids; auto.
  - rewrite H0. lia.
  - auto.
  - intros tm1 tm2 Hin1 _ E1. rewrite (Ht tm1 Hin1) in E1. discriminate.
  - intros p1 p2 Hin1 _ E1. rewrite (Ha p1 Hin1) in E1. discriminate.
  - intros tm p Hin _ E. rewrite (Ht tm Hin) in E. discriminate.
  - intros p newId' n t f' Hin. specialize (Ha _ Hin). discriminate.
  - intros tm newId' gd' rest' Hin Hcb. specialize (Ht tm Hin).
    unfold isStage in Ht. rewrite Hcb in Ht. discriminate.
Qed.

Lemma isStage_plain tm : isStage tm = true -> isInterval tm = false.
Proof.
  unfold isStage, isInterval, isUploadTick, isCountdownTick.
  destruct (tm_cb tm); auto; discriminate.
Qed.

Lemma fresh_same_ids d w w' :
  map id (uploads (state w')) = map id (uploads (state w)) -> fresh d w -> fresh d w'.
Proof. unfold fresh. intros ->. auto. Qed.

(** *** Rendering *)

Lemma commit_run_ok d w :
  run_ok w -> (fires w = true -> fresh d w) -> run_ok (commit d w).
Proof.
  intros Hr Hfr.
  assert (Ht : forall tm, In tm (timers (commit d w)) -> isStage tm = true ->
                 In tm (timers w)).
  { intros tm Hin E. destruct (in_commit _ _ _ Hin) as [H|H]; [exact H|].
    rewrite (isStage_plain _ E) in H. discriminate. }
  destruct (fires w) eqn:Hf.
  - pose proof Hf as Hf'. unfold fires in Hf'.
    rewrite !andb_true_iff, negb_true_iff in Hf'. destruct Hf' as [_ Hp].
    apply (run_ok_start w _ d (closure_of (state w)) (now w) (nextPromise w)
             (niche (state w)) (tone (state w)) (format (state w))); auto.
    + rewrite uploads_commit, Hf. reflexivity.
    + rewrite isProcessing_commit, Hf. apply orb_true_r.
    + intros p Hin _. rewrite awaiting_commit, Hf in Hin.
      apply in_app_iff in Hin. destruct Hin as [H|[<-|[]]]; auto.
  - apply (run_ok_frame w); auto.
    + rewrite uploads_commit, Hf. reflexivity.
    + rewrite isProcessing_commit, Hf. apply orb_false_r.
    + intros p Hin _. rewrite awaiting_commit, Hf in Hin. exact Hin.
Qed.

Lemma flush_run_ok d w :
  run_ok w -> (fires w = true -> fresh d w) -> run_ok (flush d w).
Proof.
  intros Hr Hfr. rewrite flush_eq.
  apply commit_run_ok; [|rewrite fires_commit; discriminate].
  apply commit_run_ok; [|rewrite fires_commit; discriminate].
  apply commit_run_ok; assumption.
Qed.

(** *** Handlers *)

Lemma find_awaited_in p w a : find_awaited p w = Some a -> In (p, a) (awaiting w).
Proof.
  unfold find_awaited. destruct (find _ _) as [[q b]|] eqn:Hf; [|discriminate].
  cbn. intros [= <-]. apply find_some in Hf. cbn in Hf.
  destruct Hf as [Hin E]. apply Nat.eqb_eq in E. subst q. exact Hin.
Qed.

Lemma in_settle q p w : In q (awaiting (settle p w)) <-> In q (awaiting w) /\ fst q <> p.
Proof. cbn. rewrite filter_In, negb_true_iff, Nat.eqb_neq. tauto. Qed.

(** The stage delays left in the table once timer [tm] has fired. *)
Lemma in_rearm_stage tm x w :
  sched_ok w -> run_ok w -> In tm (timers w) ->
  In x (timers (rearm tm w)) -> isStage x = true ->
  In x (timers w) /\ tm_id x <> tm_id tm.
Proof.
  intros [Hok _] Hr Htm Hx Ex. unfold rearm in Hx.
  destruct (tm_every tm) as [p|] eqn:Hp.
  - cbn in Hx. apply in_map_iff in Hx. destruct Hx as [y [E Hy]].
    destruct (Nat.eqb (tm_id y) (tm_id tm)) eqn:Ei.
    + exfalso. apply Nat.eqb_eq in Ei.
      assert (y = tm) as -> by (apply (same_id_same_timer w); auto; apply Hok).
      subst x. unfold isStage in Ex. cbn in Ex.
      destruct (tm_cb tm) as [| |newId gd rest| |] eqn:Hcb; try discriminate.
      destruct (ro_stage _ Hr tm newId gd rest Htm Hcb) as [Hn _]. congruence.
    + subst x. apply Nat.eqb_neq in Ei. auto.
  - apply in_clearInterval in Hx. exact Hx.
Qed.

Lemma no_stage_after tm x w :
  sched_ok w -> run_ok w -> In tm (timers w) -> isStage tm = true ->
  In x (timers (rearm tm w)) -> isStage x = false.
Proof.
  intros Hs Hr Htm Et Hx. destruct (isStage x) eqn:Ex; [|reflexivity]. exfalso.
  destruct (in_rearm_stage tm x w Hs Hr Htm Hx Ex) as [Hin Hne].
  apply Hne. rewrite (ro_timers _ Hr x tm Hin Htm Ex Et). reflexivity.
Qed.

Lemma performUpload_run_ok c d w0 w :
  run_ok w0 -> fresh d w0 ->
  c_isProcessing c = isProcessing (state w0) ->
  state w = state w0 -> awaiting w = awaiting w0 ->
  (forall tm, In tm (timers w) -> isStage tm = true -> In tm (timers w0)) ->
  run_ok (performUpload c d w)
  /\ (fresh d (performUpload c d w) \/ isProcessing (state (performUpload c d w)) = true).
Proof.
  intros Hr Hfr Ec Es Ea Ht.
  destruct (c_isProcessing c || negb (c_isConnected c)) eqn:Hg.
  - rewrite (performUpload_dropped _ _ _ Hg). split.
    + apply (run_ok_frame w0); auto; rewrite ?Es, ?Ea; auto.
    + left. apply (fresh_same_ids d w0); [rewrite Es; reflexivity|assumption].
  - apply orb_false_iff in Hg as Hg'. destruct Hg' as [Hp _]. rewrite Ec in Hp.
    split.
    + apply (run_ok_start w0 _ d c (now w) (nextPromise w) (c_niche c) (c_tone c)
               (c_format c)); auto.
      * rewrite state_performUpload, Hg, Es. reflexivity.
      * rewrite state_performUpload, Hg. reflexivity.
      * rewrite timers_performUpload. exact Ht.
      * intros p Hin _. rewrite awaiting_performUpload, Hg, Ea in Hin.
        apply in_app_iff in Hin. destruct Hin as [H|[<-|[]]]; auto.
    + right. rewrite state_performUpload, Hg. reflexivity.
Qed.

Lemma handle_run_ok e d w w1 :
  run_ok w -> sched_ok w -> rendered w = state w -> fresh d w ->
  handle e d w = Some w1 ->
  run_ok w1 /\ (fresh d w1 \/ isProcessing (state w1) = true).
Proof.
  intros Hr Hs Hrd Hfr Hh.
  assert (Frame : forall w', uploads (state w') = uploads (state w) ->
             isProcessing (state w') = isProcessing (state w) ->
             (forall tm, In tm (timers w') -> isStage tm = true -> In tm (timers w)) ->
             (forall p, In p (awaiting w') -> isFetch p = true -> In p (awaiting w)) ->
             run_ok w' /\ (fresh d w' \/ isProcessing (state w') = true)).
  { intros w' Eu Ep Ht Ha. split; [apply (run_ok_frame w); auto|].
    left. apply (fresh_same_ids d w); [rewrite Eu; reflexivity|assumption]. }
  unfold handle in Hh. destruct e; try (injection Hh as <-).
  - apply Frame; auto.
  - apply Frame; auto.
  - apply Frame; auto. cbn. intros tm Hin E. apply in_app_iff in Hin.
    destruct Hin as [H|[<-|[]]]; [exact H|discriminate].
  - unfold handleGoogleLogin. destruct aistudio; apply Frame; auto.
    + cbn. intros p Hin E. apply in_app_iff in Hin.
      destruct Hin as [H|[<-|[]]]; [exact H|discriminate].
    + cbn. intros tm Hin E. apply in_app_iff in Hin.
      destruct Hin as [H|[<-|[]]]; [exact H|discriminate].
  - apply Frame; auto.
  - apply Frame; auto.
  - apply Frame; auto.
  - apply Frame; auto.
  - apply Frame; auto.
  - apply (performUpload_run_ok _ d w); auto. rewrite Hrd. reflexivity.
  - destruct (find_timer i w) as [tm|] eqn:Hf; [|discriminate].
    destruct (_ =? _)%Z; [|discriminate]. injection Hh as <-.
    apply find_timer_in in Hf. destruct Hf as [Htm _].
    assert (Hst : forall x, In x (timers (rearm tm w)) -> isStage x = true ->
                    In x (timers w)).
    { intros x Hx Ex. apply (in_rearm_stage tm x w Hs Hr Htm Hx Ex). }
    unfold fire.
    destruct (tm_cb tm) as [c| |newId gd rest|email|] eqn:Hcb.
    + destruct (iv_upload _ (proj2 Hs) tm c Htm Hcb) as [Ec _].
      destruct (performUpload_run_ok c d w (rearm tm w)) as [R F]; auto;
        autorewrite with world; auto.
      { rewrite Ec, Hrd. reflexivity. }
      split.
      * apply (run_ok_frame _ _ R); auto.
      * destruct F as [F|F]; [left|right; exact F].
        apply (fresh_same_ids d _ _ (eq_refl) F).
    + apply Frame; cbn; autorewrite with world; auto.
    + assert (Et : isStage tm = true) by (unfold isStage; rewrite Hcb; reflexivity).
      pose proof (fun x => no_stage_after tm x w Hs Hr Htm Et) as Hnone.
      destruct (ro_stage _ Hr tm newId gd rest Htm Hcb) as [_ [u (Hu & Ei & Est)]].
      assert (Hp : in_progress u = true) by (unfold in_progress; rewrite Est; reflexivity).
      assert (Hna : forall p, In p (awaiting w) -> isFetch p = false).
      { intros p Hin. destruct (isFetch p) eqn:E; [|reflexivity].
        destruct (ro_excl _ Hr tm p Htm Hin Et E). }
      unfold performUpload_loop. destruct rest as [|st rest'].
      * rewrite setUploads_final by (rewrite state_rearm; apply (ro_ids _ Hr)).
        split; [|left; apply (fresh_same_ids d w); [|assumption]].
        -- apply (run_ok_finish w _ newId (finalUpdate newId d 0) u); auto.
           ++ cbn. rewrite state_rearm. reflexivity.
           ++ cbn. rewrite awaiting_rearm. exact Hna.
        -- cbn. rewrite state_rearm. apply updateById_ids. reflexivity.
      * split; [|left; apply (fresh_same_ids d w); [|assumption]].
        -- apply (run_ok_advance w _ newId gd st rest' u); auto.
           ++ cbn. rewrite state_rearm. reflexivity.
           ++ cbn. rewrite state_rearm. reflexivity.
           ++ cbn. rewrite awaiting_rearm. exact Hna.
           ++ cbn. intros x Hx Ex. apply in_app_iff in Hx.
              destruct Hx as [Hx|[<-|[]]].
              ** rewrite (Hnone x Hx) in Ex. discriminate.
              ** cbn. rewrite nextTimer_rearm, now_rearm. auto.
        -- cbn. rewrite state_rearm. apply updateById_ids. reflexivity.
    + apply Frame; cbn; autorewrite with world; auto.
    + apply Frame; cbn; autorewrite with world; auto.
  - destruct (find_awaited p w) as [[newId n t f|]|] eqn:Hf; try discriminate.
    injection Hh as <-. apply find_awaited_in in Hf.
    assert (Ef : isFetch (p, Fetch newId n t f) = true) by reflexivity.
    assert (Hna : forall q, In q (awaiting (settle p w)) -> isFetch q = false).
    { intros q Hq. apply in_settle in Hq. destruct Hq as [Hq Hne].
      destruct (isFetch q) eqn:E; [|reflexivity]. exfalso. apply Hne.
      rewrite (ro_fetches _ Hr q _ Hq Hf E Ef). reflexivity. }
    assert (Hnt : forall tm, In tm (timers w) -> isStage tm = false).
    { intros tm Hin. destruct (isStage tm) eqn:E; [|reflexivity].
      destruct (ro_excl _ Hr tm _ Hin Hf E Ef). }
    destruct (ro_fetch _ Hr p newId n t f Hf) as [u (Hu & Ei & Est & _)].
    assert (Hp : in_progress u = true) by (unfold in_progress; rewrite Est; reflexivity).
    unfold performUpload_fetched. destruct result as [gd|].
    + unfold performUpload_loop, stages.
      split; [|left; apply (fresh_same_ids d w); [|assumption]].
      * apply (run_ok_advance w _ newId gd strategy_mapping
                 [script_generation; neural_rendering; voice_synthesis;
                  qc_validation; publishing] u); auto.
        cbn. intros x Hx Ex. apply in_app_iff in Hx.
        destruct Hx as [Hx|[<-|[]]].
        -- rewrite (Hnt x Hx) in Ex. discriminate.
        -- cbn. auto.
      * cbn. apply updateById_ids. reflexivity.
    + split; [|left; apply (fresh_same_ids d w); [|assumption]].
      * apply (run_ok_finish w _ newId failUpdate u); auto.
      * cbn. apply updateById_ids. reflexivity.
  - destruct (find_awaited p w) as [[newId n t f|]|] eqn:Hf; try discriminate.
    injection Hh as <-.
    assert (Ha : forall q, In q (awaiting (settle p w)) -> isFetch q = true ->
                   In q (awaiting w)).
    { intros q Hq _. apply in_settle in Hq. apply Hq. }
    unfold handleGoogleLogin_selected. destruct ok; apply Frame; auto.
    cbn. intros tm Hin E. apply in_app_iff in Hin.
    destruct Hin as [H|[<-|[]]]; [exact H|discriminate].
Qed.

Lemma run_ok_set_now t w : run_ok w -> run_ok (set_now t w).
Proof. intros H. apply (run_ok_frame w); auto. Qed.

Lemma init_run_ok : run_ok init.
Proof.
  rewrite init_eq. constructor; cbn; try (intros; contradiction).
  - constructor.
  - lia.
  - intros _. split; [reflexivity|]. split; intros; contradiction.
Qed.

Lemma step_run_ok i w w' :
  run_ok w -> sched_ok w -> rendered w = state w -> fresh (draws i) w ->
  step i w = Some w' -> run_ok w'.
Proof.
  intros Hr Hs Hrd Hfr Hst. apply step_inv in Hst. destruct Hst as [_ [w1 [Hh ->]]].
  destruct (handle_run_ok (event i) (draws i) (set_now (at_time i) w) w1) as [R F]; auto.
  - apply run_ok_set_now, Hr.
  - apply set_now_sched_ok, Hs.
  - apply flush_run_ok; [exact R|].
    intros Hf. destruct F as [F|F]; [exact F|].
    unfold fires in Hf. rewrite F, andb_false_r in Hf. discriminate.
Qed.

Lemma reachable_fresh_run_ok w : reachable_fresh w -> run_ok w.
Proof.
  induction 1 as [|i w w' Hw IH Hfr Hs].
  - apply init_run_ok.
  - pose proof (reachable_fresh_reachable _ Hw) as Hw'.
    apply (step_run_ok i w); auto.
    + apply reachable_sched_ok, Hw'.
    + apply reachable_settled, Hw'.
Qed.

(** ** What one step does to the store *)

Lemma handle_store e d w w1 :
  run_ok w -> handle e d w = Some w1 ->
  exists news mid,
    uploads (state w1) = news ++ mid /\ updated w d e mid
    /\ (news = []
        \/ (exists c, news = [initialRecord (d_id d) c (now w)])
           /\ isProcessing (state w1) = true).
Proof.
  intros Hr Hh.
  assert (Same : forall w', uploads (state w') = uploads (state w) ->
            exists news mid,
              uploads (state w') = news ++ mid /\ updated w d e mid
              /\ (news = []
                  \/ (exists c, news = [initialRecord (d_id d) c (now w)])
                     /\ isProcessing (state w') = true)).
  { intros w' E. exists [], (uploads (state w)). rewrite E.
    split; [reflexivity|]. split; [constructor|auto]. }
  assert (Perf : forall c w', state w' = state w -> now w' = now w ->
            exists news mid,
              uploads (state (setTimeLeft 60 (performUpload c d w'))) = news ++ mid
              /\ updated w d e mid
              /\ (news = []
                  \/ (exists c, news = [initialRecord (d_id d) c (now w)])
                     /\ isProcessing (state (setTimeLeft 60 (performUpload c d w'))) = true)).
  { intros c w' Es En. cbn. rewrite state_performUpload.
    destruct (_ || _).
    - exists [], (uploads (state w)). rewrite Es.
      split; [reflexivity|]. split; [constructor|auto].
    - exists [initialRecord (d_id d) c (now w)], (uploads (state w)). cbn.
      rewrite Es, En. split; [reflexivity|]. split; [constructor|]. right. eauto. }
  unfold handle in Hh. destruct e; try (injection Hh as <-; try (apply Same; reflexivity)).
  - unfold handleGoogleLogin. destruct aistudio; apply Same; reflexivity.
  - destruct (Perf (closure_of (rendered w)) w eq_refl eq_refl) as (news & mid & E & U & N).
    exists news, mid. cbn in E, N. auto.
  - destruct (find_timer i w) as [tm|] eqn:Hf; [|discriminate].
    destruct (_ =? _)%Z; [|discriminate]. injection Hh as <-.
    pose proof (find_timer_in _ _ _ Hf) as [Htm _].
    unfold fire.
    destruct (tm_cb tm) as [c| |newId gd rest|email|] eqn:Hcb.
    + apply Perf; autorewrite with world; reflexivity.
    + apply Same. cbn. rewrite state_rearm. reflexivity.
    + destruct (ro_stage _ Hr tm newId gd rest Htm Hcb) as [_ [u (Hu & Ei & Est)]].
      exists [], (updateById newId
                    (match rest with
                     | st :: _ => stageUpdate gd st
                     | [] => finalUpdate newId d 0
                     end) (uploads (state w))).
      split; [|split; [apply (up_staged w d _ i tm newId gd rest u); auto|auto]].
      unfold performUpload_loop. destruct rest; cbn; rewrite state_rearm;
        rewrite ?(finalUpdates_unique _ _ _ (ro_ids _ Hr)); reflexivity.
    + apply Same. cbn. rewrite state_rearm. reflexivity.
    + apply Same. cbn. rewrite state_rearm. reflexivity.
  - destruct (find_awaited p w) as [[newId n t f|]|] eqn:Hf; try discriminate.
    injection Hh as <-.
    destruct (ro_fetch _ Hr p newId n t f (find_awaited_in _ _ _ Hf))
      as [u (Hu & Ei & Est & Esg)].
    exists [], (updateById newId
                  (match result with
                   | Some gd => stageUpdate gd strategy_mapping
                   | None => failUpdate
                   end) (uploads (state w))).
    split; [|split; [apply (up_fetched w d _ p newId n t f result u); auto|auto]].
    unfold performUpload_fetched, performUpload_loop, stages. destruct result; reflexivity.
  - destruct (find_awaited p w) as [[newId n t f|]|] eqn:Hf; try discriminate.
    injection Hh as <-. unfold handleGoogleLogin_selected.
    destruct ok; apply Same; reflexivity.
Qed.

Lemma now_handle e d w w1 : handle e d w = Some w1 -> now w1 = now w.
Proof.
  unfold handle. destruct e; try (intros [= <-]; try reflexivity).
  - unfold handleGoogleLogin. destruct aistudio; reflexivity.
  - apply now_performUpload.
  - destruct (find_timer i w) as [tm|] eqn:Hf; [|discriminate].
    destruct (_ =? _)%Z; [|discriminate]. intros [= <-].
    unfold fire, performUpload_loop, handleConnect_resumed, handleGoogleLogin_resumed,
      setupMockChannel.
    destruct (tm_cb tm) as [c| |newId gd [|st rest]|email|]; wsimpl;
      autorewrite with world; reflexivity.
  - destruct (find_awaited p w) as [[newId n t f|]|]; try discriminate.
    intros [= <-]. unfold performUpload_fetched, performUpload_loop, stages.
    destruct result; reflexivity.
  - destruct (find_awaited p w) as [[newId n t f|]|]; try discriminate.
    intros [= <-]. unfold handleGoogleLogin_selected. destruct ok; reflexivity.
Qed.

(** A step puts at most one new record in front of the store, and
    applies at most one update, that of the resumed run, to the rest. *)
Lemma step_store i w w' :
  run_ok w -> step i w = Some w' ->
  exists news mid,
    uploads (state w') = news ++ mid
    /\ updated (set_now (at_time i) w) (draws i) (event i) mid
    /\ inserted (draws i) (at_time i) news.
Proof.
  intros Hr Hs. apply step_inv in Hs. destruct Hs as [_ [w1 [Hh ->]]].
  destruct (handle_store _ _ _ _ (run_ok_set_now (at_time i) _ Hr) Hh)
    as (news & mid & E & U & N).
  rewrite state_flush, uploads_commit, E.
  destruct (fires w1) eqn:Hf.
  - destruct N as [-> | [_ Hp]].
    + exists [initialRecord (d_id (draws i)) (closure_of (state w1)) (now w1)], mid.
      split; [reflexivity|]. split; [exact U|]. right.
      rewrite (now_handle _ _ _ _ Hh). cbn. eauto.
    + unfold fires in Hf. rewrite Hp, andb_false_r in Hf. discriminate.
  - exists news, mid. split; [reflexivity|]. split; [exact U|].
    destruct N as [-> | [[c ->] _]]; [left; reflexivity|right; cbn; eauto].
Qed.

(** ** Dropped triggers *)

Lemma manual_dropped w t d w' :
  reachable w ->
  isProcessing (state w) || negb (isConnected (state w)) = true ->
  step {| at_time := t; draws := d; event := ManualTrigger |} w = Some w' ->
  w' = set_now t w.
Proof.
  intros Hw Hg Hs. pose proof (reachable_settled _ Hw) as Hr.
  apply step_inv in Hs. destruct Hs as [_ [w1 [Hh ->]]].
  cbn [at_time draws event] in *. unfold handle in Hh. injection Hh as <-.
  rewrite performUpload_dropped.
  - apply flush_unchanged. exact Hr.
  - cbn. rewrite Hr. exact Hg.
Qed.

Lemma manual_started w t d w' :
  reachable w ->
  isProcessing (state w) = false -> isConnected (state w) = true ->
  step {| at_time := t; draws := d; event := ManualTrigger |} w = Some w' ->
  uploads (state w') = initialRecord (d_id d) (closure_of (state w)) t :: uploads (state w)
  /\ isProcessing (state w') = true
  /\ awaiting w' =
     awaiting w ++ [(nextPromise w,
                     Fetch (d_id d) (niche (state w)) (tone (state w)) (format (state w)))].
Proof.
  intros Hw Hp Hc Hs. pose proof (reachable_settled _ Hw) as Hr.
  apply step_inv in Hs. destruct Hs as [_ [w1 [Hh ->]]].
  cbn [at_time draws event] in *. unfold handle in Hh. injection Hh as <-.
  assert (Hg : c_isProcessing (closure_of (rendered w))
               || negb (c_isConnected (closure_of (rendered w))) = false).
  { cbn. rewrite Hr, Hp, Hc. reflexivity. }
  set (w1 := performUpload _ d (set_now t w)).
  assert (E : state w1 = set_uploads (insert (initialRecord (d_id d) (closure_of (state w)) t))
                           (set_isProcessing true (state w))).
  { unfold w1. rewrite state_performUpload, Hg. cbn. rewrite Hr. reflexivity. }
  assert (Hf : fires w1 = false).
  { unfold fires. rewrite E. cbn. apply andb_false_r. }
  rewrite state_flush, uploads_commit, isProcessing_commit, awaiting_flush,
    awaiting_commit, Hf, E. cbn.
  split; [reflexivity|]. split; [reflexivity|].
  unfold w1. rewrite awaiting_performUpload, Hg. cbn. rewrite Hr. reflexivity.
Qed.

Lemma tick_dropped w j tm c t d w' :
  reachable w -> isProcessing (state w) = true ->
  find_timer j w = Some tm -> tm_cb tm = UploadTick c ->
  step {| at_time := t; draws := d; event := TimerFires j |} w = Some w' ->
  uploads (state w') = uploads (state w)
  /\ isProcessing (state w') = true
  /\ awaiting w' = awaiting w.
Proof.
  intros Hw Hp Hf Hcb Hs. pose proof (reachable_settled _ Hw) as Hr.
  destruct (step_fires j tm _ w w' Hs eq_refl Hf) as [_ ->].
  cbn [at_time draws].
  destruct (iv_upload _ (proj2 (reachable_sched_ok _ Hw)) tm c
              (proj1 (find_timer_in _ _ _ Hf)) Hcb) as [Ec _].
  assert (Hg : c_isProcessing c || negb (c_isConnected c) = true).
  { rewrite Ec, Hr. cbn. rewrite Hp. reflexivity. }
  set (w1 := fire tm d (set_now t w)).
  assert (E1 : w1 = setTimeLeft 60 (rearm tm (set_now t w))).
  { unfold w1, fire. rewrite Hcb, (performUpload_dropped _ _ _ Hg). reflexivity. }
  assert (Hfi : fires w1 = false).
  { unfold fires. rewrite E1. cbn. autorewrite with world. cbn.
    rewrite Hr, uploadDeps_timeLeft, uploadDeps_refl. reflexivity. }
  rewrite state_flush, uploads_commit, isProcessing_commit, awaiting_flush,
    awaiting_commit, Hfi, E1. cbn. autorewrite with world. cbn.
  rewrite Hp. auto.
Qed.

(** X19.  One run at a time, as long as every event is rendered to rest
    before the next one arrives and [Math.random()] does not give an id a
    second time.  Then at most one record is pending or processing; while
    the guard is taken a manual trigger changes nothing but the clock, and
    a tick of the upload interval leaves the store, the guard and the
    awaited promises as they are; so of two manual triggers in a row only
    the first adds a record. *)
Theorem single_flight : forall w, reachable_fresh w ->
  (in_flight (uploads (state w)) <= 1)%nat
  /\ (isProcessing (state w) = true ->
      (forall t d w',
         step {| at_time := t; draws := d; event := ManualTrigger |} w = Some w' ->
         w' = set_now t w)
      /\ (forall j tm c t d w',
            find_timer j w = Some tm -> tm_cb tm = UploadTick c ->
            step {| at_time := t; draws := d; event := TimerFires j |} w = Some w' ->
            uploads (state w') = uploads (state w)
            /\ isProcessing (state w') = true
            /\ awaiting w' = awaiting w))
  /\ (isProcessing (state w) = false -> isConnected (state w) = true ->
      forall t1 d1 w1 t2 d2 w2,
        step {| at_time := t1; draws := d1; event := ManualTrigger |} w = Some w1 ->
        step {| at_time := t2; draws := d2; event := ManualTrigger |} w1 = Some w2 ->
        uploads (state w2) = uploads (state w1)
        /\ List.length (uploads (state w2)) = S (List.length (uploads (state w)))).
Proof.
  intros w Hf. pose proof (reachable_fresh_reachable _ Hf) as Hw.
  split; [apply (ro_flight _ (reachable_fresh_run_ok _ Hf))|]. split.
  - intros Hp. split.
    + intros t d w' Hs. apply (manual_dropped w t d w' Hw); [|exact Hs].
      rewrite Hp. reflexivity.
    + intros j tm c t d w'. apply tick_dropped; assumption.
  - intros Hp Hc t1 d1 w1 t2 d2 w2 Hs1 Hs2.
    destruct (manual_started w t1 d1 w1 Hw Hp Hc Hs1) as (E1 & P1 & _).
    assert (Hw1 : reachable w1) by exact (reach_step _ _ _ Hw Hs1).
    rewrite (manual_dropped w1 t2 d2 w2 Hw1); [|rewrite P1; reflexivity|exact Hs2].
    cbn. rewrite E1. cbn. auto.
Qed.

(** ** Records over time *)

Lemma Forall2_map_in {A} (R : A -> A -> Prop) (g : A -> A) (l : list A) :
  (forall x, In x l -> R x (g x)) -> Forall2 R l (map g l).
Proof.
  induction l as [|x l IH]; cbn; intros H; constructor; auto.
Qed.

Lemma Forall2_updateById (R : UploadRecord -> UploadRecord -> Prop) newId f l u :
  NoDup (map id l) -> In u l -> id u = newId ->
  R u (f u) -> (forall x, id x <> newId -> R x x) ->
  Forall2 R l (updateById newId f l).
Proof.
  intros Hd Hu Ei Ru Rx. apply Forall2_map_in. intros x Hx.
  destruct (String.eqb (id x) newId) eqn:E.
  - apply String.eqb_eq in E. rewrite (unique_id l u x Hd Hu Hx) by congruence. exact Ru.
  - apply String.eqb_neq in E. auto.
Qed.

Lemma Forall_updateById (P : UploadRecord -> Prop) newId f l u :
  NoDup (map id l) -> In u l -> id u = newId ->
  P (f u) -> Forall P l -> Forall P (updateById newId f l).
Proof.
  intros Hd Hu Ei Pu Hl. apply Forall_forall. intros y Hy.
  apply in_updateById in Hy. destruct Hy as [x [Hx ->]].
  destruct (String.eqb (id x) newId) eqn:E.
  - apply String.eqb_eq in E. rewrite (unique_id l u x Hd Hu Hx) by congruence. exact Pu.
  - rewrite Forall_forall in Hl. auto.
Qed.

Lemma Forall2_same {A} (R : A -> A -> Prop) (l : list A) :
  (forall x, R x x) -> Forall2 R l l.
Proof. intros H. induction l; constructor; auto. Qed.




(** ** Looking a record up by id *)

Lemma find_id_unique l u :
  NoDup (map id l) -> In u l -> find (fun x => String.eqb (id x) (id u)) l = Some u.
Proof.
  intros Hd Hu. destruct (find _ l) as [x|] eqn:Hf.
  - apply find_some in Hf. destruct Hf as [Hx E]. apply String.eqb_eq in E.
    f_equal. apply (unique_id l u x); auto.
  - apply (find_none _ _ Hf) in Hu. rewrite String.eqb_refl in Hu. discriminate.
Qed.

Lemma find_updateById newId f l :
  (forall x, id (f x) = id x) ->
  find (fun x => String.eqb (id x) newId) (updateById newId f l) =
  option_map f (find (fun x => String.eqb (id x) newId) l).
Proof.
  intros Hf. induction l as [|x l IH]; cbn; [reflexivity|].
  destruct (String.eqb (id x) newId) eqn:E.
  - rewrite Hf, E. reflexivity.
  - rewrite E. exact IH.
Qed.



Lemma fresh_other d w u : fresh d w -> In u (uploads (state w)) -> d_id d <> id u.
Proof. unfold fresh. intros Hfr Hu E. apply Hfr. rewrite E. apply in_map. exact Hu. Qed.

Lemma busy_of_fetch w p a :
  run_ok w -> In (p, a) (awaiting w) -> isFetch (p, a) = true ->
  isProcessing (state w) = true.
Proof.
  intros Hr Hin E. destruct (isProcessing (state w)) eqn:Hp; [reflexivity|].
  destruct (ro_idle _ Hr Hp) as (_ & _ & H). rewrite (H _ Hin) in E. discriminate.
Qed.



(** ** Failure of the metadata provider *)

(** X20.  What a rejected fetch does, as long as every event is rendered
    to rest before the next one arrives and [Math.random()] does not give
    an id a second time.  The catch and finally blocks mark the record of
    the run failed, still at [trend_scouting], and release the guard (as
    the success exit does).  With auto-mode off the guard is then free and
    a manual trigger starts a fresh run; with auto-mode on and the gate
    connected the re-run upload effect has already started one in the same
    step, and the guard is taken again. *)
Theorem guard_released_on_failure : forall w, reachable_fresh w ->
  forall p newId n to f, find_awaited p w = Some (Fetch newId n to f) ->
  forall t d w', fresh d w ->
    step {| at_time := t; draws := d; event := FetchSettles p None |} w = Some w' ->
    (forall d0 w0, isProcessing (state (performUpload_fetched newId None d0 w0)) = false)
    /\ (forall gd d0 w0, isProcessing (state (performUpload_loop newId gd [] d0 w0)) = false)
    /\ (exists u', record_of newId w' = Some u'
                   /\ status u' = failed /\ stage u' = trend_scouting)
    /\ (autoOn (state w) = false ->
        uploads (state w') = updateById newId failUpdate (uploads (state w))
        /\ isProcessing (state w') = false
        /\ (isConnected (state w') = true ->
            forall t2 d2 w2,
              step {| at_time := t2; draws := d2; event := ManualTrigger |} w' = Some w2 ->
              uploads (state w2) =
                initialRecord (d_id d2) (closure_of (state w')) t2 :: uploads (state w')
              /\ isProcessing (state w2) = true))
    /\ (autoOn (state w) = true ->
        (exists c, uploads (state w') =
                   initialRecord (d_id d) c t
                   :: updateById newId failUpdate (uploads (state w)))
        /\ isProcessing (state w') = true).
Proof.
  intros w Hf p newId n to f Hfa t d w' Hfr Hs.
  pose proof (reachable_fresh_reachable _ Hf) as Hw.
  pose proof (reachable_fresh_run_ok _ Hf) as Hr.
  pose proof (reachable_settled _ Hw) as Hrd.
  assert (Hw' : reachable w') by exact (reach_step _ _ _ Hw Hs).
  split; [reflexivity|]. split; [reflexivity|].
  pose proof (find_awaited_in _ _ _ Hfa) as Hin.
  destruct (ro_fetch _ Hr p newId n to f Hin) as [u (Hu & Ei & Est & Esg)].
  assert (Hbusy : isProcessing (state w) = true).
  { apply (busy_of_fetch w p _ Hr Hin). reflexivity. }
  pose proof Hs as Hs'. apply step_inv in Hs'. destruct Hs' as [_ [w1 [Hh E']]].
  cbn [at_time draws event] in *. unfold handle in Hh.
  change (find_awaited p (set_now t w)) with (find_awaited p w) in Hh.
  rewrite Hfa in Hh. injection Hh as <-.
  set (w1 := performUpload_fetched newId None d (settle p (set_now t w))) in *.
  assert (E1 : state w1 =
               set_isProcessing false
                 (set_uploads (updateById newId failUpdate) (state w))) by reflexivity.
  assert (Er : rendered w1 = state w) by exact Hrd.
  assert (Efi : fires w1 = autoOn (state w)).
  { unfold fires. rewrite Er, E1. unfold uploadDepsChanged, closure_eqb. cbn.
    rewrite Hbusy. cbn. rewrite !andb_false_r, andb_true_r. reflexivity. }
  assert (Eup : uploads (state w') =
                if autoOn (state w)
                then initialRecord (d_id d) (closure_of (state w1)) t
                     :: updateById newId failUpdate (uploads (state w))
                else updateById newId failUpdate (uploads (state w))).
  { rewrite E', state_flush, uploads_commit, Efi, E1. reflexivity. }
  assert (Epr : isProcessing (state w') = autoOn (state w)).
  { rewrite E', state_flush, isProcessing_commit, Efi, E1. reflexivity. }
  split.
  - exists (failUpdate u). split; [|split; [reflexivity|exact Esg]].
    assert (Hne : d_id d <> newId) by (rewrite <- Ei; apply (fresh_other _ w); assumption).
    unfold record_of. rewrite Eup.
    assert (Efind : find (fun x => String.eqb (id x) newId)
                      (updateById newId failUpdate (uploads (state w))) =
                    Some (failUpdate u)).
    { rewrite find_updateById by reflexivity. rewrite <- Ei.
      rewrite (find_id_unique _ u (ro_ids _ Hr) Hu). reflexivity. }
    destruct (autoOn (state w)); [|exact Efind].
    cbn. apply String.eqb_neq in Hne. rewrite Hne. exact Efind.
  - split.
    + intros Hoff. rewrite Hoff in *. split; [exact Eup|]. split; [exact Epr|].
      intros Hc t2 d2 w2 Hs2.
      destruct (manual_started w' t2 d2 w2 Hw' Epr Hc Hs2) as (A & B & _). auto.
    + intros Hon. rewrite Hon in *. split; [eauto|exact Epr].
Qed.

(** ** The stages of a run *)


Lemma at_stage_timer k newId gd t j w :
  at_stage k newId gd t j w -> find_timer j w = Some (stageTimeout newId gd k t j).
Proof. intros [_ H]. exact H. Qed.


Lemma stages_split k : (k < 5)%nat ->
  exists st, nth_error stages (S k) = Some st
             /\ skipn (S k) stages = st :: skipn (S (S k)) stages.
Proof.
  intros H. do 5 (destruct k as [|k]; [cbn; eauto|]). lia.
Qed.




(** ** The sample runs *)

Lemma fresh_b_sound d w : fresh_b d w = true -> fresh d w.
Proof.
  unfold fresh_b, fresh. rewrite negb_true_iff. intros H Hin.
  assert (existsb (String.eqb (d_id d)) (map id (uploads (state w))) = true);
    [|congruence].
  apply existsb_exists. exists (d_id d). split; [exact Hin|apply String.eqb_refl].
Qed.

Lemma run_fresh_sound tr : forall w w',
  reachable_fresh w -> run_fresh tr w = Some w' -> reachable_fresh w'.
Proof.
  induction tr as [|i tr IH]; cbn; intros w w' Hw H.
  - injection H as <-. exact Hw.
  - destruct (fresh_b (draws i) w) eqn:Hb; [|discriminate].
    destruct (step i w) as [w1|] eqn:Hs; [|discriminate].
    apply (IH w1); [|exact H].
    apply (fresh_step i w); [exact Hw|apply fresh_b_sound, Hb|exact Hs].
Qed.

Lemma sample_reachable tr :
  run_fresh tr init = Some (world_after tr) -> reachable_fresh (world_after tr).
Proof. apply run_fresh_sound, fresh_init. Qed.

Lemma manual_reachable : reachable_fresh (world_after manual_trace).
Proof. apply sample_reachable. vm_compute. reflexivity. Qed.

Lemma fetched_reachable : reachable_fresh (world_after fetched_trace).
Proof. apply sample_reachable. vm_compute. reflexivity. Qed.

Lemma publishing_reachable : reachable_fresh (world_after publishing_trace).
Proof. apply sample_reachable. vm_compute. reflexivity. Qed.

Lemma connect_reachable : reachable_fresh (world_after connect_trace).
Proof. apply sample_reachable. vm_compute. reflexivity. Qed.

Lemma login_reachable : reachable_fresh (world_after login_trace).
Proof. apply sample_reachable. vm_compute. reflexivity. Qed.

Lemma auto_on_reachable : reachable_fresh (world_after auto_on_trace).
Proof. apply sample_reachable. vm_compute. reflexivity. Qed.

Lemma step_sample tr i :
  run (tr ++ [i]) init = Some (world_after (tr ++ [i])) ->
  run tr init = Some (world_after tr) ->
  step i (world_after tr) = Some (world_after (tr ++ [i])).
Proof.
  intros H1 H0.
  assert (G : forall l w, run (l ++ [i]) w =
                          match run l w with Some w1 => step i w1 | None => None end).
  { induction l as [|x l IH]; cbn; intros w.
    - destruct (step i w); reflexivity.
    - destruct (step x w); [apply IH|reflexivity]. }
  rewrite G, H0 in H1. exact H1.
Qed.

Lemma fresh_sample newId w :
  fresh_b (sampleDraws newId) w = true -> fresh (sampleDraws newId) w.
Proof. apply fresh_b_sound. Qed.

(** *** Witnesses *)

Lemma single_flight_witness :
  (in_flight (uploads (state (world_after manual_trace))) <= 1)%nat
  /\ world_after (manual_trace ++ [input 2500 "z" ManualTrigger])
     = set_now 2500 (world_after manual_trace).
Proof.
  destruct (single_flight _ manual_reachable) as (A & B & _).
  split; [exact A|].
  apply (proj1 (B eq_refl) 2500 (sampleDraws "z")).
  apply (step_sample manual_trace (input 2500 "z" ManualTrigger)); vm_compute; reflexivity.
Defined.

Lemma fetched_step :
  step (input 2100 "c" (FetchSettles 0 (Some sampleData))) (world_after manual_trace)
  = Some (world_after fetched_trace).
Proof.
  apply (step_sample manual_trace (input 2100 "c" (FetchSettles 0 (Some sampleData))));
    vm_compute; reflexivity.
Qed.



Lemma guard_released_on_failure_witness :
  exists u', record_of "r1" (world_after (manual_trace ++ [input 2100 "c" (FetchSettles 0 None)]))
             = Some u'
             /\ status u' = failed /\ stage u' = trend_scouting.
Proof.
  refine (proj1 (proj2 (proj2
            (guard_released_on_failure _ manual_reachable 0%nat "r1"
               "AI Technology" "energetic" "shorts" eq_refl 2100 (sampleDraws "c") _ _ _)))).
  - apply fresh_sample. reflexivity.
  - apply (step_sample manual_trace (input 2100 "c" (FetchSettles 0 None)));
      vm_compute; reflexivity.
Defined.



Lemma scheduler_inert_while_disconnected_witness :
  isAutoActive (state (world_after [input 0 "a" ToggleAuto])) = true
  /\ isConnected (state (world_after [input 0 "a" ToggleAuto])) = false
  /\ uploads (state (world_after [input 0 "a" ToggleAuto])) = []
  /\ isProcessing (state (world_after [input 0 "a" ToggleAuto])) = false
  /\ awaiting (world_after [input 0 "a" ToggleAuto]) = []
  /\ (forall tm, In tm (timers (world_after [input 0 "a" ToggleAuto])) <-> False).
Proof.
  refine (proj1 (proj2 (scheduler_inert_while_disconnected init reach_init))
            eq_refl 0 (sampleDraws "a") _ _).
  vm_compute. reflexivity.
Defined.

Lemma connect_always_succeeds_witness :
  isConnected (state (world_after connect_trace)) = true
  /\ isConnecting (state (world_after connect_trace)) = false
  /\ showLoginModal (state (world_after connect_trace)) = false
  /\ exists c, channel (state (world_after connect_trace)) = Some c
       /\ Types.handle c = "@ada"%string.
Proof.
  destruct (connect_always_succeeds _ (reachable_fresh_reachable _ login_reachable)
              "ada@example.org") as (_ & _ & C & _).
  destruct (C 1%nat
              {| tm_id := 1; tm_due := 1500; tm_every := None;
                 tm_cb := ConnectDelay "ada@example.org" |}
              1500 (sampleDraws "b") (world_after connect_trace))
    as (_ & _ & A & B & D & c & namePart & E & F & G & H & _).
  - vm_compute. reflexivity.
  - reflexivity.
  - apply (step_sample login_trace (input 1500 "b" (TimerFires 1)));
      vm_compute; reflexivity.
  - do 3 (split; [assumption|]). exists c. split; [exact E|].
    rewrite H. f_equal.
    destruct F as [F | [rest F]].
    + exfalso. apply (G "@"%char); [|reflexivity].
      rewrite <- F. cbn. auto 10.
    + clear - F G.
      do 3 (destruct namePart as [|? namePart]; [discriminate|];
            cbn in F; injection F as <- F).
      destruct namePart as [|x namePart]; [reflexivity|].
      cbn in F. injection F as <- F.
      exfalso. apply (G "@"%char); [cbn; auto|reflexivity].
Defined.

(** *** C5: the upload effect re-runs when a run ends *)

(** C5 (the code differs).  Auto-mode is switched on at 2000, the gate
    being connected, and run [r1] starts.  It ends at 14100; in that same
    step the upload effect runs again, because [performUpload] changed
    with [isProcessing], and starts run [r2]: 12.1 s after the first
    fire, not 60 s.  The upload interval never fired; it has been cleared
    and set again, and is now due at 74100. *)
Example auto_mode_restarts_when_a_run_ends :
  option_map store_view (run auto_trace init)
  = Some [("r2", 14100, pending, trend_scouting); ("r1", 2000, uploaded, publishing)]
  /\ option_map timers_view (run auto_trace init)
     = Some [(3%nat, 15000, Some 1000); (12%nat, 74100, Some 60000)]
  /\ option_map now (run auto_trace init) = Some 14100.
Proof. vm_compute. auto. Qed.

(** * Further properties of the component *)

(** ** Rendering comes to rest *)

Lemma uploadEffect_draws cur d d' w :
  autoOn cur && negb (isProcessing cur) = false ->
  uploadEffect cur d w = uploadEffect cur d' w.
Proof.
  intros H. destruct (autoOn cur) eqn:Ha.
  - cbn [andb] in H. apply negb_false_iff in H.
    rewrite !(uploadEffect_on _ _ _ Ha).
    rewrite !performUpload_dropped; [reflexivity| |]; cbn; rewrite H; reflexivity.
  - rewrite !(uploadEffect_off _ _ _ Ha). reflexivity.
Qed.

Lemma commit_draws d d' w : fires w = false -> commit d w = commit d' w.
Proof.
  unfold fires, commit, runEffects. intros H.
  destruct (uploadDepsChanged _ _); [|reflexivity].
  cbn [andb] in H.
  rewrite (uploadEffect_draws _ d d' _ H). reflexivity.
Qed.

Lemma rerender_settled n d w : rendered w = state w -> rerender n d w = w.
Proof.
  intros H. induction n as [|n IH]; [reflexivity|].
  cbn [rerender]. rewrite (commit_settled d w H). exact IH.
Qed.

(** A handler puts at most one record into the store, and takes the guard
    when it does. *)
Lemma handle_adds e d w w1 :
  handle e d w = Some w1 ->
  List.length (uploads (state w1)) = List.length (uploads (state w))
  \/ (List.length (uploads (state w1)) = S (List.length (uploads (state w)))
      /\ isProcessing (state w1) = true).
Proof.
  unfold handle. destruct e; try (intros [= <-]; auto).
  - unfold handleGoogleLogin. destruct aistudio; auto.
  - rewrite state_performUpload. destruct (_ || _); auto.
  - destruct (find_timer i w) as [tm|] eqn:Hf; [|discriminate].
    destruct (_ =? _)%Z; [|discriminate]. intros [= <-].
    unfold fire.
    destruct (tm_cb tm) as [c| |newId gd rest|email|] eqn:Hcb.
    + cbn. rewrite state_performUpload, state_rearm. destruct (_ || _); auto.
    + left. cbn. rewrite state_rearm. reflexivity.
    + left. unfold performUpload_loop.
      destruct rest; cbn; rewrite state_rearm;
        first [apply finalUpdates_length | apply updateById_length].
    + left. cbn. rewrite state_rearm. reflexivity.
    + left. cbn. rewrite state_rearm. reflexivity.
  - destruct (find_awaited p w) as [[newId n t f|]|]; try discriminate.
    intros [= <-]. left. unfold performUpload_fetched, performUpload_loop, stages.
    destruct result; cbn; apply updateById_length.
  - destruct (find_awaited p w) as [[newId n t f|]|]; try discriminate.
    intros [= <-]. unfold handleGoogleLogin_selected. destruct ok; auto.
Qed.

(** X1.  The effects set state that is among their own dependencies
    ([performUpload] sets [isProcessing], which changes [performUpload]),
    yet rendering stops: the second render draws no random number and
    starts no run, and a third changes nothing.  Rendering adds at most
    one record to the store, and so does a whole step, handler and renders
    together: when the handler starts a run the renders start none. *)
Theorem rendering_settles : forall d1 d2 d3 w,
  commit d2 (commit d1 w) = flush d1 w
  /\ commit d3 (flush d1 w) = flush d1 w
  /\ (forall n, rerender (2 + n) d1 w = flush d1 w)
  /\ (List.length (uploads (state (flush d1 w))) <= S (List.length (uploads (state w))))%nat
  /\ (forall i w', step i w = Some w' ->
        (List.length (uploads (state w)) <= List.length (uploads (state w'))
         <= S (List.length (uploads (state w))))%nat).
Proof.
  intros d1 d2 d3 w.
  assert (S3 : forall d, commit d (flush d1 w) = flush d1 w).
  { intros d. apply commit_settled, flush_settled. }
  split; [|split; [apply S3|split; [|split]]].
  - rewrite flush_two. apply commit_draws, fires_commit.
  - intros n. change (rerender (2 + n) d1 w) with (rerender n d1 (commit d1 (commit d1 w))).
    rewrite <- flush_two. apply rerender_settled, flush_settled.
  - rewrite state_flush, uploads_commit. destruct (fires w); cbn; lia.
  - intros i w' Hs. apply step_inv in Hs. destruct Hs as [_ [w1 [Hh ->]]].
    rewrite state_flush, uploads_commit.
    destruct (handle_adds _ _ _ _ Hh) as [E|[E Hp]]; cbn [state set_now] in E.
    + destruct (fires w1); cbn; lia.
    + unfold fires. rewrite Hp, andb_false_r. lia.
Qed.

(** ** The two intervals *)

Lemma filter_one {K T} (key : T -> K) (keep : T -> bool) (xs : list T) :
  NoDup (map key xs) ->
  (forall x y, In x xs -> In y xs -> keep x = true -> keep y = true -> key x = key y) ->
  (List.length (filter keep xs) <= 1)%nat.
Proof.
  induction xs as [|x xs IH]; cbn; intros Hd Hp; [lia|].
  inversion Hd as [|? ? Hx Hd']; subst.
  destruct (keep x) eqn:Ex.
  - rewrite (filter_nil keep xs); [cbn; lia|].
    intros y Hy. destruct (keep y) eqn:Ey; [|reflexivity]. exfalso. apply Hx.
    rewrite (Hp x y); auto. apply in_map, Hy.
  - apply IH; auto.
Qed.

Lemma filter_some {A} (p : A -> bool) (l : list A) x :
  In x l -> p x = true -> (1 <= List.length (filter p l))%nat.
Proof.
  intros Hin Hp. assert (H : In x (filter p l)) by (apply filter_In; auto).
  destruct (filter p l); [contradiction|cbn; lia].
Qed.

(** X2.  The effects' cleanups never leave an interval behind: exactly
    one upload interval and one countdown interval are pending while
    [isAutoActive && isConnected], none otherwise.  The upload interval
    calls the [performUpload] of the current state, never a stale one; it
    has period 60000, the countdown 1000; each is due within its period
    and is the timer its ref names. *)
Theorem intervals_never_leak : forall w, reachable w ->
  List.length (filter isUploadTick (timers w)) = (if autoOn (state w) then 1 else 0)%nat
  /\ List.length (filter isCountdownTick (timers w)) = (if autoOn (state w) then 1 else 0)%nat
  /\ (forall tm c, In tm (timers w) -> tm_cb tm = UploadTick c ->
        c = closure_of (state w) /\ tm_every tm = Some 60000
        /\ now w <= tm_due tm <= now w + 60000
        /\ uploadTimerRef w = Some (tm_id tm))
  /\ (forall tm, In tm (timers w) -> tm_cb tm = CountdownTick ->
        tm_every tm = Some 1000
        /\ now w <= tm_due tm <= now w + 1000
        /\ timerRef w = Some (tm_id tm)).
Proof.
  intros w Hw.
  destruct (reachable_sched_ok w Hw)
    as [[Knext Kids Kdup Kuref Kcref Kup Kcd] [Vup Vcd Von Varm]].
  pose proof (reachable_settled w Hw) as Hr.
  pose proof (reachable_due_ok w Hw) as Hd.
  assert (U1 : (List.length (filter isUploadTick (timers w)) <= 1)%nat).
  { apply (filter_one tm_id); [exact Kdup|]. intros x y Hx Hy Px Py.
    apply (Kup x Hx) in Px. apply (Kup y Hy) in Py. congruence. }
  assert (C1 : (List.length (filter isCountdownTick (timers w)) <= 1)%nat).
  { apply (filter_one tm_id); [exact Kdup|]. intros x y Hx Hy Px Py.
    apply (Kcd x Hx) in Px. apply (Kcd y Hy) in Py. congruence. }
  split; [|split; [|split]].
  - destruct (autoOn (state w)) eqn:Hon.
    + rewrite <- Hr in Hon. destruct (Varm Hon) as [[t1 [H1 P1]] _].
      pose proof (filter_some _ _ _ H1 P1). lia.
    + rewrite filter_nil; [reflexivity|]. intros tm Hin.
      pose proof (reachable_no_interval w tm Hw Hon Hin) as H.
      apply orb_false_iff in H. apply H.
  - destruct (autoOn (state w)) eqn:Hon.
    + rewrite <- Hr in Hon. destruct (Varm Hon) as [_ [t2 [H2 P2]]].
      pose proof (filter_some _ _ _ H2 P2). lia.
    + rewrite filter_nil; [reflexivity|]. intros tm Hin.
      pose proof (reachable_no_interval w tm Hw Hon Hin) as H.
      apply orb_false_iff in H. apply H.
  - intros tm c Hin Hcb. destruct (Vup tm c Hin Hcb) as [Ec Ee].
    rewrite Hr in Ec. split; [exact Ec|]. split; [exact Ee|].
    destruct (Hd tm Hin) as [D1 D2]. destruct (D2 _ Ee) as [_ D3].
    split; [lia|]. apply (Kup tm Hin). apply isUploadTick_cb. eauto.
  - intros tm Hin Hcb. pose proof (Vcd tm Hin Hcb) as Ee. split; [exact Ee|].
    destruct (Hd tm Hin) as [D1 D2]. destruct (D2 _ Ee) as [_ D3].
    split; [lia|]. apply (Kcd tm Hin). apply isCountdownTick_cb. exact Hcb.
Qed.

Lemma uploadDeps_ext prev a b :
  isAutoActive a = isAutoActive b -> isConnected a = isConnected b ->
  closure_of a = closure_of b ->
  uploadDepsChanged prev a = uploadDepsChanged prev b.
Proof. unfold uploadDepsChanged. intros -> -> ->. reflexivity. Qed.

(** When no dependency of the upload effect changed, rendering runs no
    effect. *)
Lemma flush_idle d w :
  uploadDepsChanged (rendered w) (state w) = false ->
  flush d w = set_rendered (state w) w.
Proof.
  intros H. rewrite flush_two, (commit_idle d w H). apply commit_settled. reflexivity.
Qed.


(** ** The connection as a guard *)

Lemma handle_ids e d w w1 :
  intervals_ok w -> rendered w = state w -> handle e d w = Some w1 ->
  map id (uploads (state w1)) = map id (uploads (state w))
  \/ isConnected (state w1) = true.
Proof.
  intros Hiv Hrd. unfold handle. destruct e; try (intros [= <-]; auto).
  - unfold handleGoogleLogin. destruct aistudio; auto.
  - rewrite state_performUpload. destruct (_ || _) eqn:E; [auto|].
    right. apply orb_false_iff in E. destruct E as [_ E].
    apply negb_false_iff in E. cbn in *. rewrite Hrd in E. exact E.
  - destruct (find_timer i w) as [tm|] eqn:Hf; [|discriminate].
    destruct (_ =? _)%Z; [|discriminate]. intros [= <-].
    apply find_timer_in in Hf. destruct Hf as [Hin _].
    unfold fire.
    destruct (tm_cb tm) as [c| |newId gd rest|email|] eqn:Hcb.
    + destruct (iv_upload _ Hiv tm c Hin Hcb) as [Ec _].
      cbn. rewrite state_performUpload. destruct (_ || _) eqn:E.
      * left. rewrite state_rearm. reflexivity.
      * right. apply orb_false_iff in E. destruct E as [_ E].
        apply negb_false_iff in E. subst c. cbn in *. rewrite state_rearm.
        rewrite Hrd in E. exact E.
    + left. cbn. rewrite state_rearm. reflexivity.
    + left. unfold performUpload_loop.
      destruct rest; cbn; rewrite state_rearm;
        first [apply finalUpdates_ids | apply updateById_ids; reflexivity].
    + right. reflexivity.
    + right. reflexivity.
  - destruct (find_awaited p w) as [[newId n t f|]|]; try discriminate.
    intros [= <-]. left. unfold performUpload_fetched, performUpload_loop, stages.
    destruct result; cbn; apply updateById_ids; reflexivity.
  - destruct (find_awaited p w) as [[newId n t f|]|]; try discriminate.
    intros [= <-]. unfold handleGoogleLogin_selected. destruct ok; auto.
Qed.

(** X4.  Nothing creates a record while the connection is closed.  A
    manual trigger there returns at the guard and changes nothing but the
    clock; and whatever the event (a trigger, a timer, a promise), a step
    that ends disconnected leaves the ids of the store as they were: the
    run in flight may go on, no record is added or removed. *)
Theorem no_record_while_disconnected : forall w, reachable w ->
  (isConnected (state w) = false ->
   forall t d w',
     step {| at_time := t; draws := d; event := ManualTrigger |} w = Some w' ->
     w' = set_now t w)
  /\ (forall i w', step i w = Some w' -> isConnected (state w') = false ->
        map id (uploads (state w')) = map id (uploads (state w))).
Proof.
  intros w Hw. split.
  - intros Hc t d w' Hs. apply (manual_dropped w t d w' Hw); [|exact Hs].
    rewrite Hc. apply orb_true_r.
  - intros i w' Hs Hc. apply step_inv in Hs. destruct Hs as [_ [w1 [Hh ->]]].
    destruct (flush_gate (draws i) w1) as (_ & Ecn & _). rewrite Ecn in Hc.
    pose proof (reachable_sched_ok _ Hw) as Hok.
    destruct (handle_ids _ _ _ _ (proj2 (set_now_sched_ok (at_time i) _ Hok))
                (reachable_settled _ Hw) Hh) as [E|E]; [|congruence].
    rewrite state_flush, uploads_commit.
    destruct (fires w1) eqn:Hf; [|exact E].
    unfold fires in Hf. rewrite !andb_true_iff in Hf. destruct Hf as [[_ Ha] _].
    apply autoOn_connected in Ha. congruence.
Qed.

(** ** Switching the scheduler on and off *)

Lemma in_uploadEffect_due tm cur d w :
  In tm (timers (uploadEffect cur d w)) -> In tm (timers w) \/ armed_at (now w) tm.
Proof.
  destruct (autoOn cur) eqn:Ha.
  - intros H. apply (in_uploadEffect_on _ _ _ _ Ha) in H. destruct H as [H| ->]; [auto|].
    right. split; [reflexivity|]. exists 60000. split; reflexivity.
  - rewrite (uploadEffect_off _ _ _ Ha). intros H. apply in_clearIfSet in H. tauto.
Qed.

Lemma in_countdownEffect_due tm cur w :
  In tm (timers (countdownEffect cur w)) -> In tm (timers w) \/ armed_at (now w) tm.
Proof.
  destruct (autoOn cur) eqn:Ha.
  - intros H. apply (in_countdownEffect_on _ _ _ Ha) in H. destruct H as [H| ->]; [auto|].
    right. split; [reflexivity|]. exists 1000. split; reflexivity.
  - rewrite (countdownEffect_off _ _ Ha). cbn. intros H. apply in_clearIfSet in H. tauto.
Qed.

Lemma in_commit_due tm d w :
  In tm (timers (commit d w)) -> In tm (timers w) \/ armed_at (now w) tm.
Proof.
  unfold commit, runEffects, uploadCleanup, countdownCleanup. cbv zeta.
  destruct (uploadDepsChanged _ _) eqn:Eu.
  - destruct (countdownDepsChanged _ _) eqn:Ec; intros H.
    + apply in_countdownEffect_due in H. autorewrite with world in H.
      destruct H as [H|H]; [|auto].
      apply in_uploadEffect_due in H. autorewrite with world in H.
      destruct H as [H|H]; [|auto].
      apply in_clearIfSet in H. destruct H as [H _].
      apply in_clearIfSet in H. destruct H as [H _]. auto.
    + apply in_uploadEffect_due in H. autorewrite with world in H.
      destruct H as [H|H]; [|auto].
      apply in_clearIfSet in H. destruct H as [H _]. auto.
  - rewrite (countdownDeps_of_upload _ _ Eu). auto.
Qed.

Lemma in_flush_due tm d w :
  In tm (timers (flush d w)) -> In tm (timers w) \/ armed_at (now w) tm.
Proof.
  rewrite flush_eq. intros H.
  apply in_commit_due in H. rewrite !now_commit in H. destruct H as [H|H]; [|auto].
  apply in_commit_due in H. rewrite !now_commit in H. destruct H as [H|H]; [|auto].
  apply in_commit_due in H. assumption.
Qed.

Lemma commit_settings d w :
  niche (state (commit d w)) = niche (state w)
  /\ tone (state (commit d w)) = tone (state w)
  /\ format (state (commit d w)) = format (state w).
Proof.
  rewrite state_commit. cbv zeta.
  destruct (uploadDepsChanged _ _); [|auto].
  destruct (autoOn _).
  - destruct (isProcessing _); cbn; auto.
  - destruct (countdownDepsChanged _ _); cbn; auto.
Qed.

Lemma flush_settings d w :
  niche (state (flush d w)) = niche (state w)
  /\ tone (state (flush d w)) = tone (state w)
  /\ format (state (flush d w)) = format (state w).
Proof. rewrite state_flush. apply commit_settings. Qed.

Lemma uploadDeps_autoOn prev cur :
  autoOn prev <> autoOn cur -> uploadDepsChanged prev cur = true.
Proof.
  intros H. destruct (uploadDepsChanged prev cur) eqn:E; [reflexivity|].
  destruct H. apply autoOn_same, countdownDeps_of_upload, E.
Qed.

Lemma countdownDeps_autoOn prev cur :
  autoOn prev <> autoOn cur -> countdownDepsChanged prev cur = true.
Proof.
  intros H. destruct (countdownDepsChanged prev cur) eqn:E; [reflexivity|].
  destruct H. apply autoOn_same, E.
Qed.

(** The handlers that touch [isAutoActive] or [isConnected]: the toggle,
    [handleDisconnect], and the two logins when their 1500 ms are over. *)
Lemma handle_gate e d w w1 :
  handle e d w = Some w1 ->
  (isAutoActive (state w1) = isAutoActive (state w)
   /\ isConnected (state w1) = isConnected (state w))
  \/ e = ToggleAuto
  \/ e = Disconnect
  \/ (exists j tm email, e = TimerFires j /\ find_timer j w = Some tm
        /\ w1 = handleConnect_resumed email d (rearm tm w)).
Proof.
  unfold handle. destruct e; try (intros [= <-]; auto).
  - unfold handleGoogleLogin. destruct aistudio; auto.
  - left. rewrite state_performUpload. destruct (_ || _); auto.
  - destruct (find_timer i w) as [tm|] eqn:Hf; [|discriminate].
    destruct (_ =? _)%Z; [|discriminate]. intros [= <-].
    unfold fire.
    destruct (tm_cb tm) as [c| |newId gd rest|email|] eqn:Hcb.
    + left. cbn. rewrite state_performUpload, state_rearm. destruct (_ || _); auto.
    + left. cbn. rewrite state_rearm. auto.
    + left. unfold performUpload_loop. destruct rest; cbn; rewrite state_rearm; auto.
    + right. right. right. exists i, tm, email. auto.
    + right. right. right. exists i, tm, "google.user@gmail.com". auto.
  - destruct (find_awaited p w) as [[newId n t f|]|]; try discriminate.
    intros [= <-]. left. unfold performUpload_fetched, performUpload_loop, stages.
    destruct result; auto.
  - destruct (find_awaited p w) as [[newId n t f|]|]; try discriminate.
    intros [= <-]. unfold handleGoogleLogin_selected. destruct ok; auto.
Qed.

(** X5.  Whenever [isAutoActive && isConnected] becomes true (by the
    toggle, or by a login completing with the toggle already on) the
    upload effect starts a run in that very step, unless one is in flight;
    the countdown shows 60, and both intervals count from that instant. *)
Theorem activation_starts_a_run : forall w, reachable w ->
  forall i w', step i w = Some w' ->
  autoOn (state w) = false -> autoOn (state w') = true ->
  timeLeft (state w') = period
  /\ isProcessing (state w') = true
  /\ (isProcessing (state w) = false ->
      uploads (state w') =
        initialRecord (d_id (draws i)) (closure_of (state w')) (at_time i)
        :: uploads (state w)
      /\ awaiting w' =
         awaiting w ++ [(nextPromise w,
                         Fetch (d_id (draws i)) (niche (state w')) (tone (state w'))
                           (format (state w')))])
  /\ (isProcessing (state w) = true ->
      uploads (state w') = uploads (state w) /\ awaiting w' = awaiting w)
  /\ (forall tm, In tm (timers w') -> isUploadTick tm = true ->
        tm_due tm = at_time i + 60000)
  /\ (forall tm, In tm (timers w') -> isCountdownTick tm = true ->
        tm_due tm = at_time i + 1000).
Proof.
  intros w Hw i w' Hs Hoff Hon.
  pose proof (reachable_sched_ok _ Hw) as Hok.
  pose proof (reachable_settled _ Hw) as Hr.
  pose proof (step_sched_ok _ _ _ Hok Hs) as Hok'.
  pose proof (step_settled _ _ _ Hs) as Hr'.
  apply step_inv in Hs. destruct Hs as [_ [w1 [Hh ->]]].
  set (d := draws i) in *. set (t := at_time i) in *.
  pose proof (handle_sched_ok _ _ _ _ (set_now_sched_ok t _ Hok) Hh) as Hok1.
  assert (Er : rendered w1 = state w) by (rewrite (rendered_handle _ _ _ _ Hh); exact Hr).
  assert (En : now w1 = t) by (rewrite (now_handle _ _ _ _ Hh); reflexivity).
  destruct (flush_gate d w1) as (Ea & Ec & _).
  destruct (flush_settings d w1) as (Sn & St & Sf).
  assert (Ha1 : autoOn (state w1) = true).
  { unfold autoOn in *. rewrite <- Ea, <- Ec. exact Hon. }
  assert (Q : uploads (state w1) = uploads (state w)
              /\ isProcessing (state w1) = isProcessing (state w)
              /\ awaiting w1 = awaiting w /\ nextPromise w1 = nextPromise w).
  { destruct (handle_gate _ _ _ _ Hh) as [[E1 E2]|[E|[E|(j & tm & email & E & Hf & ->)]]].
    - exfalso. unfold autoOn in *. cbn in E1, E2. rewrite E1, E2, Hoff in Ha1. discriminate.
    - rewrite E in Hh. injection Hh as <-. cbn. auto.
    - rewrite E in Hh. injection Hh as <-. cbn. auto.
    - unfold handleConnect_resumed, setupMockChannel. cbn.
      rewrite state_rearm, awaiting_rearm, nextPromise_rearm. cbn. auto. }
  destruct Q as (Qu & Qp & Qa & Qn).
  assert (Hu : uploadDepsChanged (rendered w1) (state w1) = true).
  { apply uploadDeps_autoOn. rewrite Er, Hoff, Ha1. discriminate. }
  assert (Hf : fires w1 = negb (isProcessing (state w))).
  { unfold fires. rewrite Hu, Ha1, Qp. reflexivity. }
  assert (Es : state (flush d w1) =
               set_timeLeft (fun _ => 60)
                 (if isProcessing (state w1) then state w1
                  else set_uploads
                         (insert (initialRecord (d_id d) (closure_of (state w1)) (now w1)))
                         (set_isProcessing true (state w1)))).
  { rewrite state_flush, state_commit. cbv zeta. rewrite Hu, Ha1. reflexivity. }
  split; [rewrite Es; reflexivity|].
  split; [rewrite Es; destruct (isProcessing (state w1)) eqn:E; cbn; auto|].
  split; [|split; [|split]].
  - intros Hp. rewrite Hp in Hf. cbn in Hf.
    rewrite awaiting_flush, awaiting_commit, state_flush, uploads_commit, Hf.
    rewrite <- state_flush, Sn, St, Sf, Qu, Qa, Qn, En.
    split; [|reflexivity]. f_equal. unfold initialRecord. cbn. rewrite Sf. reflexivity.
  - intros Hp. rewrite Hp in Hf. cbn in Hf.
    rewrite awaiting_flush, awaiting_commit, state_flush, uploads_commit, Hf. auto.
  - intros tm Hin Hk. destruct (in_flush_due _ _ _ Hin) as [H|[_ [p [Ep Ed]]]].
    + exfalso. destruct Hok1 as [_ Hiv1].
      assert (Hi : isUploadTick tm || isCountdownTick tm = true) by (rewrite Hk; reflexivity).
      pose proof (iv_on _ Hiv1 tm H Hi) as C. rewrite Er, Hoff in C. discriminate.
    + apply isUploadTick_cb in Hk. destruct Hk as [c Hc].
      destruct (iv_upload _ (proj2 Hok') tm c Hin Hc) as [_ Ee].
      rewrite Ed, En. congruence.
  - intros tm Hin Hk. destruct (in_flush_due _ _ _ Hin) as [H|[_ [p [Ep Ed]]]].
    + exfalso. destruct Hok1 as [_ Hiv1].
      assert (Hi : isUploadTick tm || isCountdownTick tm = true)
        by (rewrite Hk; apply orb_true_r).
      pose proof (iv_on _ Hiv1 tm H Hi) as C. rewrite Er, Hoff in C. discriminate.
    + apply isCountdownTick_cb in Hk.
      pose proof (iv_countdown _ (proj2 Hok') tm Hin Hk) as Ee.
      rewrite Ed, En. congruence.
Qed.

(** X6.  Only the toggle and [handleDisconnect] turn
    [isAutoActive && isConnected] off.  That clears both intervals and
    puts the countdown back to 60, and nothing else: the run in flight is
    not cancelled, its record, its awaited fetch and its stage timeout
    stay, and so does every other timeout. *)
Theorem stopping_leaves_the_run : forall w, reachable w ->
  forall i w', step i w = Some w' ->
  autoOn (state w) = true -> autoOn (state w') = false ->
  (event i = ToggleAuto \/ event i = Disconnect)
  /\ uploads (state w') = uploads (state w)
  /\ isProcessing (state w') = true
  /\ awaiting w' = awaiting w
  /\ timeLeft (state w') = period
  /\ (forall tm, In tm (timers w') <-> In tm (timers w) /\ isInterval tm = false).
Proof.
  intros w Hw i w' Hs Hon Hoff.
  pose proof (reachable_sched_ok _ Hw) as Hok.
  pose proof (reachable_settled _ Hw) as Hr.
  pose proof (reachable_busy_when_on _ Hw Hon) as Hp.
  assert (Hw' : reachable w') by exact (reach_step _ _ _ Hw Hs).
  apply step_inv in Hs. destruct Hs as [_ [w1 [Hh ->]]].
  set (d := draws i) in *. set (t := at_time i) in *.
  pose proof (handle_sched_ok _ _ _ _ (set_now_sched_ok t _ Hok) Hh) as Hok1.
  assert (Er : rendered w1 = state w) by (rewrite (rendered_handle _ _ _ _ Hh); exact Hr).
  destruct (flush_gate d w1) as (Ea & Ec & _).
  assert (Ha1 : autoOn (state w1) = false).
  { unfold autoOn in *. rewrite <- Ea, <- Ec. exact Hoff. }
  assert (Q : (event i = ToggleAuto \/ event i = Disconnect)
              /\ uploads (state w1) = uploads (state w)
              /\ isProcessing (state w1) = isProcessing (state w)
              /\ awaiting w1 = awaiting w /\ timers w1 = timers w).
  { destruct (handle_gate _ _ _ _ Hh) as [[E1 E2]|[E|[E|(j & tm & email & E & Hf & ->)]]].
    - exfalso. unfold autoOn in *. cbn in E1, E2. rewrite E1, E2, Hon in Ha1. discriminate.
    - rewrite E in Hh. injection Hh as <-. cbn. auto 6.
    - rewrite E in Hh. injection Hh as <-. cbn. auto 6.
    - exfalso. unfold autoOn in *. unfold handleConnect_resumed, setupMockChannel in Ha1.
      cbn in Ha1. rewrite state_rearm in Ha1. cbn in Ha1.
      apply andb_true_iff in Hon. destruct Hon as [Hon _]. rewrite Hon in Ha1. discriminate. }
  destruct Q as (Qe & Qu & Qp & Qa & Qt).
  assert (Hf : fires w1 = false).
  { unfold fires. rewrite Ha1, andb_false_r. reflexivity. }
  split; [exact Qe|].
  rewrite awaiting_flush, awaiting_commit, state_flush, uploads_commit,
    isProcessing_commit, Hf, orb_false_r, Qu, Qp, Qa.
  split; [reflexivity|]. split; [exact Hp|]. split; [reflexivity|]. split.
  - rewrite state_commit. cbv zeta.
    rewrite uploadDeps_autoOn, Ha1, countdownDeps_autoOn;
      [reflexivity| |]; rewrite Er, Hon, Ha1; discriminate.
  - intros tm. split.
    + intros Hin. assert (Hk : isInterval tm = false).
      { apply (reachable_no_interval _ tm Hw'); [|exact Hin].
        rewrite state_flush in Hoff. rewrite state_flush. exact Hoff. }
      split; [|exact Hk]. destruct (in_flush _ _ _ Hin) as [H|H]; [|congruence].
      rewrite <- Qt. exact H.
    + intros [Hin Hk]. apply flush_keeps; [apply Hok1| |exact Hk]. rewrite Qt. exact Hin.
Qed.

(** ** Settings *)

Lemma handle_setting e a' d w :
  setting e (state w) = Some a' ->
  exists f, handle e d w = Some (update f w) /\ f (state w) = a'
            /\ isAutoActive a' = isAutoActive (state w)
            /\ isConnected a' = isConnected (state w)
            /\ isProcessing a' = isProcessing (state w)
            /\ uploads a' = uploads (state w)
            /\ timeLeft a' = timeLeft (state w).
Proof.
  destruct e; try discriminate; cbn; intros [= <-].
  - exists (set_niche v). cbn. auto 8.
  - exists (set_tone v). cbn. auto 8.
  - exists (set_format v). cbn. auto 8.
Qed.

(** X7.  A change of niche, tone or format is used by the next run and
    leaves the run in flight alone: the store, the guard and the awaited
    fetch keep the values the run started with.  With auto-mode off the
    change does nothing else.  With auto-mode on it gives [performUpload]
    a new identity, so the upload effect runs again: its call is dropped
    at the guard, but the countdown jumps back to 60 and the upload
    interval is set anew, due 60000 ms after the change. *)
Theorem settings_apply_to_the_next_run : forall w, reachable w ->
  forall e a', setting e (state w) = Some a' ->
  forall t d w', step {| at_time := t; draws := d; event := e |} w = Some w' ->
  closure_of (state w') = closure_of a'
  /\ uploads (state w') = uploads (state w)
  /\ awaiting w' = awaiting w
  /\ (autoOn (state w) = false ->
      state w' = a' /\ forall tm, In tm (timers w') <-> In tm (timers w))
  /\ (autoOn (state w) = true -> closure_of a' <> closure_of (state w) ->
      timeLeft (state w') = period
      /\ forall tm, In tm (timers w') -> isUploadTick tm = true ->
           tm_due tm = t + 60000 /\ tm_cb tm = UploadTick (closure_of a'))
  /\ (isProcessing (state w') = false -> isConnected (state w') = true ->
      forall t2 d2 w2,
        step {| at_time := t2; draws := d2; event := ManualTrigger |} w' = Some w2 ->
        awaiting w2 =
          awaiting w' ++ [(nextPromise w',
                           Fetch (d_id d2) (niche a') (tone a') (format a'))]
        /\ exists r, uploads (state w2) = r :: uploads (state w')
                     /\ Types.format r = format a').
Proof.
  intros w Hw e a' Hset t d w' Hs.
  pose proof (reachable_sched_ok _ Hw) as Hok.
  pose proof (reachable_settled _ Hw) as Hr.
  assert (Hw' : reachable w') by exact (reach_step _ _ _ Hw Hs).
  pose proof (step_sched_ok _ _ _ Hok Hs) as Hok'.
  pose proof Hs as Hs0.
  apply step_inv in Hs. destruct Hs as [_ [w1 [Hh ->]]]. cbn [at_time draws event] in *.
  destruct (handle_setting e a' d (set_now t w) Hset)
    as (f & Hh' & Ef & Ea & Ec & Ep & Eu & Et).
  rewrite Hh' in Hh. injection Hh as <-.
  set (w1 := update f (set_now t w)) in *.
  assert (E1 : state w1 = a') by exact Ef.
  assert (Er : rendered w1 = state w) by exact Hr.
  cbn [state set_now] in Ea, Ec, Ep, Eu, Et.
  assert (Ha1 : autoOn (state w1) = autoOn (state w)).
  { rewrite E1. unfold autoOn. rewrite Ea, Ec. reflexivity. }
  assert (Hf : fires w1 = false).
  { unfold fires. rewrite Ha1. destruct (autoOn (state w)) eqn:Hon.
    - rewrite E1, Ep, (reachable_busy_when_on _ Hw Hon). apply andb_false_r.
    - rewrite andb_false_r. reflexivity. }
  destruct (flush_settings d w1) as (Sn & St & Sf).
  destruct (flush_gate d w1) as (_ & Gc & _).
  assert (Ecl : closure_of (state (flush d w1)) = closure_of a').
  { unfold closure_of. rewrite Sn, St, Sf, Gc, state_flush, isProcessing_commit, Hf,
      orb_false_r, E1. reflexivity. }
  split; [exact Ecl|].
  split; [rewrite state_flush, uploads_commit, Hf, E1; exact Eu|].
  split; [rewrite awaiting_flush, awaiting_commit, Hf; reflexivity|].
  split; [|split].
  - intros Hoff. split.
    + rewrite state_flush, state_commit. cbv zeta. rewrite Ha1, Hoff.
      replace (countdownDepsChanged (rendered w1) (state w1)) with false.
      * destruct (uploadDepsChanged _ _); exact E1.
      * symmetry. apply countdownDeps_same. rewrite Er, E1. auto.
    + intros tm. split.
      * intros Hin. destruct (in_flush _ _ _ Hin) as [H|H]; [exact H|].
        assert (Hoff' : autoOn (state (flush d w1)) = false).
        { destruct (flush_gate d w1) as (Ga & Gc' & _). unfold autoOn in *.
          rewrite Ga, Gc'. exact (eq_trans Ha1 Hoff). }
        rewrite (reachable_no_interval _ tm Hw' Hoff' Hin) in H. discriminate.
      * intros Hin. apply flush_keeps.
        -- apply update_sched_ok, set_now_sched_ok, Hok.
        -- exact Hin.
        -- apply (reachable_no_interval w tm Hw Hoff Hin).
  - intros Hon Hne.
    assert (Hu : uploadDepsChanged (rendered w1) (state w1) = true).
    { destruct (uploadDepsChanged _ _) eqn:E; [reflexivity|]. exfalso.
      apply uploadDeps_same in E. destruct E as (_ & _ & E).
      apply Hne. rewrite <- E1, <- E, Er. reflexivity. }
    split.
    + rewrite state_flush, state_commit. cbv zeta. rewrite Hu, Ha1, Hon.
      destruct (isProcessing (state w1)); reflexivity.
    + intros tm Hin Hk. apply isUploadTick_cb in Hk as Hk'. destruct Hk' as [c Hc].
      destruct (iv_upload _ (proj2 Hok') tm c Hin Hc) as [Ecw Ee].
      rewrite (step_settled _ _ _ Hs0), Ecl in Ecw. subst c. split; [|exact Hc].
      destruct (in_flush_due _ _ _ Hin) as [H|[_ [p [Ep' Ed]]]].
      * exfalso. destruct (iv_upload _ (proj2 Hok) tm _ H Hc) as [Eold _].
        apply Hne. rewrite Eold, Hr. reflexivity.
      * rewrite Ed. cbn. congruence.
  - intros Hp Hc t2 d2 w2 Hs2.
    destruct (manual_started _ t2 d2 w2 Hw' Hp Hc Hs2) as (U & _ & A).
    rewrite A, Sn, St, Sf, E1. split; [reflexivity|].
    eexists. split; [exact U|]. cbn. rewrite Sf, E1. reflexivity.
Qed.

(** ** Logging in with Google *)

(** X8.  [handleGoogleLogin].  Without [window.aistudio] it is
    [handleConnect] for google.user@gmail.com.  With it, the handler
    first awaits [openSelectKey()] and changes nothing else; when that
    promise resolves it sets [isConnecting] and sleeps 1500 ms, after
    which the gate is connected with the mock channel of that address and
    the modal is closed; when the promise rejects, [isConnecting] is set
    to false and nothing else happens: no timer, no connection, and the
    modal stays as it is. *)
Theorem google_login_connects : forall w, reachable w ->
  (forall t d w1,
     step {| at_time := t; draws := d; event := GoogleLogin false |} w = Some w1 ->
     isConnecting (state w1) = true
     /\ find_timer (nextTimer w) w1 = Some (connectTimeout "google.user@gmail.com" t w))
  /\ (forall t d w1,
        step {| at_time := t; draws := d; event := GoogleLogin true |} w = Some w1 ->
        w1 = await SelectKey (set_now t w))
  /\ (forall p t d w1,
        find_awaited p w = Some SelectKey ->
        step {| at_time := t; draws := d; event := SelectKeySettles p true |} w = Some w1 ->
        isConnecting (state w1) = true
        /\ isConnected (state w1) = isConnected (state w)
        /\ find_timer (nextTimer w) w1 =
           Some {| tm_id := nextTimer w; tm_due := t + 1500; tm_every := None;
                   tm_cb := GoogleDelay |})
  /\ (forall p t d w1,
        find_awaited p w = Some SelectKey ->
        step {| at_time := t; draws := d; event := SelectKeySettles p false |} w = Some w1 ->
        isConnecting (state w1) = false
        /\ isConnected (state w1) = isConnected (state w)
        /\ channel (state w1) = channel (state w)
        /\ showLoginModal (state w1) = showLoginModal (state w)
        /\ timers w1 = timers w)
  /\ (forall j tm i w',
        find_timer j w = Some tm -> tm_cb tm = GoogleDelay ->
        step i w = Some w' -> event i <> TimerFires j ->
        find_timer j w' = Some tm)
  /\ (forall j tm t d w',
        find_timer j w = Some tm -> tm_cb tm = GoogleDelay ->
        step {| at_time := t; draws := d; event := TimerFires j |} w = Some w' ->
        t = tm_due tm
        /\ isConnected (state w') = true
        /\ channel (state w') = Some (mockChannel "google.user@gmail.com" d)
        /\ isConnecting (state w') = false
        /\ showLoginModal (state w') = false).
Proof.
  intros w Hw. pose proof (reachable_sched_ok w Hw) as Hok.
  pose proof (reachable_settled w Hw) as Hr.
  split; [|split; [|split; [|split; [|split]]]].
  - intros t d w1 Hs.
    pose proof (step_sched_ok _ _ _ Hok Hs) as Hok1.
    apply step_inv in Hs. destruct Hs as [_ [w0 [Hh ->]]].
    cbn [draws at_time event] in *. cbn in Hh. injection Hh as <-.
    destruct (flush_gate d (handleConnect "google.user@gmail.com" (set_now t w)))
      as (_ & _ & -> & _).
    split; [reflexivity|].
    apply find_timer_iff; [apply Hok1|]. split; [|reflexivity].
    apply flush_keeps.
    + apply handleConnect_sched_ok, set_now_sched_ok, Hok.
    + cbn. apply in_app_iff. right. left. reflexivity.
    + reflexivity.
  - intros t d w1 Hs. apply step_inv in Hs. destruct Hs as [_ [w0 [Hh ->]]].
    cbn [draws at_time event] in *. cbn in Hh. injection Hh as <-.
    apply flush_unchanged. exact Hr.
  - intros p t d w1 Hp Hs.
    pose proof (step_sched_ok _ _ _ Hok Hs) as Hok1.
    apply step_inv in Hs. destruct Hs as [_ [w0 [Hh ->]]].
    cbn [draws at_time event] in *. unfold handle in Hh.
    change (find_awaited p (set_now t w)) with (find_awaited p w) in Hh.
    rewrite Hp in Hh. injection Hh as <-.
    set (w0 := setTimeout GoogleDelay 1500 (setIsConnecting true (settle p (set_now t w))))
      in *.
    destruct (flush_gate d w0) as (_ & -> & -> & _).
    split; [reflexivity|]. split; [reflexivity|].
    apply find_timer_iff; [apply Hok1|]. split; [|reflexivity].
    apply flush_keeps.
    + unfold w0.
      apply setTimeout_sched_ok; [|exact I].
      apply update_sched_ok, settle_sched_ok, set_now_sched_ok, Hok.
    + cbn. apply in_app_iff. right. left. reflexivity.
    + reflexivity.
  - intros p t d w1 Hp Hs.
    apply step_inv in Hs. destruct Hs as [_ [w0 [Hh ->]]].
    cbn [draws at_time event] in *. unfold handle in Hh.
    change (find_awaited p (set_now t w)) with (find_awaited p w) in Hh.
    rewrite Hp in Hh. injection Hh as <-.
    rewrite flush_idle.
    + cbn. auto.
    + cbn. rewrite Hr, (uploadDeps_ext _ _ (state w)); [apply uploadDeps_refl|reflexivity..].
  - intros j tm i w' Hf Hcb Hs Hne.
    apply (step_keeps_timer j tm i w); auto.
    apply plain_not_interval. rewrite Hcb. exact I.
  - intros j tm t d w' Hf Hcb Hs.
    destruct (step_fires j tm _ w w' Hs eq_refl Hf) as [Et ->].
    cbn [draws at_time] in *. subst t.
    set (w1 := fire tm d (set_now (tm_due tm) w)).
    assert (E : state w1 =
                set_showLoginModal false
                  (set_isConnecting false
                     (set_isConnected true
                        (set_channel
                           (Some (mockChannel "google.user@gmail.com" d))
                           (state w))))).
    { unfold w1, fire. rewrite Hcb. unfold handleGoogleLogin_resumed, setupMockChannel.
      cbn. rewrite state_rearm. reflexivity. }
    destruct (flush_gate d w1) as (_ & -> & -> & -> & ->).
    rewrite E. cbn. auto 6.
Qed.

(** ** The mock channel *)


(** ** The order of the store *)

Lemma descending_le t t' l : descending t l -> t <= t' -> descending t' l.
Proof. destruct l; cbn; [auto|]. intros [H1 H2] H. split; [lia|exact H2]. Qed.

Lemma updateById_timestamps newId f l :
  (forall u, timestamp (f u) = timestamp u) ->
  map timestamp (updateById newId f l) = map timestamp l.
Proof.
  intros Hf. unfold updateById. rewrite map_map. apply map_ext.
  intros u. destruct (String.eqb _ _); auto.
Qed.

Lemma handle_timestamps e d w w1 :
  handle e d w = Some w1 ->
  map timestamp (uploads (state w1)) = map timestamp (uploads (state w))
  \/ map timestamp (uploads (state w1)) = now w :: map timestamp (uploads (state w)).
Proof.
  unfold handle. destruct e; try (intros [= <-]; auto).
  - unfold handleGoogleLogin. destruct aistudio; auto.
  - rewrite state_performUpload. destruct (_ || _); auto.
  - destruct (find_timer i w) as [tm|] eqn:Hf; [|discriminate].
    destruct (_ =? _)%Z; [|discriminate]. intros [= <-].
    unfold fire.
    destruct (tm_cb tm) as [c| |newId gd rest|email|] eqn:Hcb.
    + cbn. rewrite state_performUpload, state_rearm, now_rearm. destruct (_ || _); auto.
    + left. cbn. rewrite state_rearm. reflexivity.
    + left. unfold performUpload_loop.
      destruct rest; cbn; rewrite state_rearm;
        first [apply finalUpdatesFrom_map; reflexivity
              | apply updateById_timestamps; reflexivity].
    + left. cbn. rewrite state_rearm. reflexivity.
    + left. cbn. rewrite state_rearm. reflexivity.
  - destruct (find_awaited p w) as [[newId n t f|]|]; try discriminate.
    intros [= <-]. left. unfold performUpload_fetched, performUpload_loop, stages.
    destruct result; cbn; apply updateById_timestamps; reflexivity.
  - destruct (find_awaited p w) as [[newId n t f|]|]; try discriminate.
    intros [= <-]. unfold handleGoogleLogin_selected. destruct ok; auto.
Qed.

(** X10.  The store lists the records newest first: a record carries the
    time of the trigger that created it, no timestamp is later than the
    clock, and none is later than that of the record in front of it. *)
Theorem store_newest_first : forall w, reachable w ->
  descending (now w) (map timestamp (uploads (state w))).
Proof.
  induction 1 as [|i w w' Hw IH Hs].
  - exact I.
  - apply step_inv in Hs. destruct Hs as [Ht [w1 [Hh ->]]].
    unfold on_time in Ht. apply andb_true_iff in Ht. destruct Ht as [Ht _].
    apply Z.leb_le in Ht.
    assert (H1 : descending (now w1) (map timestamp (uploads (state w1)))).
    { rewrite (now_handle _ _ _ _ Hh).
      destruct (handle_timestamps _ _ _ _ Hh) as [-> | ->]; cbn.
      - apply (descending_le (now w)); assumption.
      - split; [lia|]. apply (descending_le (now w)); assumption. }
    rewrite now_flush, state_flush, uploads_commit.
    destruct (fires w1); [|exact H1]. cbn. split; [lia|exact H1].
Qed.

(** ** What a record holds *)

Lemma handle_stage_tails e d w w1 :
  stage_tails w -> handle e d w = Some w1 -> stage_tails w1.
Proof.
  intros H Hh.
  assert (Old : forall w', (forall tm, In tm (timers w') ->
                   exists y, In y (timers w) /\ tm_cb tm = tm_cb y) -> stage_tails w').
  { intros w' K tm newId gd rest Hin Hcb. destruct (K tm Hin) as [y [Hy E]].
    rewrite E in Hcb. exact (H y newId gd rest Hy Hcb). }
  assert (Same : forall w', timers w' = timers w -> stage_tails w').
  { intros w' E. apply Old. rewrite E. eauto. }
  assert (Grow : forall w' w0 cb due every i,
             stage_tails w0 ->
             timers w' = timers w0 ++ [{| tm_id := i; tm_due := due; tm_every := every;
                                          tm_cb := cb |}] ->
             (forall newId gd rest, cb = StageDelay newId gd rest ->
                exists done, stages = done ++ rest) ->
             stage_tails w').
  { intros w' w0 cb due every i H0 E K tm newId gd rest Hin Hcb. rewrite E in Hin.
    apply in_app_iff in Hin. destruct Hin as [Hin|[<-|[]]].
    - exact (H0 tm newId gd rest Hin Hcb).
    - exact (K newId gd rest Hcb). }
  unfold handle in Hh. destruct e; try (injection Hh as <-; try (apply Same; reflexivity)).
  - apply (Grow _ w (ConnectDelay email) (now w + 1500) None (nextTimer w) H);
      [reflexivity|discriminate].
  - unfold handleGoogleLogin. destruct aistudio; [apply Same; reflexivity|].
    apply (Grow _ w (ConnectDelay "google.user@gmail.com") (now w + 1500) None
             (nextTimer w) H); [reflexivity|discriminate].
  - apply Same. apply timers_performUpload.
  - destruct (find_timer i w) as [tm|] eqn:Hf; [|discriminate].
    destruct (_ =? _)%Z; [|discriminate]. injection Hh as <-.
    apply find_timer_in in Hf. destruct Hf as [Htm _].
    assert (R : stage_tails (rearm tm w)).
    { apply Old. intros x Hx. destruct (in_rearm _ _ _ Hx) as [y (Hy & _ & _ & E)]. eauto. }
    unfold fire.
    destruct (tm_cb tm) as [c| |newId gd rest|email|] eqn:Hcb.
    + intros x a b c0 Hx. apply (R x a b c0). cbn in Hx.
      rewrite timers_performUpload in Hx. exact Hx.
    + exact R.
    + destruct rest as [|st rest'].
      * exact R.
      * apply (Grow _ (rearm tm w) (StageDelay newId gd rest') (now (rearm tm w) + 2000)
                 None (nextTimer (rearm tm w)) R); [reflexivity|].
        intros a b c0 [= <- <- <-].
        destruct (H tm newId gd (st :: rest') Htm Hcb) as [done E].
        exists (done ++ [st]). rewrite <- app_assoc. exact E.
    + exact R.
    + exact R.
  - destruct (find_awaited p w) as [[newId n t f|]|]; try discriminate.
    injection Hh as <-. unfold performUpload_fetched.
    destruct result as [gd|]; [|apply Same; reflexivity].
    apply (Grow _ w (StageDelay newId gd (tl stages)) (now w + 2000) None (nextTimer w) H);
      [reflexivity|].
    intros a b c0 [= <- <- <-]. exists [strategy_mapping]. reflexivity.
  - destruct (find_awaited p w) as [[newId n t f|]|]; try discriminate.
    injection Hh as <-. unfold handleGoogleLogin_selected.
    destruct ok; [|apply Same; reflexivity].
    apply (Grow _ w GoogleDelay (now w + 1500) None (nextTimer w) H);
      [reflexivity|discriminate].
Qed.

Lemma reachable_stage_tails w : reachable w -> stage_tails w.
Proof.
  induction 1 as [|i w w' Hw IH Hs].
  - intros tm newId gd rest [].
  - apply step_inv in Hs. destruct Hs as [_ [w1 [Hh ->]]].
    assert (H1 : stage_tails w1).
    { apply (handle_stage_tails _ _ (set_now (at_time i) w) _ IH Hh). }
    intros tm newId gd rest Hin Hcb. destruct (in_flush _ _ _ Hin) as [H|H].
    + exact (H1 tm newId gd rest H Hcb).
    + unfold isInterval, isUploadTick, isCountdownTick in H. rewrite Hcb in H. discriminate.
Qed.

(** X11.  Status and contents go together.  A pending record is at
    [trend_scouting] with the placeholder title and no trend data; so is
    a failed one, since only the fetch can fail.  A processing record is
    at one of the six later stages and has its trend data but no metrics.
    An uploaded record is at [publishing] and has metrics and the second
    thumbnail; no other record has either. *)
Theorem records_shaped_by_status : forall w, reachable_fresh w ->
  Forall shaped (uploads (state w)).
Proof.
  induction 1 as [|i w w' Hw IH Hfr Hs].
  - constructor.
  - pose proof (reachable_fresh_run_ok _ Hw) as Hr.
    pose proof (reachable_stage_tails _ (reachable_fresh_reachable _ Hw)) as Htl.
    destruct (step_store i w w' Hr Hs) as (news & mid & E & U & N).
    rewrite E. apply Forall_app. split.
    + destruct N as [-> | [c ->]]; repeat constructor.
    + rewrite Forall_forall in IH.
      destruct U as [| p newId n to f result u He Hfa Hu Ei Est Esg
                     | j tm newId gd rest u He Hft Hcb Hu Ei Est]; cbn [state set_now] in *.
      * apply Forall_forall, IH.
      * apply (Forall_updateById _ _ _ _ u (ro_ids _ Hr) Hu Ei); [|apply Forall_forall, IH].
        pose proof (IH u Hu) as Su. unfold shaped in *. rewrite Est in Su.
        destruct Su as (S1 & S2 & S3 & S4 & S5 & S6).
        destruct result as [gd|]; cbn.
        -- repeat split; auto; discriminate.
        -- repeat split; auto.
      * apply (Forall_updateById _ _ _ _ u (ro_ids _ Hr) Hu Ei); [|apply Forall_forall, IH].
        pose proof (IH u Hu) as Su. unfold shaped in *. rewrite Est in Su.
        destruct Su as (S1 & S2 & S3 & S4 & S5).
        apply find_timer_in in Hft. destruct Hft as [Hin _].
        destruct (Htl tm newId gd rest Hin Hcb) as [done Ed].
        destruct rest as [|st rest'].
        -- cbn. repeat split; auto; try discriminate. rewrite Ei. reflexivity.
        -- assert (Hst : In st stages).
           { rewrite Ed. apply in_app_iff. right. left. reflexivity. }
           cbn. repeat split; auto; discriminate.
Qed.

(** X12.  In one step a record's status stays, or goes from pending to
    processing or failed, or from processing to uploaded: a run whose
    fetch succeeded cannot fail any more, and nothing is uploaded or
    fails without having been pending first. *)
Theorem status_transitions : forall w, reachable_fresh w ->
  forall i w', fresh (draws i) w -> step i w = Some w' ->
  exists news olds,
    uploads (state w') = news ++ olds
    /\ Forall (fun u => status u = pending) news
    /\ Forall2 (fun u u' => id u' = id u /\ may_follow (status u) (status u') = true)
         (uploads (state w)) olds.
Proof.
  intros w Hf i w' Hfr Hs.
  pose proof (reachable_fresh_run_ok _ Hf) as Hr.
  destruct (step_store i w w' Hr Hs) as (news & mid & E & U & N).
  exists news, mid. split; [exact E|]. split.
  { destruct N as [-> | [c ->]]; repeat constructor. }
  clear E.
  assert (Refl : forall x : UploadRecord,
             id x = id x /\ may_follow (status x) (status x) = true).
  { intros x. split; [reflexivity|]. destruct (status x); reflexivity. }
  destruct U as [| p newId n to f result u He Hfa Hu Ei Est Esg
                 | j tm newId gd rest u He Hft Hcb Hu Ei Est]; cbn [state set_now] in *.
  - apply Forall2_same, Refl.
  - apply (Forall2_updateById _ _ _ _ u (ro_ids _ Hr) Hu Ei); [|auto].
    rewrite Est. destruct result; cbn; auto.
  - apply (Forall2_updateById _ _ _ _ u (ro_ids _ Hr) Hu Ei); [|auto].
    rewrite Est. destruct rest; cbn; auto.
Qed.

(** ** Runs and the records they work on *)

Lemma promises_ok_frame w w' :
  promises_ok w -> awaiting w' = awaiting w -> nextPromise w' = nextPromise w ->
  promises_ok w'.
Proof. unfold promises_ok. intros H -> ->. exact H. Qed.

Lemma promises_ok_await p w : promises_ok w -> promises_ok (await p w).
Proof.
  intros [Hu Hl]. split; cbn.
  - intros q1 q2 H1 H2 E. apply in_app_iff in H1. apply in_app_iff in H2.
    destruct H1 as [H1|[<-|[]]], H2 as [H2|[<-|[]]]; auto.
    + apply Hl in H1. cbn in E. lia.
    + apply Hl in H2. cbn in E. lia.
  - intros q H. apply in_app_iff in H. destruct H as [H|[<-|[]]].
    + apply Hl in H. lia.
    + cbn. lia.
Qed.

Lemma promises_ok_settle p w : promises_ok w -> promises_ok (settle p w).
Proof.
  intros [Hu Hl]. split.
  - intros q1 q2 H1 H2. apply in_settle in H1. apply in_settle in H2.
    apply Hu; [apply H1|apply H2].
  - intros q H. apply in_settle in H. apply Hl, H.
Qed.

Lemma promises_ok_performUpload c d w :
  promises_ok w -> promises_ok (performUpload c d w).
Proof.
  intros H. unfold performUpload. destruct (_ || _); [exact H|].
  apply promises_ok_await. apply (promises_ok_frame w); auto.
Qed.

Lemma promises_ok_clearIfSet r w : promises_ok w -> promises_ok (clearIfSet r w).
Proof. intros H. apply (promises_ok_frame w); autorewrite with world; auto. Qed.

Lemma promises_ok_uploadEffect cur d w :
  promises_ok w -> promises_ok (uploadEffect cur d w).
Proof.
  intros H. destruct (autoOn cur) eqn:Ha.
  - rewrite (uploadEffect_on _ _ _ Ha).
    apply (promises_ok_frame (performUpload (closure_of cur) d w)); [|reflexivity..].
    apply promises_ok_performUpload, H.
  - rewrite (uploadEffect_off _ _ _ Ha). apply promises_ok_clearIfSet, H.
Qed.

Lemma promises_ok_countdownEffect cur w :
  promises_ok w -> promises_ok (countdownEffect cur w).
Proof.
  intros H. destruct (autoOn cur) eqn:Ha.
  - rewrite (countdownEffect_on _ _ Ha). apply (promises_ok_frame w); auto.
  - rewrite (countdownEffect_off _ _ Ha).
    apply (promises_ok_frame (clearIfSet (timerRef w) w)); [|reflexivity..].
    apply promises_ok_clearIfSet, H.
Qed.

Lemma promises_ok_commit d w : promises_ok w -> promises_ok (commit d w).
Proof.
  intros H. unfold commit, runEffects, uploadCleanup, countdownCleanup. cbv zeta.
  assert (H0 : promises_ok (set_rendered (state w) w)) by (apply (promises_ok_frame w); auto).
  destruct (uploadDepsChanged _ _), (countdownDepsChanged _ _);
    repeat first [ exact H0
                 | apply promises_ok_countdownEffect
                 | apply promises_ok_uploadEffect
                 | apply promises_ok_clearIfSet ].
Qed.

Lemma promises_ok_flush d w : promises_ok w -> promises_ok (flush d w).
Proof. intros H. rewrite flush_eq. do 3 apply promises_ok_commit. exact H. Qed.

Lemma handle_promises_ok e d w w1 :
  promises_ok w -> handle e d w = Some w1 -> promises_ok w1.
Proof.
  intros H. unfold handle.
  destruct e; try (intros [= <-]; try (apply (promises_ok_frame w); auto; fail)).
  - unfold handleGoogleLogin. destruct aistudio.
    + apply promises_ok_await, H.
    + apply (promises_ok_frame w); auto.
  - apply promises_ok_performUpload, H.
  - destruct (find_timer i w) as [tm|] eqn:Hf; [|discriminate].
    destruct (_ =? _)%Z; [|discriminate]. intros [= <-].
    assert (R : promises_ok (rearm tm w)).
    { apply (promises_ok_frame w); autorewrite with world; auto. }
    unfold fire.
    destruct (tm_cb tm) as [c| |newId gd rest|email|] eqn:Hcb.
    + apply (promises_ok_frame (performUpload c d (rearm tm w))); [|reflexivity..].
      apply promises_ok_performUpload, R.
    + apply (promises_ok_frame (rearm tm w)); auto.
    + apply (promises_ok_frame (rearm tm w)); [exact R| |];
        unfold performUpload_loop; destruct rest; reflexivity.
    + apply (promises_ok_frame (rearm tm w)); auto.
    + apply (promises_ok_frame (rearm tm w)); auto.
  - destruct (find_awaited p w) as [[newId n t f|]|]; try discriminate.
    intros [= <-].
    apply (promises_ok_frame (settle p w)); [apply promises_ok_settle, H| |];
      unfold performUpload_fetched, performUpload_loop, stages; destruct result; reflexivity.
  - destruct (find_awaited p w) as [[newId n t f|]|]; try discriminate.
    intros [= <-].
    apply (promises_ok_frame (settle p w)); [apply promises_ok_settle, H| |];
      unfold handleGoogleLogin_selected; destruct ok; reflexivity.
Qed.

Lemma reachable_promises_ok w : reachable w -> promises_ok w.
Proof.
  induction 1 as [|i w w' Hw IH Hs].
  - split; intros; contradiction.
  - apply step_inv in Hs. destruct Hs as [_ [w1 [Hh ->]]].
    apply promises_ok_flush.
    refine (handle_promises_ok _ _ _ _ _ Hh).
    apply (promises_ok_frame w); auto.
Qed.

Lemma stage_other_id w x tm :
  timers_ok w -> In x (timers w) -> In tm (timers w) ->
  isStage x = true -> isStage tm = false -> tm_id x <> tm_id tm.
Proof.
  intros Hok Hx Htm Ex Et E.
  rewrite (same_id_same_timer w x tm (tk_nodup _ Hok) Hx Htm E) in Ex. congruence.
Qed.

Lemma handle_busy_suspended e d w w1 :
  timers_ok w -> promises_ok w -> busy_suspended w ->
  handle e d w = Some w1 -> busy_suspended w1.
Proof.
  intros Hok Hpr H Hh.
  assert (Frame : forall w', isProcessing (state w') = isProcessing (state w) ->
             (forall p, In p (awaiting w) -> isFetch p = true -> In p (awaiting w')) ->
             (forall tm, In tm (timers w) -> isStage tm = true -> In tm (timers w')) ->
             busy_suspended w').
  { intros w' Ep Ka Kt Hp. rewrite Ep in Hp.
    destruct (H Hp) as [[p [Hin E]]|[tm [Hin E]]]; [left|right]; eauto. }
  assert (Rearm : forall tm, In tm (timers w) -> isStage tm = false ->
             forall x, In x (timers w) -> isStage x = true -> In x (timers (rearm tm w))).
  { intros tm Htm Et x Hx Ex. apply in_rearm_other; [exact Hx|].
    apply (stage_other_id w); assumption. }
  assert (Perf : forall c w0, state w0 = state w -> awaiting w0 = awaiting w ->
             (forall x, In x (timers w) -> isStage x = true -> In x (timers w0)) ->
             busy_suspended (performUpload c d w0)).
  { intros c w0 Es Ea Kt. destruct (c_isProcessing c || negb (c_isConnected c)) eqn:Hg.
    - rewrite (performUpload_dropped _ _ _ Hg). apply Frame; rewrite ?Es, ?Ea; auto.
    - intros _. left. rewrite awaiting_performUpload, Hg. eexists. split.
      + apply in_app_iff. right. left. reflexivity.
      + reflexivity. }
  unfold handle in Hh. destruct e; try (injection Hh as <-; try (apply Frame; auto; fail)).
  - apply Frame; auto. cbn. intros tm Hin _. apply in_app_iff. auto.
  - unfold handleGoogleLogin. destruct aistudio; apply Frame; auto; cbn.
    + intros p Hin _. apply in_app_iff. auto.
    + intros tm Hin _. apply in_app_iff. auto.
  - apply Perf; auto.
  - destruct (find_timer i w) as [tm|] eqn:Hf; [|discriminate].
    destruct (_ =? _)%Z; [|discriminate]. injection Hh as <-.
    apply find_timer_in in Hf. destruct Hf as [Htm _].
    unfold fire.
    destruct (tm_cb tm) as [c| |newId gd rest|email|] eqn:Hcb.
    + assert (Et : isStage tm = false) by (unfold isStage; rewrite Hcb; reflexivity).
      pose proof (Perf c (rearm tm w) (state_rearm _ _) (awaiting_rearm _ _)
                    (Rearm tm Htm Et)) as B.
      intros Hp. apply B. exact Hp.
    + assert (Et : isStage tm = false) by (unfold isStage; rewrite Hcb; reflexivity).
      apply Frame; cbn; autorewrite with world; auto.
    + unfold performUpload_loop. destruct rest as [|st rest'].
      * intros Hp. cbn in Hp. discriminate.
      * intros _. right. eexists. split.
        -- cbn. apply in_app_iff. right. left. reflexivity.
        -- reflexivity.
    + assert (Et : isStage tm = false) by (unfold isStage; rewrite Hcb; reflexivity).
      apply Frame; cbn; autorewrite with world; auto.
    + assert (Et : isStage tm = false) by (unfold isStage; rewrite Hcb; reflexivity).
      apply Frame; cbn; autorewrite with world; auto.
  - destruct (find_awaited p w) as [[newId n t f|]|]; try discriminate.
    injection Hh as <-. unfold performUpload_fetched, performUpload_loop, stages.
    destruct result as [gd|].
    + intros _. right. eexists. split.
      * cbn. apply in_app_iff. right. left. reflexivity.
      * reflexivity.
    + intros Hp. cbn in Hp. discriminate.
  - destruct (find_awaited p w) as [[newId n t f|]|] eqn:Hf; try discriminate.
    injection Hh as <-. apply find_awaited_in in Hf.
    assert (Ka : forall q, In q (awaiting w) -> isFetch q = true ->
                   In q (awaiting (settle p w))).
    { intros q Hq Eq. apply in_settle. split; [exact Hq|]. intros E.
      rewrite (proj1 Hpr q (p, SelectKey) Hq Hf E) in Eq. discriminate. }
    unfold handleGoogleLogin_selected. destruct ok; apply Frame; auto.
    cbn. intros tm Hin _. apply in_app_iff. auto.
Qed.

Lemma flush_busy_suspended d w :
  timers_ok w -> busy_suspended w -> busy_suspended (flush d w).
Proof.
  intros Hok H Hp. rewrite state_flush, isProcessing_commit in Hp.
  rewrite awaiting_flush, awaiting_commit.
  destruct (fires w) eqn:Hf.
  - left. eexists. split; [apply in_app_iff; right; left; reflexivity|reflexivity].
  - rewrite orb_false_r in Hp. destruct (H Hp) as [[p [Hin E]]|[tm [Hin E]]].
    + left. eauto.
    + right. exists tm. split; [|exact E].
      apply flush_keeps; [exact Hok|exact Hin|apply isStage_plain, E].
Qed.

Lemma reachable_busy_suspended w : reachable w -> busy_suspended w.
Proof.
  induction 1 as [|i w w' Hw IH Hs].
  - intros Hp. discriminate.
  - pose proof (reachable_sched_ok _ Hw) as Hok.
    apply step_inv in Hs. destruct Hs as [_ [w1 [Hh ->]]].
    pose proof (handle_sched_ok _ _ _ _ (set_now_sched_ok (at_time i) _ Hok) Hh) as Hok1.
    apply flush_busy_suspended; [apply Hok1|].
    refine (handle_busy_suspended _ _ _ _ _ _ _ Hh).
    + apply set_now_sched_ok, Hok.
    + apply (promises_ok_frame w); auto. apply reachable_promises_ok, Hw.
    + exact IH.
Qed.

Lemma in_runs newId w :
  In newId (runs w) <->
  (exists p n to f, In (p, Fetch newId n to f) (awaiting w))
  \/ (exists tm gd rest, In tm (timers w) /\ tm_cb tm = StageDelay newId gd rest).
Proof.
  unfold runs. rewrite in_app_iff, !in_flat_map. split.
  - intros [[[p a] [Hin H]]|[tm [Hin H]]].
    + left. unfold run_of_awaited in H. cbn in H.
      destruct a as [x n to f|]; [|contradiction]. destruct H as [<-|[]]. eauto.
    + right. unfold run_of_timer in H.
      destruct (tm_cb tm) as [| |x gd rest| |] eqn:E; try contradiction.
      destruct H as [<-|[]]. eauto.
  - intros [(p & n & to & f & Hin)|(tm & gd & rest & Hin & E)].
    + left. exists (p, Fetch newId n to f). split; [exact Hin|]. left. reflexivity.
    + right. exists tm. split; [exact Hin|]. unfold run_of_timer. rewrite E.
      left. reflexivity.
Qed.

(** X13.  As long as every event is rendered to rest before the next one
    arrives and [Math.random()] does not give an id a second time, the
    records in progress are the runs suspended at an [await]: a run
    waiting for its fetch or for a stage delay has a pending or
    processing record in the store, and every pending or processing
    record has such a run, which will move it on when its promise settles
    or its timeout fires.  The guard is then taken exactly while there is
    one: [isProcessing] says whether a record is in progress. *)
Theorem runs_are_the_records_in_progress : forall w, reachable_fresh w ->
  (forall newId, In newId (runs w) <->
     exists u, In u (uploads (state w)) /\ id u = newId /\ in_progress u = true)
  /\ (isProcessing (state w) = true <-> exists newId, In newId (runs w))
  /\ in_flight (uploads (state w)) = (if isProcessing (state w) then 1 else 0)%nat.
Proof.
  intros w Hf. pose proof (reachable_fresh_run_ok _ Hf) as Hr.
  pose proof (reachable_busy_suspended _ (reachable_fresh_reachable _ Hf)) as Hb.
  assert (R1 : forall newId, In newId (runs w) ->
             exists u, In u (uploads (state w)) /\ id u = newId /\ in_progress u = true).
  { intros newId H. apply in_runs in H.
    destruct H as [(p & n & to & f & Hin)|(tm & gd & rest & Hin & E)].
    - destruct (ro_fetch _ Hr p newId n to f Hin) as [u (Hu & Ei & Es & _)].
      exists u. unfold in_progress. rewrite Es. auto.
    - destruct (ro_stage _ Hr tm newId gd rest Hin E) as [_ [u (Hu & Ei & Es)]].
      exists u. unfold in_progress. rewrite Es. auto. }
  assert (R2 : isProcessing (state w) = true -> exists newId, In newId (runs w)).
  { intros Hp. destruct (Hb Hp) as [[[p a] [Hin E]]|[tm [Hin E]]].
    - destruct a as [x n to f|]; [|discriminate]. exists x. apply in_runs. left. eauto.
    - unfold isStage in E. destruct (tm_cb tm) as [| |x gd rest| |] eqn:Ecb; try discriminate.
      exists x. apply in_runs. right. eauto. }
  assert (R3 : forall u, In u (uploads (state w)) -> in_progress u = true ->
             isProcessing (state w) = true).
  { intros u Hu Ep. destruct (isProcessing (state w)) eqn:Hp; [reflexivity|].
    destruct (ro_idle _ Hr Hp) as [Z0 _].
    rewrite (in_flight_zero _ u Z0 Hu) in Ep. discriminate. }
  split; [|split].
  - intros newId. split; [apply R1|].
    intros [u (Hu & Ei & Ep)].
    destruct (R2 (R3 u Hu Ep)) as [x Hx]. destruct (R1 x Hx) as [u' (Hu' & Ei' & Ep')].
    destruct (string_dec (id u') (id u)) as [E|E]; [congruence|]. exfalso.
    assert (Hne : u' <> u) by (intros ->; apply E; reflexivity).
    pose proof (filter_two in_progress _ u u' Hu Hu' Hne Ep Ep') as H2.
    pose proof (ro_flight _ Hr) as H1. unfold in_flight in H1. lia.
  - split; [apply R2|]. intros [x Hx]. destruct (R1 x Hx) as [u (Hu & _ & Ep)].
    exact (R3 u Hu Ep).
  - pose proof (ro_flight _ Hr) as H1.
    destruct (isProcessing (state w)) eqn:Hp.
    + destruct (R2 eq_refl) as [x Hx]. destruct (R1 x Hx) as [u (Hu & _ & Ep)].
      pose proof (filter_some in_progress _ u Hu Ep) as H2. unfold in_flight in *. lia.
    + apply (ro_idle _ Hr Hp).
Qed.

(** ** Auto-mode at the end of a run *)

(** A render whose upload effect re-runs leaves no upload interval but
    the one it sets. *)
Lemma commit_rearms tm d w :
  timers_ok w -> uploadDepsChanged (rendered w) (state w) = true ->
  In tm (timers (commit d w)) -> isUploadTick tm = true -> armed_at (now w) tm.
Proof.
  intros Hok Hu. unfold commit, runEffects. rewrite Hu. cbv zeta.
  pose proof (uploadCleanup_none _ (set_rendered_ok (state w) w Hok)) as N1.
  set (w0 := uploadCleanup (set_rendered (state w) w)) in *.
  assert (E0 : now w0 = now w) by (unfold w0, uploadCleanup; autorewrite with world; reflexivity).
  destruct (countdownDepsChanged _ _); intros Hin Hk.
  - apply in_countdownEffect_due in Hin. unfold countdownCleanup in Hin.
    autorewrite with world in Hin. rewrite E0 in Hin. destruct Hin as [Hin|Hin]; [|exact Hin].
    apply in_uploadEffect_due in Hin. autorewrite with world in Hin. rewrite E0 in Hin.
    destruct Hin as [Hin|Hin]; [|exact Hin].
    rewrite (clearIfSet_no_uploadTick _ _ N1 tm Hin) in Hk. discriminate.
  - apply in_uploadEffect_due in Hin. rewrite E0 in Hin.
    destruct Hin as [Hin|Hin]; [|exact Hin].
    rewrite (N1 tm Hin) in Hk. discriminate.
Qed.

Lemma flush_rearms tm d w :
  timers_ok w -> uploadDepsChanged (rendered w) (state w) = true ->
  In tm (timers (flush d w)) -> isUploadTick tm = true -> armed_at (now w) tm.
Proof.
  intros Hok Hu. rewrite flush_two.
  destruct (uploadDepsChanged (rendered (commit d w)) (state (commit d w))) eqn:E.
  - intros Hin Hk. rewrite <- (now_commit d w).
    apply (commit_rearms tm d (commit d w)); auto. apply commit_timers_ok, Hok.
  - rewrite (commit_idle d _ E). cbn [timers set_rendered]. apply commit_rearms; assumption.
Qed.

(** X14.  With auto-mode on, the step in which a run is uploaded starts
    the next one: [setIsProcessing(false)] changes [performUpload], the
    upload effect depends on it and runs again, calls it, and sets the
    60000 ms interval anew.  So runs follow each other back to back, and
    the interval is put off by every run that ends. *)
Theorem finished_run_restarts_in_auto_mode : forall w, reachable w ->
  autoOn (state w) = true ->
  forall j tm newId gd t d w',
    find_timer j w = Some tm -> tm_cb tm = StageDelay newId gd [] ->
    step {| at_time := t; draws := d; event := TimerFires j |} w = Some w' ->
    uploads (state w') =
      initialRecord (d_id d) (closure_of (state w')) t
      :: finalUpdates newId d (uploads (state w))
    /\ isProcessing (state w') = true
    /\ timeLeft (state w') = period
    /\ awaiting w' =
       awaiting w ++ [(nextPromise w,
                       Fetch (d_id d) (niche (state w)) (tone (state w)) (format (state w)))]
    /\ (forall tm', In tm' (timers w') -> isUploadTick tm' = true ->
          tm_due tm' = t + 60000).
Proof.
  intros w Hw Hon j tm newId gd t d w' Hf Hcb Hs.
  pose proof (reachable_sched_ok _ Hw) as Hok.
  pose proof (reachable_settled _ Hw) as Hr.
  pose proof (reachable_busy_when_on _ Hw Hon) as Hp.
  pose proof (step_sched_ok _ _ _ Hok Hs) as Hok'.
  destruct (find_timer_in _ _ _ Hf) as [Hin _].
  destruct (step_fires j tm _ w w' Hs eq_refl Hf) as [_ ->]. cbn [draws at_time] in *.
  set (w1 := fire tm d (set_now t w)) in *.
  assert (Hok1 : sched_ok w1).
  { apply fire_sched_ok; [apply set_now_sched_ok, Hok|exact Hin]. }
  assert (E1 : state w1 =
               set_isProcessing false
                 (set_uploads (finalUpdates newId d) (state w))).
  { unfold w1, fire. rewrite Hcb. unfold performUpload_loop. cbn. rewrite state_rearm. reflexivity. }
  assert (Er : rendered w1 = state w).
  { unfold w1, fire. rewrite Hcb. unfold performUpload_loop. cbn. rewrite rendered_rearm. exact Hr. }
  assert (En : now w1 = t).
  { unfold w1, fire. rewrite Hcb. unfold performUpload_loop. cbn. rewrite now_rearm. reflexivity. }
  assert (Ea : awaiting w1 = awaiting w /\ nextPromise w1 = nextPromise w).
  { unfold w1, fire. rewrite Hcb. unfold performUpload_loop. cbn. rewrite awaiting_rearm, nextPromise_rearm. auto. }
  destruct Ea as [Ea Enp].
  assert (Hu : uploadDepsChanged (rendered w1) (state w1) = true).
  { destruct (uploadDepsChanged _ _) eqn:E; [reflexivity|]. exfalso.
    apply uploadDeps_same in E. destruct E as (_ & _ & E).
    apply (f_equal c_isProcessing) in E. rewrite Er, E1 in E. cbn in E. congruence. }
  assert (Hfi : fires w1 = true).
  { unfold fires. rewrite Hu, E1. unfold autoOn in *. cbn. rewrite Hon. reflexivity. }
  destruct (flush_settings d w1) as (Sn & St & Sf).
  rewrite awaiting_flush, awaiting_commit, Hfi, Ea, Enp.
  split; [|split; [|split; [|split]]].
  - rewrite state_flush, uploads_commit, Hfi, En. rewrite <- state_flush.
    f_equal; [|rewrite E1; reflexivity].
    unfold initialRecord. cbn. rewrite Sf. reflexivity.
  - rewrite state_flush, isProcessing_commit, Hfi. apply orb_true_r.
  - rewrite state_flush, (state_commit_fires _ _ Hfi). reflexivity.
  - rewrite E1. reflexivity.
  - intros tm' Hin' Hk.
    destruct (flush_rearms tm' d w1 (proj1 Hok1) Hu Hin' Hk) as [_ [p [Ep Ed]]].
    apply isUploadTick_cb in Hk. destruct Hk as [c Hc].
    destruct (iv_upload _ (proj2 Hok') tm' c Hin' Hc) as [_ Ee].
    rewrite Ed, En. congruence.
Qed.

(** ** The cells of the connection *)

Lemma connect_other_id w x tm :
  timers_ok w -> In x (timers w) -> In tm (timers w) ->
  isConnect x = true -> isConnect tm = false -> tm_id x <> tm_id tm.
Proof.
  intros Hok Hx Htm Ex Et E.
  rewrite (same_id_same_timer w x tm (tk_nodup _ Hok) Hx Htm E) in Ex. congruence.
Qed.

Lemma isConnect_plain tm : isConnect tm = true -> isInterval tm = false.
Proof.
  unfold isConnect, isInterval, isUploadTick, isCountdownTick.
  destruct (tm_cb tm); auto; discriminate.
Qed.

Lemma handle_gate_ok e d w w1 :
  timers_ok w -> gate_ok w -> handle e d w = Some w1 -> gate_ok w1.
Proof.
  intros Hok [Hc Hg] Hh.
  assert (Frame : forall w', isConnected (state w') = isConnected (state w) ->
             channel (state w') = channel (state w) ->
             isConnecting (state w') = isConnecting (state w) ->
             (forall tm, In tm (timers w) -> isConnect tm = true -> In tm (timers w')) ->
             gate_ok w').
  { intros w' E1 E2 E3 K. split; [rewrite E1, E2; exact Hc|].
    rewrite E3. intros H. destruct (Hg H) as [tm [Hin E]]. eauto. }
  assert (Sleep : forall w' cb due i,
             isConnected (state w') = isConnected (state w) ->
             channel (state w') = channel (state w) ->
             (match cb with ConnectDelay _ | GoogleDelay => True | _ => False end) ->
             In {| tm_id := i; tm_due := due; tm_every := None; tm_cb := cb |} (timers w') ->
             gate_ok w').
  { intros w' cb due i E1 E2 Hcb Hin. split; [rewrite E1, E2; exact Hc|].
    intros _. eexists. split; [exact Hin|]. unfold isConnect. cbn.
    destruct cb; auto; contradiction. }
  assert (Rearm : forall tm, In tm (timers w) -> isConnect tm = false ->
             forall x, In x (timers w) -> isConnect x = true -> In x (timers (rearm tm w))).
  { intros tm Htm Et x Hx Ex. apply in_rearm_other; [exact Hx|].
    apply (connect_other_id w); assumption. }
  assert (Done : forall w' c, isConnected (state w') = true ->
             channel (state w') = Some c -> isConnecting (state w') = false -> gate_ok w').
  { intros w' c E1 E2 E3. split.
    - rewrite E1, E2. split; [discriminate|reflexivity].
    - rewrite E3. discriminate. }
  unfold handle in Hh. destruct e; try (injection Hh as <-; try (apply Frame; auto; fail)).
  - apply (Sleep _ (ConnectDelay email) (now w + 1500) (nextTimer w)); auto.
    cbn. apply in_app_iff. right. left. reflexivity.
  - unfold handleGoogleLogin. destruct aistudio; [apply Frame; auto|].
    apply (Sleep _ (ConnectDelay "google.user@gmail.com") (now w + 1500) (nextTimer w)); auto.
    cbn. apply in_app_iff. right. left. reflexivity.
  - split; cbn.
    + split; [discriminate|]. intros H. destruct H. reflexivity.
    + exact Hg.
  - apply Frame; try (rewrite state_performUpload; destruct (_ || _); reflexivity).
    rewrite timers_performUpload. auto.
  - destruct (find_timer i w) as [tm|] eqn:Hf; [|discriminate].
    destruct (_ =? _)%Z; [|discriminate]. injection Hh as <-.
    apply find_timer_in in Hf. destruct Hf as [Htm _].
    unfold fire.
    destruct (tm_cb tm) as [c| |newId gd rest|email|] eqn:Hcb.
    + assert (Et : isConnect tm = false) by (unfold isConnect; rewrite Hcb; reflexivity).
      apply Frame; cbn; try (rewrite state_performUpload, state_rearm;
                             destruct (_ || _); reflexivity).
      rewrite timers_performUpload. apply Rearm; assumption.
    + assert (Et : isConnect tm = false) by (unfold isConnect; rewrite Hcb; reflexivity).
      apply Frame; cbn; autorewrite with world; auto.
    + assert (Et : isConnect tm = false) by (unfold isConnect; rewrite Hcb; reflexivity).
      apply Frame; try (unfold performUpload_loop; destruct rest; cbn;
                        rewrite state_rearm; reflexivity).
      intros x Hx Ex. rewrite timers_performUpload_loop.
      destruct rest; [|apply in_app_iff; left]; apply Rearm; assumption.
    + apply (Done _ (mockChannel email d)); reflexivity.
    + apply (Done _ (mockChannel "google.user@gmail.com" d)); reflexivity.
  - destruct (find_awaited p w) as [[newId n t f|]|]; try discriminate.
    injection Hh as <-. unfold performUpload_fetched.
    destruct result as [gd|]; [|apply Frame; auto].
    apply Frame; auto. intros x Hx _. rewrite timers_performUpload_loop. unfold stages.
    apply in_app_iff. auto.
  - destruct (find_awaited p w) as [[newId n t f|]|]; try discriminate.
    injection Hh as <-. unfold handleGoogleLogin_selected. destruct ok.
    + apply (Sleep _ GoogleDelay (now w + 1500) (nextTimer w)); auto.
      cbn. apply in_app_iff. right. left. reflexivity.
    + split; [exact Hc|]. cbn. discriminate.
Qed.

Lemma reachable_gate_ok w : reachable w -> gate_ok w.
Proof.
  induction 1 as [|i w w' Hw IH Hs].
  - split; cbn.
    + split; [discriminate|]. intros H. destruct H. reflexivity.
    + discriminate.
  - pose proof (reachable_sched_ok _ Hw) as Hok.
    apply step_inv in Hs. destruct Hs as [_ [w1 [Hh ->]]].
    pose proof (handle_sched_ok _ _ _ _ (set_now_sched_ok (at_time i) _ Hok) Hh) as Hok1.
    assert (G1 : gate_ok w1).
    { refine (handle_gate_ok _ _ _ _ _ _ Hh); [apply set_now_sched_ok, Hok|exact IH]. }
    destruct G1 as [Gc Gg].
    destruct (flush_gate (draws i) w1) as (_ & E1 & E2 & _ & E3).
    split; [rewrite E1, E3; exact Gc|].
    rewrite E2. intros H. destruct (Gg H) as [tm [Hin E]].
    exists tm. split; [|exact E].
    apply flush_keeps; [apply Hok1|exact Hin|apply isConnect_plain, E].
Qed.

(** X15.  The cells of the connection agree.  A channel is set exactly
    while [isConnected]: [setupMockChannel] sets both and
    [handleDisconnect] clears both.  And [isConnecting] never hangs: while
    it is true, the 1500 ms timeout of a login is pending, whose callback
    sets it back to false. *)
Theorem connection_cells_agree : forall w, reachable w ->
  (isConnected (state w) = true <-> channel (state w) <> None)
  /\ (isConnecting (state w) = true ->
      exists j tm, find_timer j w = Some tm
        /\ (tm_cb tm = GoogleDelay \/ exists email, tm_cb tm = ConnectDelay email)
        /\ now w <= tm_due tm
        /\ forall d, isConnecting (state (fire tm d w)) = false).
Proof.
  intros w Hw. destruct (reachable_gate_ok w Hw) as [Gc Gg]. split; [exact Gc|].
  intros H. destruct (Gg H) as [tm [Hin E]].
  exists (tm_id tm), tm.
  split; [apply find_timer_iff; [apply reachable_sched_ok, Hw|auto]|].
  unfold isConnect in E. unfold fire.
  destruct (tm_cb tm) as [| | |email|] eqn:Hcb; try discriminate.
  - split; [eauto|]. split; [apply (reachable_due_ok w Hw tm Hin)|]. reflexivity.
  - split; [auto|]. split; [apply (reachable_due_ok w Hw tm Hin)|]. reflexivity.
Qed.

(** ** A manual run from start to end *)

Lemma filter_all {A} (p : A -> bool) (l : list A) :
  (forall x, In x l -> p x = true) -> filter p l = l.
Proof.
  induction l as [|x l IH]; cbn; intros H; [reflexivity|].
  rewrite (H x) by auto. f_equal. apply IH. auto.
Qed.

Lemma clearIfSet_noop r w :
  (forall tm, In tm (timers w) -> Some (tm_id tm) <> r) -> clearIfSet r w = w.
Proof.
  intros H. unfold clearIfSet. destruct r as [[|i]|]; try reflexivity.
  unfold clearInterval, with_timers. rewrite filter_all.
  - destruct w; reflexivity.
  - intros tm Hin. apply negb_true_iff, Nat.eqb_neq. intros E.
    apply (H tm Hin). rewrite E. reflexivity.
Qed.

(** With auto-mode off, before and after, rendering runs no effect that
    does anything. *)
Lemma flush_off d w :
  sched_ok w -> autoOn (state w) = false ->
  countdownDepsChanged (rendered w) (state w) = false ->
  flush d w = set_rendered (state w) w.
Proof.
  intros [Hok Hiv] Hoff Hc.
  destruct (uploadDepsChanged (rendered w) (state w)) eqn:Hu; [|apply flush_idle, Hu].
  rewrite flush_two.
  assert (E : commit d w = set_rendered (state w) w).
  { unfold commit, runEffects. rewrite Hu, Hc. cbv zeta. unfold uploadCleanup.
    rewrite (uploadEffect_off _ _ _ Hoff).
    assert (N : forall w0, timers w0 = timers w -> uploadTimerRef w0 = uploadTimerRef w ->
                  clearIfSet (uploadTimerRef w0) w0 = w0).
    { intros w0 Et Er. apply clearIfSet_noop. rewrite Et, Er. intros tm Hin E.
      symmetry in E. apply (tk_upload _ Hok tm Hin) in E.
      assert (Hi : isUploadTick tm || isCountdownTick tm = true) by (rewrite E; reflexivity).
      pose proof (iv_on _ Hiv tm Hin Hi) as Hon.
      rewrite (autoOn_same _ _ Hc) in Hon. congruence. }
    rewrite (N (set_rendered (state w) w)) by reflexivity.
    apply N; reflexivity. }
  rewrite E. apply commit_settled. reflexivity.
Qed.

Lemma step_off i w h :
  sched_ok w -> rendered w = state w -> on_time (at_time i) w = true ->
  handle (event i) (draws i) (set_now (at_time i) w) = Some h ->
  isAutoActive (state h) = isAutoActive (state w) ->
  isConnected (state h) = isConnected (state w) ->
  autoOn (state w) = false ->
  step i w = Some (set_rendered (state h) h)
  /\ sched_ok (set_rendered (state h) h).
Proof.
  intros Hok Hr Hon Hh Ea Ec Hoff.
  pose proof (handle_sched_ok _ _ _ _ (set_now_sched_ok (at_time i) _ Hok) Hh) as Hok1.
  assert (E : flush (draws i) h = set_rendered (state h) h).
  { apply flush_off; [exact Hok1| |].
    - unfold autoOn in *. rewrite Ea, Ec. exact Hoff.
    - apply countdownDeps_same. rewrite (rendered_handle _ _ _ _ Hh). cbn.
      rewrite Hr, Ea, Ec. auto. }
  split.
  - unfold step. rewrite Hon, Hh. cbn. rewrite E. reflexivity.
  - rewrite <- E. apply flush_sched_ok, Hok1.
Qed.

Lemma updateById_head newId f r l :
  id r = newId -> ~ In newId (map id l) -> updateById newId f (r :: l) = f r :: l.
Proof.
  intros Ei Hn. unfold updateById. cbn.
  replace (String.eqb (id r) newId) with true by (symmetry; apply String.eqb_eq, Ei).
  f_equal. rewrite <- (map_id l) at 2. apply map_ext_in. intros x Hx.
  destruct (String.eqb (id x) newId) eqn:E; [|reflexivity].
  exfalso. apply Hn. apply String.eqb_eq in E. rewrite <- E. apply in_map, Hx.
Qed.

Lemma finalUpdates_head newId d r l :
  id r = newId -> ~ In newId (map id l) ->
  finalUpdates newId d (r :: l) = finalUpdate newId d 0 r :: l.
Proof.
  intros Ei Hn. unfold finalUpdates. cbn.
  replace (String.eqb (id r) newId) with true by (symmetry; apply String.eqb_eq, Ei).
  rewrite finalUpdatesFrom_none by exact Hn. reflexivity.
Qed.

Lemma find_last_promise p a l :
  (forall q, In q l -> (fst q < p)%nat) ->
  find (fun q : nat * Awaited => Nat.eqb (fst q) p) (l ++ [(p, a)]) = Some (p, a).
Proof.
  induction l as [|x l IH]; cbn; intros H.
  - rewrite Nat.eqb_refl. reflexivity.
  - replace (Nat.eqb (fst x) p) with false.
    + apply IH. auto.
    + symmetry. apply Nat.eqb_neq. pose proof (H x (or_introl eq_refl)). lia.
Qed.

Lemma on_time_single t w tm :
  timers w = [tm] -> now w <= t -> t <= tm_due tm -> on_time t w = true.
Proof.
  intros E H1 H2. unfold on_time. rewrite E. cbn.
  rewrite andb_true_r. apply andb_true_iff. split; apply Z.leb_le; assumption.
Qed.

(** A stage timeout that is alone in the table fires. *)
Lemma fire_stage newId gd rest d t i w :
  timers w = [{| tm_id := i; tm_due := t; tm_every := None;
                 tm_cb := StageDelay newId gd rest |}] ->
  now w = t ->
  exists h,
    handle (TimerFires i) d w = Some h
    /\ rendered h = rendered w /\ now h = now w
    /\ isAutoActive (state h) = isAutoActive (state w)
    /\ isConnected (state h) = isConnected (state w)
    /\ match rest with
       | st :: rest' =>
           uploads (state h) = updateById newId (stageUpdate gd st) (uploads (state w))
           /\ isProcessing (state h) = isProcessing (state w)
           /\ timers h = [{| tm_id := nextTimer w; tm_due := now w + 2000; tm_every := None;
                             tm_cb := StageDelay newId gd rest' |}]
           /\ nextTimer h = S (nextTimer w)
       | [] =>
           uploads (state h) = finalUpdates newId d (uploads (state w))
           /\ isProcessing (state h) = false
           /\ timers h = []
           /\ nextTimer h = nextTimer w
       end.
Proof.
  intros Et En. unfold handle, find_timer. rewrite Et. cbn [find tm_id].
  rewrite Nat.eqb_refl. cbn [tm_due]. rewrite En, Z.eqb_refl.
  eexists. split; [reflexivity|].
  unfold fire, rearm, performUpload_loop, clearInterval, with_timers.
  cbn [tm_cb tm_every tm_id]. rewrite Et. cbn [filter tm_id]. rewrite Nat.eqb_refl.
  destruct rest as [|st rest']; cbn; rewrite ?En; auto 10.
Qed.

Lemma mid_run_stage w newId c t0 gd d k t t' wk :
  mid_run w newId c t0 gd k t wk -> (k < 5)%nat -> t' = t + 2000 ->
  ~ In newId (map id (uploads (state w))) ->
  exists wk',
    step {| at_time := t'; draws := d; event := TimerFires (k + nextTimer w) |} wk = Some wk'
    /\ mid_run w newId c t0 gd (S k) t' wk'.
Proof.
  intros (Hok & Hr & Hoff & Hp & En & Ent & Et & Eu) Hk -> Hfr.
  destruct (stages_split k Hk) as [st [Hst Hsk]].
  set (w0 := set_now (t + 2000) wk).
  destruct (fire_stage newId gd (skipn (S k) stages) d (t + 2000) (k + nextTimer w) w0)
    as (h & Hh & Hrh & Enh & Ea & Ec & Hrest).
  { exact Et. }
  { reflexivity. }
  rewrite Hsk in Hrest. destruct Hrest as (Euh & Eph & Eth & Enth).
  subst w0. cbn [state set_now now nextTimer rendered] in Hrh, Enh, Ea, Ec, Euh, Eph, Eth, Enth.
  destruct (step_off {| at_time := t + 2000; draws := d;
                        event := TimerFires (k + nextTimer w) |} wk h)
    as [Hs Hok']; auto.
  { apply (on_time_single _ _ _ Et); cbn; lia. }
  exists (set_rendered (state h) h). split; [exact Hs|].
  split; [exact Hok'|]. split; [reflexivity|].
  cbn [state rendered set_rendered now nextTimer timers].
  split; [unfold autoOn in *; rewrite Ea, Ec; exact Hoff|].
  split; [rewrite Eph; exact Hp|].
  split; [rewrite Enh; reflexivity|].
  split; [rewrite Enth; cbn; rewrite Ent; reflexivity|].
  split.
  - rewrite Eth. cbn. rewrite Ent. reflexivity.
  - rewrite Euh, Eu.
    rewrite updateById_head; [|reflexivity|exact Hfr].
    rewrite (nth_error_nth _ _ publishing Hst). reflexivity.
Qed.

(** X16.  A manual run from start to end.  In an idle, connected
    component with auto-mode off and no timer pending, a manual trigger
    with a new id, a fetch that resolves, and the six stage timeouts fired
    as they fall due bring the record to uploaded 12000 ms after the
    fetch resolved; the guard is free again, no timer is left, and the
    records that were there are untouched. *)
Theorem manual_run_completes : forall w, reachable w ->
  isConnected (state w) = true -> isProcessing (state w) = false ->
  isAutoActive (state w) = false -> timers w = [] ->
  forall t0 t1 d0 d gd, now w <= t0 <= t1 -> fresh d0 w ->
  exists w',
    run (manual_run (nextPromise w) (nextTimer w) t0 t1 d0 d gd) w = Some w'
    /\ now w' = t1 + 12000
    /\ isProcessing (state w') = false
    /\ timers w' = []
    /\ uploads (state w') =
       uploadedRecord (d_id d0) (closure_of (state w)) t0 gd d :: uploads (state w).
Proof.
  intros w Hw Hc Hp Ha Ht t0 t1 d0 d gd [H0 H1] Hfr.
  pose proof (reachable_sched_ok _ Hw) as Hok.
  pose proof (reachable_settled _ Hw) as Hr.
  pose proof (reachable_promises_ok _ Hw) as Hpr.
  assert (Hoff : autoOn (state w) = false) by (unfold autoOn; rewrite Ha; reflexivity).
  set (newId := d_id d0). set (c := closure_of (state w)).
  (* the trigger *)
  assert (Hg : c_isProcessing (closure_of (rendered (set_now t0 w)))
               || negb (c_isConnected (closure_of (rendered (set_now t0 w)))) = false).
  { cbn. rewrite Hr, Hp, Hc. reflexivity. }
  destruct (step_off {| at_time := t0; draws := d0; event := ManualTrigger |} w
              (performUpload (closure_of (rendered (set_now t0 w))) d0 (set_now t0 w)))
    as [S1 Hok1]; auto.
  { unfold on_time. rewrite Ht. cbn. rewrite andb_true_r. apply Z.leb_le, H0. }
  { rewrite state_performUpload, Hg. reflexivity. }
  { rewrite state_performUpload, Hg. reflexivity. }
  rewrite (performUpload_started _ _ _ Hg) in S1, Hok1.
  set (w1 := set_rendered _ _) in S1, Hok1.
  (* the fetch *)
  assert (Hfa : find_awaited (nextPromise w) (set_now t1 w1)
                = Some (Fetch newId (niche (state w)) (tone (state w)) (format (state w)))).
  { unfold find_awaited. cbn. rewrite Hr.
    rewrite find_last_promise; [reflexivity|]. apply (proj2 Hpr). }
  assert (Hh2 : handle (FetchSettles (nextPromise w) (Some gd)) d (set_now t1 w1)
                = Some (performUpload_fetched newId (Some gd) d
                          (settle (nextPromise w) (set_now t1 w1)))).
  { unfold handle. rewrite Hfa. reflexivity. }
  set (h2 := performUpload_fetched newId (Some gd) d (settle (nextPromise w) (set_now t1 w1)))
    in *.
  destruct (step_off {| at_time := t1; draws := d;
                        event := FetchSettles (nextPromise w) (Some gd) |} w1 h2)
    as [S2 Hok2]; auto.
  { unfold on_time. cbn. rewrite Ht. cbn. rewrite andb_true_r. apply Z.leb_le, H1. }
  assert (M0 : mid_run w newId c t0 gd 0 t1 (set_rendered (state h2) h2)).
  { split; [exact Hok2|]. split; [reflexivity|].
    unfold h2, performUpload_fetched, performUpload_loop, stages.
    cbn [state rendered set_rendered now nextTimer timers setTimeout schedule snd
         setUploads update set_uploads settle set_now uploads isProcessing autoOn
         isAutoActive isConnected w1 await setIsProcessing set_isProcessing insert].
    rewrite Hr, Ht.
    split; [unfold autoOn in Hoff; exact Hoff|].
    split; [reflexivity|]. split; [reflexivity|]. split; [reflexivity|].
    split; [reflexivity|].
    rewrite updateById_head; [reflexivity|reflexivity|exact Hfr]. }
  (* the six stages *)
  destruct (mid_run_stage w newId c t0 gd d 0 t1 (t1 + 2000) _ M0) as (w3 & S3 & M1);
    [lia|lia|exact Hfr|].
  destruct (mid_run_stage w newId c t0 gd d 1 _ (t1 + 4000) _ M1) as (w4 & S4 & M2);
    [lia|lia|exact Hfr|].
  destruct (mid_run_stage w newId c t0 gd d 2 _ (t1 + 6000) _ M2) as (w5 & S5 & M3);
    [lia|lia|exact Hfr|].
  destruct (mid_run_stage w newId c t0 gd d 3 _ (t1 + 8000) _ M3) as (w6 & S6 & M4);
    [lia|lia|exact Hfr|].
  destruct (mid_run_stage w newId c t0 gd d 4 _ (t1 + 10000) _ M4) as (w7 & S7 & M5);
    [lia|lia|exact Hfr|].
  (* the end *)
  destruct M5 as (Hok7 & Hr7 & Hoff7 & Hp7 & En7 & Ent7 & Et7 & Eu7).
  destruct (fire_stage newId gd [] d (t1 + 12000) (5 + nextTimer w)
              (set_now (t1 + 12000) w7))
    as (h & Hh & Hrh & Enh & Ea8 & Ec8 & Euh & Eph & Eth & Enth).
  { cbn [timers set_now]. rewrite Et7. unfold stageTimeout. cbn. f_equal. f_equal. lia. }
  { reflexivity. }
  destruct (step_off {| at_time := t1 + 12000; draws := d;
                        event := TimerFires (5 + nextTimer w) |} w7 h)
    as [S8 Hok8]; auto.
  { apply (on_time_single _ _ _ Et7); cbn; lia. }
  exists (set_rendered (state h) h). split.
  - unfold manual_run. cbn [run]. rewrite S1. rewrite S2.
    cbn [plus] in *. rewrite S3, S4, S5, S6, S7, S8. reflexivity.
  - cbn [state rendered set_rendered now nextTimer timers].
    split; [rewrite Enh; reflexivity|]. split; [exact Eph|]. split; [exact Eth|].
    rewrite Euh. cbn [state set_now]. rewrite Eu7.
    rewrite finalUpdates_head; [reflexivity|reflexivity|exact Hfr].
Qed.

(** ** What starts a run *)

Lemma handle_releases e d w w1 :
  handle e d w = Some w1 ->
  isProcessing (state w) = true -> isProcessing (state w1) = false ->
  (exists p, e = FetchSettles p None)
  \/ (exists j tm newId gd, e = TimerFires j /\ find_timer j w = Some tm
        /\ tm_cb tm = StageDelay newId gd []).
Proof.
  unfold handle. intros Hh Hp Hq.
  destruct e; try (injection Hh as <-; cbn in Hq; congruence).
  - injection Hh as <-. unfold handleGoogleLogin in Hq.
    destruct aistudio; cbn in Hq; congruence.
  - injection Hh as <-. rewrite state_performUpload in Hq.
    destruct (_ || _); cbn in Hq; congruence.
  - destruct (find_timer i w) as [tm|] eqn:Hf; [|discriminate].
    destruct (_ =? _)%Z; [|discriminate]. injection Hh as <-.
    unfold fire in Hq.
    destruct (tm_cb tm) as [c| |newId gd rest|email|] eqn:Hcb.
    + cbn in Hq. rewrite state_performUpload, state_rearm in Hq.
      destruct (_ || _); cbn in Hq; congruence.
    + cbn in Hq. rewrite state_rearm in Hq. congruence.
    + destruct rest as [|st rest'].
      * right. exists i, tm, newId, gd. auto.
      * unfold performUpload_loop in Hq. cbn in Hq. rewrite state_rearm in Hq. congruence.
    + cbn in Hq. rewrite state_rearm in Hq. cbn in Hq. congruence.
    + cbn in Hq. rewrite state_rearm in Hq. cbn in Hq. congruence.
  - destruct (find_awaited p w) as [[newId n t f|]|]; try discriminate.
    injection Hh as <-. destruct result as [gd|].
    + unfold performUpload_fetched, performUpload_loop, stages in Hq. cbn in Hq. congruence.
    + left. exists p. reflexivity.
  - destruct (find_awaited p w) as [[newId n t f|]|]; try discriminate.
    injection Hh as <-. unfold handleGoogleLogin_selected in Hq.
    destruct ok; cbn in Hq; congruence.
Qed.

Lemma handle_inserts e d w w1 :
  intervals_ok w -> rendered w = state w -> busy_when_on w ->
  handle e d w = Some w1 ->
  List.length (uploads (state w1)) = List.length (uploads (state w))
  \/ (e = ManualTrigger /\ isProcessing (state w) = false
      /\ isConnected (state w) = true /\ isProcessing (state w1) = true).
Proof.
  intros Hiv Hrd Hb. unfold handle. destruct e; try (intros [= <-]; auto).
  - unfold handleGoogleLogin. destruct aistudio; auto.
  - rewrite state_performUpload. destruct (_ || _) eqn:E; [auto|].
    right. apply orb_false_iff in E. destruct E as [E1 E2].
    apply negb_false_iff in E2. cbn in E1, E2. rewrite Hrd in E1, E2. auto.
  - destruct (find_timer i w) as [tm|] eqn:Hf; [|discriminate].
    destruct (_ =? _)%Z; [|discriminate]. intros [= <-].
    apply find_timer_in in Hf. destruct Hf as [Hin _].
    left. unfold fire.
    destruct (tm_cb tm) as [c| |newId gd rest|email|] eqn:Hcb.
    + destruct (iv_upload _ Hiv tm c Hin Hcb) as [Ec _].
      assert (Hi : isUploadTick tm || isCountdownTick tm = true).
      { unfold isUploadTick. rewrite Hcb. reflexivity. }
      pose proof (iv_on _ Hiv tm Hin Hi) as Hon. rewrite Hrd in Hon.
      rewrite performUpload_dropped.
      * cbn. rewrite state_rearm. reflexivity.
      * rewrite Ec, Hrd. cbn. rewrite (Hb Hon). reflexivity.
    + cbn. rewrite state_rearm. reflexivity.
    + unfold performUpload_loop.
      destruct rest; cbn; rewrite state_rearm;
        first [apply finalUpdates_length | apply updateById_length].
    + cbn. rewrite state_rearm. reflexivity.
    + cbn. rewrite state_rearm. reflexivity.
  - destruct (find_awaited p w) as [[newId n t f|]|]; try discriminate.
    intros [= <-]. left. unfold performUpload_fetched, performUpload_loop, stages.
    destruct result; cbn; apply updateById_length.
  - destruct (find_awaited p w) as [[newId n t f|]|]; try discriminate.
    intros [= <-]. unfold handleGoogleLogin_selected. destruct ok; auto.
Qed.

(** X17.  What starts a run, as long as every event is rendered to rest
    before the next one arrives (so that no trigger meets the
    [performUpload] of an earlier render).  A record then enters the store
    in three ways only: a manual trigger with auto-mode off, the gate
    connected and the guard free; [isAutoActive && isConnected] becoming
    true with the guard free; and, with auto-mode on, the end of the run
    before, be it the last stage timeout or a fetch that was rejected.
    The 60000 ms interval is not among them. *)
Theorem runs_start_in_three_ways : forall w, reachable w ->
  forall i w', step i w = Some w' ->
  (List.length (uploads (state w)) < List.length (uploads (state w')))%nat ->
  (event i = ManualTrigger /\ autoOn (state w) = false
   /\ isConnected (state w) = true /\ isProcessing (state w) = false)
  \/ (autoOn (state w) = false /\ autoOn (state w') = true
      /\ isProcessing (state w) = false)
  \/ (autoOn (state w) = true /\ autoOn (state w') = true
      /\ ((exists p, event i = FetchSettles p None)
          \/ exists j tm newId gd, event i = TimerFires j /\ find_timer j w = Some tm
               /\ tm_cb tm = StageDelay newId gd [])).
Proof.
  intros w Hw i w' Hs Hlt.
  pose proof (reachable_sched_ok _ Hw) as Hok.
  pose proof (reachable_settled _ Hw) as Hr.
  pose proof (reachable_busy_when_on _ Hw) as Hb.
  apply step_inv in Hs. destruct Hs as [_ [w1 [Hh ->]]].
  set (d := draws i) in *. set (t := at_time i) in *.
  destruct (flush_gate d w1) as (Ga & Gc & _).
  rewrite state_flush, uploads_commit in Hlt.
  destruct (handle_inserts _ _ _ _ (proj2 (set_now_sched_ok t _ Hok)) Hr Hb Hh)
    as [El|(Ee & Hp & Hc & Hp1)].
  - destruct (fires w1) eqn:Hf; [|rewrite El in Hlt; cbn in Hlt; lia].
    unfold fires in Hf. rewrite !andb_true_iff, negb_true_iff in Hf.
    destruct Hf as [[Hu Ha1] Hp1].
    assert (Ha' : autoOn (state (flush d w1)) = true).
    { unfold autoOn in *. rewrite Ga, Gc. exact Ha1. }
    right. destruct (autoOn (state w)) eqn:Hon.
    + right. split; [reflexivity|]. split; [exact Ha'|].
      apply (handle_releases _ _ _ _ Hh); [exact (Hb Hon)|exact Hp1].
    + left. split; [reflexivity|]. split; [exact Ha'|].
      destruct (handle_gate _ _ _ _ Hh) as [[E1 E2]|[E|[E|(j & tm & email & E & Hf & E1)]]].
      * exfalso. unfold autoOn in *. cbn in E1, E2. rewrite E1, E2, Hon in Ha1. discriminate.
      * rewrite E in Hh. injection Hh as <-. exact Hp1.
      * rewrite E in Hh. injection Hh as <-. exact Hp1.
      * rewrite E1 in Hp1. unfold handleConnect_resumed, setupMockChannel in Hp1.
        cbn in Hp1. rewrite state_rearm in Hp1. exact Hp1.
  - left. split; [exact Ee|]. cbn in Hp, Hc. split; [|auto].
    destruct (autoOn (state w)) eqn:Hon; [|reflexivity].
    rewrite (Hb Hon) in Hp. discriminate.
Qed.

(** ** The countdown's cycle *)

Lemma tick_down k : forall prev, Z.of_nat k < prev ->
  Nat.iter k tick prev = prev - Z.of_nat k.
Proof.
  induction k as [|k IH]; intros prev H.
  - cbn. lia.
  - rewrite Nat.iter_succ, IH by lia. unfold tick.
    destruct (1 <? prev - Z.of_nat k)%Z eqn:E; [lia|].
    apply Z.ltb_ge in E. lia.
Qed.

(** X18.  The countdown's updater [prev => prev > 1 ? prev - 1 : 60]
    counts down by one to 1 and then wraps to 60: from a value [prev] in
    1..60 it shows [prev - k] after [k < prev] ticks, 60 after [prev]
    ticks, and [prev] again after 60 ticks.  It never shows 0: its cycle
    has the 60 values of the 60 seconds between two ticks of the upload
    interval. *)
Theorem countdown_cycle : forall prev, 1 <= prev <= 60 ->
  (forall k, Z.of_nat k < prev -> Nat.iter k tick prev = prev - Z.of_nat k)
  /\ Nat.iter (Z.to_nat prev) tick prev = 60
  /\ Nat.iter 60 tick prev = prev.
Proof.
  intros prev H.
  assert (Wrap : Nat.iter (Z.to_nat prev) tick prev = 60).
  { replace (Z.to_nat prev) with (S (Z.to_nat (prev - 1))) by lia.
    rewrite Nat.iter_succ, tick_down by lia.
    replace (prev - Z.of_nat (Z.to_nat (prev - 1))) with 1 by lia. reflexivity. }
  split; [intros k Hk; apply tick_down, Hk|]. split; [exact Wrap|].
  replace 60%nat with ((60 - Z.to_nat prev) + Z.to_nat prev)%nat by lia.
  rewrite Nat.iter_add, Wrap, tick_down by lia. lia.
Qed.

(** ** The guard a trigger meets *)

(** X21.  Whatever the order of handlers and renders, a record enters the
    store through [performUpload] passing its guard, in one of three
    places: a click, whose guard is that of the last render; a tick of the
    upload interval, whose guard is that of the last render as well; and
    the upload effect of a render, whose guard is that of the state the
    render shows.  The record is put in front of the store and the guard
    is taken. *)
Theorem trigger_meets_the_rendered_guard : forall w, reachable_tasks w ->
  forall k w', task k w = Some w' ->
  (List.length (uploads (state w)) < List.length (uploads (state w')))%nat ->
  exists c newId t,
    uploads (state w') = initialRecord newId c t :: uploads (state w)
    /\ isProcessing (state w') = true
    /\ c_isProcessing c = false /\ c_isConnected c = true
    /\ ((exists i, k = Handler i /\ event i = ManualTrigger
                   /\ c = closure_of (rendered w))
        \/ (exists i j tm, k = Handler i /\ event i = TimerFires j
               /\ find_timer j w = Some tm /\ tm_cb tm = UploadTick c
               /\ c = closure_of (rendered w) /\ autoOn (rendered w) = true)
        \/ (exists d, k = Render d /\ c = closure_of (state w)
               /\ autoOn (state w) = true
               /\ uploadDepsChanged (rendered w) (state w) = true)).
Proof.
  intros w Hw k w' Hk Hlt.
  destruct (reachable_tasks_ok w Hw) as [[Hok Hiv] _].
  destruct k as [i|d]; cbn [task] in Hk.
  - destruct (on_time _ _); [|discriminate].
    set (d := draws i) in *. set (t := at_time i) in *.
    assert (Perf : forall c w0, state w0 = state w -> now w0 = t ->
              (List.length (uploads (state w))
               < List.length (uploads (state (performUpload c d w0))))%nat ->
              uploads (state (performUpload c d w0))
                = initialRecord (d_id d) c t :: uploads (state w)
              /\ isProcessing (state (performUpload c d w0)) = true
              /\ c_isProcessing c = false /\ c_isConnected c = true).
    { intros c w0 Es En. rewrite state_performUpload.
      destruct (c_isProcessing c || negb (c_isConnected c)) eqn:Hg.
      - rewrite Es. lia.
      - intros _. apply orb_false_iff in Hg. destruct Hg as [Hp Hc].
        apply negb_false_iff in Hc. rewrite Es, En. cbn. auto. }
    unfold handle in Hk.
    destruct (event i) eqn:He; try (injection Hk as <-; cbn in Hlt; lia).
    + unfold handleGoogleLogin in Hk. destruct aistudio; injection Hk as <-; cbn in Hlt; lia.
    + injection Hk as <-.
      destruct (Perf (closure_of (rendered w)) (set_now t w) eq_refl eq_refl Hlt)
        as (A & B & C & D).
      exists (closure_of (rendered w)), (d_id d), t.
      do 4 (split; [assumption|]). left. exists i. auto.
    + destruct (find_timer i0 (set_now t w)) as [tm|] eqn:Hf; [|discriminate].
      destruct (_ =? _)%Z; [|discriminate]. injection Hk as <-.
      change (find_timer i0 (set_now t w)) with (find_timer i0 w) in Hf.
      pose proof (find_timer_in _ _ _ Hf) as [Hin _].
      unfold fire in Hlt |- *.
      destruct (tm_cb tm) as [c| |newId gd rest|email|] eqn:Hcb.
      * destruct (iv_upload _ Hiv tm c Hin Hcb) as [Ec _].
        assert (Hon : autoOn (rendered w) = true).
        { apply (iv_on _ Hiv tm Hin). unfold isUploadTick. rewrite Hcb. reflexivity. }
        destruct (Perf c (rearm tm (set_now t w))) as (A & B & C & D).
        { rewrite state_rearm. reflexivity. }
        { rewrite now_rearm. reflexivity. }
        { exact Hlt. }
        exists c, (d_id d), t. split; [exact A|]. split; [exact B|].
        split; [exact C|]. split; [exact D|]. right. left. exists i, i0, tm. auto 8.
      * cbn in Hlt. rewrite state_rearm in Hlt. cbn in Hlt. lia.
      * exfalso. revert Hlt. unfold performUpload_loop.
        destruct rest; cbn; rewrite state_rearm; cbn;
          rewrite ?finalUpdates_length, ?updateById_length; lia.
      * cbn in Hlt. rewrite state_rearm in Hlt. cbn in Hlt. lia.
      * cbn in Hlt. rewrite state_rearm in Hlt. cbn in Hlt. lia.
    + destruct (find_awaited p (set_now t w)) as [[newId n t0 f|]|]; try discriminate.
      injection Hk as <-. exfalso. revert Hlt.
      unfold performUpload_fetched, performUpload_loop, stages.
      destruct result; cbn; rewrite updateById_length; lia.
    + destruct (find_awaited p (set_now t w)) as [[newId n t0 f|]|]; try discriminate.
      injection Hk as <-. unfold handleGoogleLogin_selected in Hlt.
      destruct ok; cbn in Hlt; lia.
  - injection Hk as <-. rewrite uploads_commit in Hlt |- *.
    rewrite isProcessing_commit.
    destruct (fires w) eqn:Hf; [|lia].
    unfold fires in Hf. rewrite !andb_true_iff, negb_true_iff in Hf.
    destruct Hf as [[Hu Ha] Hp].
    exists (closure_of (state w)), (d_id d), (now w).
    split; [reflexivity|]. split; [apply orb_true_r|]. split; [exact Hp|].
    split; [unfold autoOn in Ha; apply andb_true_iff in Ha; apply Ha|].
    right. right. exists d. auto.
Qed.

(** ** Witnesses on the sample runs *)


Lemma intervals_never_leak_witness :
  List.length (filter isUploadTick (timers (world_after auto_on_trace))) = 1%nat
  /\ List.length (filter isCountdownTick (timers (world_after auto_on_trace))) = 1%nat.
Proof.
  destruct (intervals_never_leak _ (reachable_fresh_reachable _ auto_on_reachable))
    as (A & B & _).
  split; [exact A|exact B].
Defined.


Lemma no_record_while_disconnected_witness :
  world_after [input 0 "a" ManualTrigger] = set_now 0 init.
Proof.
  refine (proj1 (no_record_while_disconnected init reach_init)
            eq_refl 0 (sampleDraws "a") _ _).
  vm_compute. reflexivity.
Defined.

Lemma activation_starts_a_run_witness :
  timeLeft (state (world_after auto_on_trace)) = period
  /\ isProcessing (state (world_after auto_on_trace)) = true.
Proof.
  destruct (activation_starts_a_run _ (reachable_fresh_reachable _ connect_reachable)
              (input 2000 "r1" ToggleAuto) (world_after auto_on_trace)) as (A & B & _).
  - apply (step_sample connect_trace (input 2000 "r1" ToggleAuto)); vm_compute; reflexivity.
  - reflexivity.
  - reflexivity.
  - split; [exact A|exact B].
Defined.

Lemma stopping_leaves_the_run_witness :
  uploads (state (world_after (auto_on_trace ++ [input 2500 "x" ToggleAuto])))
  = uploads (state (world_after auto_on_trace))
  /\ isProcessing (state (world_after (auto_on_trace ++ [input 2500 "x" ToggleAuto]))) = true.
Proof.
  destruct (stopping_leaves_the_run _ (reachable_fresh_reachable _ auto_on_reachable)
              (input 2500 "x" ToggleAuto)
              (world_after (auto_on_trace ++ [input 2500 "x" ToggleAuto])))
    as (_ & A & B & _).
  - apply (step_sample auto_on_trace (input 2500 "x" ToggleAuto)); vm_compute; reflexivity.
  - reflexivity.
  - reflexivity.
  - split; [exact A|exact B].
Defined.

Lemma settings_apply_to_the_next_run_witness :
  closure_of (state (world_after (connect_trace ++ [input 1800 "s" (SetNiche "Cooking")])))
  = closure_of (set_niche "Cooking" (state (world_after connect_trace)))
  /\ uploads (state (world_after (connect_trace ++ [input 1800 "s" (SetNiche "Cooking")])))
     = uploads (state (world_after connect_trace)).
Proof.
  destruct (settings_apply_to_the_next_run _ (reachable_fresh_reachable _ connect_reachable)
              (SetNiche "Cooking") _ eq_refl 1800 (sampleDraws "s")
              (world_after (connect_trace ++ [input 1800 "s" (SetNiche "Cooking")])))
    as (A & B & _).
  - apply (step_sample connect_trace (input 1800 "s" (SetNiche "Cooking")));
      vm_compute; reflexivity.
  - split; [exact A|exact B].
Defined.

Lemma google_login_connects_witness :
  isConnecting (state (world_after [input 0 "g" (GoogleLogin false)])) = true
  /\ find_timer (nextTimer init) (world_after [input 0 "g" (GoogleLogin false)])
     = Some (connectTimeout "google.user@gmail.com" 0 init).
Proof.
  refine (proj1 (google_login_connects init reach_init) 0 (sampleDraws "g") _ _).
  vm_compute. reflexivity.
Defined.


Lemma store_newest_first_witness :
  descending (now (world_after fetched_trace))
    (map timestamp (uploads (state (world_after fetched_trace)))).
Proof.
  exact (store_newest_first _ (reachable_fresh_reachable _ fetched_reachable)).
Defined.

Lemma records_shaped_by_status_witness :
  Forall shaped (uploads (state (world_after publishing_trace))).
Proof. exact (records_shaped_by_status _ publishing_reachable). Defined.

Lemma status_transitions_witness :
  exists news olds,
    uploads (state (world_after fetched_trace)) = news ++ olds
    /\ Forall (fun u => status u = pending) news
    /\ Forall2 (fun u u' => id u' = id u /\ may_follow (status u) (status u') = true)
         (uploads (state (world_after manual_trace))) olds.
Proof.
  apply (status_transitions _ manual_reachable
           (input 2100 "c" (FetchSettles 0 (Some sampleData)))).
  - apply fresh_sample. reflexivity.
  - exact fetched_step.
Defined.

Lemma runs_are_the_records_in_progress_witness :
  in_flight (uploads (state (world_after manual_trace))) = 1%nat.
Proof.
  exact (proj2 (proj2 (runs_are_the_records_in_progress _ manual_reachable))).
Defined.

Lemma auto_publishing_reachable : reachable_fresh (world_after auto_publishing_trace).
Proof. apply sample_reachable. vm_compute. reflexivity. Qed.

Lemma finished_run_restarts_in_auto_mode_witness :
  isProcessing
    (state (world_after (auto_publishing_trace ++ [input 14100 "r2" (TimerFires 10)]))) = true
  /\ timeLeft
       (state (world_after (auto_publishing_trace ++ [input 14100 "r2" (TimerFires 10)])))
     = period.
Proof.
  destruct (finished_run_restarts_in_auto_mode _
              (reachable_fresh_reachable _ auto_publishing_reachable) eq_refl
              10%nat
              {| tm_id := 10; tm_due := 14100; tm_every := None;
                 tm_cb := StageDelay "r1" sampleData [] |}
              "r1" sampleData 14100 (sampleDraws "r2")
              (world_after (auto_publishing_trace ++ [input 14100 "r2" (TimerFires 10)])))
    as (_ & A & B & _).
  - vm_compute. reflexivity.
  - reflexivity.
  - apply (step_sample auto_publishing_trace (input 14100 "r2" (TimerFires 10)));
      vm_compute; reflexivity.
  - split; [exact A|exact B].
Defined.

Lemma connection_cells_agree_witness :
  exists j tm, find_timer j (world_after login_trace) = Some tm
    /\ (tm_cb tm = GoogleDelay \/ exists email, tm_cb tm = ConnectDelay email)
    /\ now (world_after login_trace) <= tm_due tm
    /\ forall d, isConnecting (state (fire tm d (world_after login_trace))) = false.
Proof.
  exact (proj2 (connection_cells_agree _ (reachable_fresh_reachable _ login_reachable))
           eq_refl).
Defined.

Lemma manual_run_completes_witness :
  exists w',
    run (manual_run (nextPromise (world_after connect_trace))
           (nextTimer (world_after connect_trace)) 2000 2100
           (sampleDraws "r1") (sampleDraws "c") sampleData)
      (world_after connect_trace) = Some w'
    /\ now w' = 2100 + 12000
    /\ isProcessing (state w') = false
    /\ timers w' = []
    /\ uploads (state w') =
       uploadedRecord (d_id (sampleDraws "r1"))
         (closure_of (state (world_after connect_trace))) 2000 sampleData (sampleDraws "c")
       :: uploads (state (world_after connect_trace)).
Proof.
  apply (manual_run_completes _ (reachable_fresh_reachable _ connect_reachable)
           eq_refl eq_refl eq_refl eq_refl 2000 2100).
  - assert (E : now (world_after connect_trace) = 1500) by (vm_compute; reflexivity).
    rewrite E. lia.
  - apply fresh_sample. reflexivity.
Defined.

Lemma runs_start_in_three_ways_witness :
  (event (input 2000 "r1" ManualTrigger) = ManualTrigger
   /\ autoOn (state (world_after connect_trace)) = false
   /\ isConnected (state (world_after connect_trace)) = true
   /\ isProcessing (state (world_after connect_trace)) = false)
  \/ (autoOn (state (world_after connect_trace)) = false
      /\ autoOn (state (world_after manual_trace)) = true
      /\ isProcessing (state (world_after connect_trace)) = false)
  \/ (autoOn (state (world_after connect_trace)) = true
      /\ autoOn (state (world_after manual_trace)) = true
      /\ ((exists p, event (input 2000 "r1" ManualTrigger) = FetchSettles p None)
          \/ exists j tm newId gd,
               event (input 2000 "r1" ManualTrigger) = TimerFires j
               /\ find_timer j (world_after connect_trace) = Some tm
               /\ tm_cb tm = StageDelay newId gd [])).
Proof.
  apply (runs_start_in_three_ways _ (reachable_fresh_reachable _ connect_reachable)
           (input 2000 "r1" ManualTrigger) (world_after manual_trace)).
  - apply (step_sample connect_trace (input 2000 "r1" ManualTrigger));
      vm_compute; reflexivity.
  - vm_compute. lia.
Defined.

Lemma countdown_cycle_witness :
  Nat.iter (Z.to_nat 60) tick 60 = 60 /\ Nat.iter 60 tick 60 = 60.
Proof.
  refine (proj2 (countdown_cycle 60 _)). lia.
Defined.

(** ** Sample runs with a stale guard, a repeated id, a rejected fetch *)

(** C1 (the code differs).  The guard of [performUpload] is the
    [isProcessing] of the render that made the callback.  Run [r1] ends at
    14100; React renders, and the upload effect starts run [r2].  The
    button still holds the [performUpload] of that render, which saw
    [isProcessing] false: a click before the next render passes the guard
    and starts run [z].  Two records are pending.  The same click after
    the next render is dropped. *)
Example stale_guard_starts_a_second_run :
  option_map store_view (run_tasks stale_click_trace init)
  = Some [("z", 14100, pending, trend_scouting);
          ("r2", 14100, pending, trend_scouting);
          ("r1", 2000, uploaded, publishing)]
  /\ option_map (fun w => in_flight (uploads (state w))) (run_tasks stale_click_trace init)
     = Some 2%nat
  /\ option_map (fun w => (c_isProcessing (closure_of (rendered w)), isProcessing (state w)))
       (run_tasks (flat_map settled auto_publishing_trace ++
                   [Handler (input 14100 "r2" (TimerFires 10)); Render (sampleDraws "r2")])
          init)
     = Some (false, true)
  /\ option_map (fun w => in_flight (uploads (state w)))
       (run (auto_trace ++ [input 14100 "z" ManualTrigger]) init)
     = Some 1%nat.
Proof. vm_compute. auto. Qed.



(** C4 (the code differs).  Auto-mode is on and the fetch of run [r1] is
    rejected at 2100.  The record is failed at [trend_scouting] and the
    finally block releases the guard; but [performUpload] changed with
    [isProcessing], the upload effect runs again in the same step (as in
    C5) and starts run [r2].  The guard is taken: a manual trigger at 2200
    is dropped, and so is the tick of the upload interval, which has been
    set again and is due at 62100. *)
Example failed_run_is_retried_at_once :
  option_map runs_view (run rejected_trace init)
  = Some ([("r2", 2100, pending, trend_scouting); ("r1", 2000, failed, trend_scouting)],
          1%nat, true, 60)
  /\ option_map timers_view (run rejected_trace init)
     = Some [(3%nat, 3000, Some 1000); (6%nat, 62100, Some 60000)]
  /\ option_map store_view (run (rejected_trace ++ [input 2200 "z" ManualTrigger]) init)
     = Some [("r2", 2100, pending, trend_scouting); ("r1", 2000, failed, trend_scouting)]
  /\ option_map store_view
       (run (rejected_trace ++ countdown_ticks 3 3000 60 ++ [input 62100 "y" (TimerFires 6)])
          init)
     = Some [("r2", 2100, pending, trend_scouting); ("r1", 2000, failed, trend_scouting)].
Proof. vm_compute. auto. Qed.

Lemma ticked_reachable : reachable_tasks (world_after_tasks ticked_trace).
Proof.
  apply (run_tasks_reachable ticked_trace init); [constructor|].
  vm_compute. reflexivity.
Qed.

Lemma countdown_reset_on_fire_witness :
  timeLeft (state (world_after auto_publishing_trace)) = 48
  /\ timeLeft (state (world_after auto_trace)) = period
  /\ timeLeft (state (world_after_tasks ticked_trace)) = 59
  /\ timeLeft (state (world_after_tasks
                        (ticked_trace ++ [Handler (input 15000 "z" ManualTrigger)]))) = 59
  /\ timeLeft (state (world_after_tasks
                        (ticked_trace ++ [Handler (input 15000 "z" ManualTrigger);
                                          Render (sampleDraws "z")]))) = period.
Proof.
  destruct countdown_reset_on_fire as [A B].
  split; [vm_compute; reflexivity|]. split.
  - refine (proj1 (A _ (reachable_fresh_reachable _ auto_publishing_reachable)
                     (input 14100 "r2" (TimerFires 10)) (world_after auto_trace) _) _).
    + vm_compute. reflexivity.
    + vm_compute. lia.
  - split; [vm_compute; reflexivity|].
    destruct (B _ ticked_reachable) as (_ & _ & C).
    assert (Hk : task (Handler {| at_time := 15000; draws := sampleDraws "z";
                                  event := ManualTrigger |})
                   (world_after_tasks ticked_trace)
                 = Some (world_after_tasks
                           (ticked_trace ++ [Handler (input 15000 "z" ManualTrigger)]))).
    { vm_compute. reflexivity. }
    destruct (C 15000 (sampleDraws "z") _ Hk) as [D E].
    + vm_compute. lia.
    + split; [rewrite D; vm_compute; reflexivity|].
      assert (E2 : world_after_tasks
                     (ticked_trace ++ [Handler (input 15000 "z" ManualTrigger);
                                       Render (sampleDraws "z")])
                   = commit (sampleDraws "z")
                       (world_after_tasks
                          (ticked_trace ++ [Handler (input 15000 "z" ManualTrigger)]))).
      { vm_compute. reflexivity. }
      rewrite E2. exact (E (sampleDraws "z")).
Defined.

Lemma stale_guard_reachable : reachable_tasks (world_after_tasks stale_guard_trace).
Proof.
  apply (run_tasks_reachable stale_guard_trace init); [constructor|].
  vm_compute. reflexivity.
Qed.

Lemma trigger_meets_the_rendered_guard_witness :
  isProcessing (state (world_after_tasks stale_guard_trace)) = true
  /\ exists c newId t,
       uploads (state (world_after_tasks
                         (stale_guard_trace ++ [Handler (input 14100 "z" ManualTrigger)])))
       = initialRecord newId c t :: uploads (state (world_after_tasks stale_guard_trace))
       /\ c_isProcessing c = false.
Proof.
  split; [vm_compute; reflexivity|].
  assert (Hk : task (Handler (input 14100 "z" ManualTrigger))
                 (world_after_tasks stale_guard_trace)
               = Some (world_after_tasks
                         (stale_guard_trace ++ [Handler (input 14100 "z" ManualTrigger)]))).
  { vm_compute. reflexivity. }
  destruct (trigger_meets_the_rendered_guard _ stale_guard_reachable _ _ Hk)
    as (c & newId & t & A & _ & C & _).
  - vm_compute. lia.
  - exists c, newId, t. split; [exact A | exact C].
Defined.

Lemma rendering_settles_witness :
  (List.length (uploads (state (world_after connect_trace)))
   <= List.length (uploads (state (world_after manual_trace)))
   <= S (List.length (uploads (state (world_after connect_trace)))))%nat.
Proof.
  destruct (rendering_settles noDraws noDraws noDraws (world_after connect_trace))
    as (_ & _ & _ & _ & A).
  apply (A (input 2000 "r1" ManualTrigger)).
  apply (step_sample connect_trace (input 2000 "r1" ManualTrigger)); vm_compute; reflexivity.
Defined.
